(** * The chat panel of the receipt assistant: stream consumer and forms

    A shallow embedding of [apps/frontend/components/chat-panel.tsx]: the
    server-sent-event reader of [sendMessageStreaming], the block parser
    [parseSseBlock], the form handler [sendMessage], the error decoding of
    [parseApiError] and the request built by [saveManualCorrection].

    JavaScript strings are sequences of UTF-16 code units, so they are
    lists of [N]; byte chunks read from the network are lists of
    [Byte.byte]; React state is a record threaded through the handlers.
    What can throw returns an option, a sum or a [Flow]: the conversion of
    a value to a string, [response.text()], [response.json()], a read of
    the stream, and the handlers that call them. *)

From Stdlib Require Import String Ascii NArith ZArith Bool Lia Arith List.
From Stdlib Require Import DecimalString.
From Stdlib Require Strings.Byte.
From Equations Require Import Equations.
Import ListNotations.

(** ** JavaScript strings *)

Module Js.

Definition JsString := list N.

(** A string literal of the source, as code units; the literals of the
    source are ASCII. *)
Definition lit (s : string) : JsString :=
  map N_of_ascii (list_ascii_of_string s).

Definition LF : N := 10.

Fixpoint eqb (a b : JsString) : bool :=
  match a, b with
  | [], [] => true
  | x :: a', y :: b' => N.eqb x y && eqb a' b'
  | _, _ => false
  end.

Definition isEmpty (s : JsString) : bool :=
  match s with [] => true | _ => false end.

(** [String.prototype.startsWith]. *)
Fixpoint startsWith (p s : JsString) : bool :=
  match p, s with
  | [], _ => true
  | x :: p', y :: s' => N.eqb x y && startsWith p' s'
  | _ :: _, [] => false
  end.

(** [String.prototype.includes]. *)
Fixpoint includes (needle s : JsString) : bool :=
  startsWith needle s ||
  match s with
  | [] => false
  | _ :: s' => includes needle s'
  end.

(** [s.slice(n)] for a non-negative [n]. *)
Definition slice (n : nat) (s : JsString) : JsString := skipn n s.

(** The code units that [trim], [trimStart] and [trimEnd] remove: the
    WhiteSpace and LineTerminator productions of ECMAScript. *)
Definition isWhiteSpace (c : N) : bool :=
  ((9 <=? c) && (c <=? 13) || (c =? 32) || (c =? 160) || (c =? 5760)
   || (8192 <=? c) && (c <=? 8202) || (c =? 8232) || (c =? 8233)
   || (c =? 8239) || (c =? 8287) || (c =? 12288) || (c =? 65279))%N.

Fixpoint trimStart (s : JsString) : JsString :=
  match s with
  | c :: s' => if isWhiteSpace c then trimStart s' else s
  | [] => []
  end.

Definition trimEnd (s : JsString) : JsString := rev (trimStart (rev s)).

Definition trim (s : JsString) : JsString := trimStart (trimEnd s).

(** The first occurrence of [sep] in [s]: what is before it and what is
    after it. *)
Fixpoint breakOn (sep s : JsString) : option (JsString * JsString) :=
  if startsWith sep s then Some ([], skipn (length sep) s)
  else match s with
       | [] => None
       | c :: s' =>
           match breakOn sep s' with
           | Some (b, a) => Some (c :: b, a)
           | None => None
           end
       end.

Lemma startsWith_app (p s : JsString) :
  startsWith p s = true -> exists r, s = p ++ r.
Proof.
  revert s; induction p as [|x p IH]; intros s H.
  - now exists s.
  - destruct s as [|y s]; [discriminate|]. simpl in H.
    apply andb_prop in H as [Hx Hp]. apply N.eqb_eq in Hx. subst y.
    destruct (IH _ Hp) as [r ->]. now exists r.
Qed.

Lemma startsWith_app_l (p r : JsString) : startsWith p (p ++ r) = true.
Proof.
  induction p as [|x p IH]; simpl; [reflexivity|].
  now rewrite N.eqb_refl, IH.
Qed.

Lemma breakOn_shape (sep s b a : JsString) :
  breakOn sep s = Some (b, a) -> s = b ++ sep ++ a.
Proof.
  revert b a; induction s as [|c s IH]; intros b a H.
  - simpl in H. destruct (startsWith sep []) eqn:E; [|discriminate].
    injection H as <- <-. destruct sep; [reflexivity|discriminate].
  - simpl in H. destruct (startsWith sep (c :: s)) eqn:E.
    + injection H as <- <-. destruct (startsWith_app _ _ E) as [r Hr].
      rewrite Hr at 1. simpl. f_equal. rewrite Hr.
      now rewrite skipn_app, skipn_all, Nat.sub_diag.
    + destruct (breakOn sep s) as [[b' a']|] eqn:Eb; [|discriminate].
      injection H as <- <-. simpl. f_equal. now apply IH.
Qed.

Lemma breakOn_length (c0 : N) (sep s b a : JsString) :
  breakOn (c0 :: sep) s = Some (b, a) -> length a < length s.
Proof.
  intros H. apply breakOn_shape in H. subst s.
  rewrite !length_app. simpl. lia.
Qed.

(** Matching on a value while remembering which value it was. *)
Definition inspect {A : Type} (x : A) : {y : A | x = y} := exist _ x eq_refl.

(** [String.prototype.split] with a string separator: the pieces between
    the successive leftmost occurrences of the separator; with the empty
    separator, the code units one by one. *)
Equations? split (sep s : JsString) : list JsString by wf (length s) lt :=
  split [] s := map (fun c => [c]) s;
  split (c0 :: sep') s with inspect (breakOn (c0 :: sep') s) := {
    | exist _ (Some (b, a)) Heq := b :: split (c0 :: sep') a;
    | exist _ None _ := [s] }.
Proof. eapply breakOn_length; eassumption. Qed.

(** [Array.prototype.join] on strings. *)
Fixpoint join (sep : JsString) (l : list JsString) : JsString :=
  match l with
  | [] => []
  | [x] => x
  | x :: l' => x ++ sep ++ join sep l'
  end.

(** *** Values

    What [JSON.parse] can return, and [undefined].  A number is kept as the
    numeral that [Number.prototype.toString] prints for it, which
    determines the number up to the sign of zero; the program only ever
    tests a number for truthiness or prints it. *)

#[local] Unset Elimination Schemes.

Inductive JsValue :=
| JUndefined
| JNull
| JBool (b : bool)
| JNumber (numeral : JsString)
| JString (s : JsString)
| JArray (items : list JsValue)
| JObject (members : list (JsString * JsValue)).

#[local] Set Elimination Schemes.

(** ToBoolean. *)
Definition truthy (v : JsValue) : bool :=
  match v with
  | JUndefined | JNull => false
  | JBool b => b
  | JNumber n => negb (eqb n (lit "0")) && negb (eqb n (lit "NaN"))
  | JString s => negb (isEmpty s)
  | JArray _ | JObject _ => true
  end.

(** Own property of an object built by [JSON.parse] or by a literal. *)
Fixpoint objGet (members : list (JsString * JsValue)) (key : JsString)
  : option JsValue :=
  match members with
  | [] => None
  | (k, v) :: rest => if eqb k key then Some v else objGet rest key
  end.

(** ToString, as used by template literals, [String(x)], the [Error]
    constructor and [FormData.append]; [None] when it throws a TypeError.
    No value built by [JSON.parse] is callable, so an object that has a
    [toString] key of its own has no string conversion: its [toString] is
    passed over, and [valueOf], its own or the inherited one, yields no
    primitive.  An array is joined, and has a conversion when its elements
    have one. *)
Fixpoint ToString (v : JsValue) : option JsString :=
  match v with
  | JUndefined => Some (lit "undefined")
  | JNull => Some (lit "null")
  | JBool true => Some (lit "true")
  | JBool false => Some (lit "false")
  | JNumber n => Some n
  | JString s => Some s
  | JArray items =>
      let element x :=
        match x with
        | JUndefined | JNull => Some []
        | _ => ToString x
        end in
      (fix joined (l : list JsValue) : option JsString :=
         match l with
         | [] => Some []
         | [x] => element x
         | x :: l' =>
             match element x, joined l' with
             | Some a, Some b => Some (a ++ lit "," ++ b)
             | _, _ => None
             end
         end) items
  | JObject members =>
      match objGet members (lit "toString") with
      | Some _ => None
      | None => Some (lit "[object Object]")
      end
  end.

(** [a ?? b]. *)
Definition nullish (a b : JsValue) : JsValue :=
  match a with
  | JUndefined | JNull => b
  | _ => a
  end.

(** [a || b]. *)
Definition orElse (a b : JsValue) : JsValue := if truthy a then a else b.

(** Assignment [o[key] = v]: an existing key keeps its place. *)
Fixpoint objSet (members : list (JsString * JsValue)) (key : JsString)
  (v : JsValue) : list (JsString * JsValue) :=
  match members with
  | [] => [(key, v)]
  | (k, w) :: rest =>
      if eqb k key then (k, v) :: rest else (k, w) :: objSet rest key v
  end.

(** [v?.key], and [v.key] where [v] is known not to be null or undefined,
    for the property names this program reads ([content], [message],
    [error], [conversation_id], ...): none of them is found on a
    primitive, an array or [Object.prototype]. *)
Definition member (v : JsValue) (key : JsString) : JsValue :=
  match v with
  | JObject members =>
      match objGet members key with
      | Some x => x
      | None => JUndefined
      end
  | _ => JUndefined
  end.

(** What a [throw] carries: an [Error] object with its message, or
    anything that is not an instance of [Error]. *)
Inductive Thrown :=
| ErrorObj (message : JsString)
| NonError.

(** Conversion to a USVString, as [FormData.append] does to a string
    value: a surrogate that is not part of a pair becomes U+FFFD. *)
Definition isHighSurrogate (c : N) : bool := ((55296 <=? c) && (c <=? 56319))%N.
Definition isLowSurrogate (c : N) : bool := ((56320 <=? c) && (c <=? 57343))%N.

Fixpoint toUSVString (s : JsString) : JsString :=
  match s with
  | [] => []
  | c :: s' =>
      if isHighSurrogate c then
        match s' with
        | d :: s'' =>
            if isLowSurrogate d
            then c :: d :: toUSVString s''
            else 65533%N :: toUSVString s'
        | [] => [65533%N]
        end
      else if isLowSurrogate c then 65533%N :: toUSVString s'
      else c :: toUSVString s'
  end.

(** *** JSON.stringify

    [JSON.stringify(value)] without replacer or indentation, on the values
    above (none of which has a callable [toJSON]). *)

Definition hexDigit (n : N) : N := (if n <? 10 then 48 + n else 87 + n)%N.

(** The escape [\uXXXX] of a code unit, in lower case. *)
Definition unicodeEscape (c : N) : JsString :=
  [92; 117; hexDigit (c / 4096); hexDigit ((c / 256) mod 16);
   hexDigit ((c / 16) mod 16); hexDigit (c mod 16)]%N.

Definition escapeUnit (c : N) : JsString :=
  if (c =? 8)%N then lit "\b"
  else if (c =? 9)%N then lit "\t"
  else if (c =? 10)%N then lit "\n"
  else if (c =? 12)%N then lit "\f"
  else if (c =? 13)%N then lit "\r"
  else if (c =? 34)%N then [92; 34]%N
  else if (c =? 92)%N then [92; 92]%N
  else if (c <? 32)%N then unicodeEscape c
  else [c].

Fixpoint quoteUnits (s : JsString) : JsString :=
  match s with
  | [] => []
  | c :: s' =>
      if isHighSurrogate c then
        match s' with
        | d :: s'' =>
            if isLowSurrogate d
            then c :: d :: quoteUnits s''
            else unicodeEscape c ++ quoteUnits s'
        | [] => unicodeEscape c
        end
      else if isLowSurrogate c then unicodeEscape c ++ quoteUnits s'
      else escapeUnit c ++ quoteUnits s'
  end.

(** QuoteJSONString. *)
Definition quote (s : JsString) : JsString := [34%N] ++ quoteUnits s ++ [34%N].

(** A number that is neither NaN nor an infinity. *)
Definition isFinite (numeral : JsString) : bool :=
  negb (eqb numeral (lit "NaN")) && negb (eqb numeral (lit "Infinity"))
  && negb (eqb numeral (lit "-Infinity")).

(** The text written for a value, [None] where [JSON.stringify] gives
    [undefined].  A number that is not finite is written [null]; a member
    whose value is [undefined] is left out, and such an element of an
    array is written [null].  The members are written in the order of the
    list, the order in which the keys were added to the object when none
    of them is an array index. *)
Fixpoint stringify (v : JsValue) : option JsString :=
  match v with
  | JUndefined => None
  | JNull => Some (lit "null")
  | JBool true => Some (lit "true")
  | JBool false => Some (lit "false")
  | JNumber n => Some (if isFinite n then n else lit "null")
  | JString s => Some (quote s)
  | JArray items =>
      Some (lit "[" ++
            join (lit ",")
              (map (fun x =>
                      match stringify x with
                      | Some t => t
                      | None => lit "null"
                      end) items)
            ++ lit "]")
  | JObject members =>
      Some (lit "{" ++
            join (lit ",")
              (flat_map (fun '(k, x) =>
                           match stringify x with
                           | Some t => [quote k ++ lit ":" ++ t]
                           | None => []
                           end) members)
            ++ lit "}")
  end.

End Js.

(** ** The streaming UTF-8 decoder

    [new TextDecoder("utf-8")] with [decode(value, { stream: true })]: the
    decoder of the Encoding Standard, a state machine over bytes whose
    state survives from one call to the next; the first code point is
    dropped when it is a byte order mark. *)

Module Utf8.
Import Js.
Local Open Scope N_scope.

Record State := {
  codePoint : N;
  bytesSeen : N;
  bytesNeeded : N;
  lower : N;
  upper : N;
  bomSeen : bool }.

Definition init : State :=
  {| codePoint := 0; bytesSeen := 0; bytesNeeded := 0;
     lower := 128; upper := 191; bomSeen := false |}.

Definition reset (st : State) : State :=
  {| codePoint := 0; bytesSeen := 0; bytesNeeded := 0;
     lower := 128; upper := 191; bomSeen := bomSeen st |}.

(** A code point as UTF-16 code units. *)
Definition utf16 (cp : N) : JsString :=
  if cp <? 65536 then [cp]
  else [55296 + N.shiftr (cp - 65536) 10; 56320 + N.land (cp - 65536) 1023].

Definition emit (st : State) (cp : N) : State * JsString :=
  if bomSeen st then (st, utf16 cp)
  else ({| codePoint := codePoint st; bytesSeen := bytesSeen st;
           bytesNeeded := bytesNeeded st; lower := lower st;
           upper := upper st; bomSeen := true |},
        if cp =? 65279 then [] else utf16 cp).

Definition expect (st : State) (needed lo hi cp : N) : State * JsString :=
  ({| codePoint := cp; bytesSeen := 0; bytesNeeded := needed;
      lower := lo; upper := hi; bomSeen := bomSeen st |}, []).

(** A byte read when no sequence is open. *)
Definition lead (st : State) (b : N) : State * JsString :=
  if b <=? 127 then emit st b
  else if (194 <=? b) && (b <=? 223) then expect st 1 128 191 (N.land b 31)
  else if (224 <=? b) && (b <=? 239) then
    expect st 2 (if b =? 224 then 160 else 128)
              (if b =? 237 then 159 else 191) (N.land b 15)
  else if (240 <=? b) && (b <=? 244) then
    expect st 3 (if b =? 240 then 144 else 128)
              (if b =? 244 then 143 else 191) (N.land b 7)
  else emit st 65533.

Definition step (st : State) (byte : Byte.byte) : State * JsString :=
  let b := Byte.to_N byte in
  if bytesNeeded st =? 0 then lead st b
  else if negb ((lower st <=? b) && (b <=? upper st)) then
    let (st1, out1) := emit (reset st) 65533 in
    let (st2, out2) := lead st1 b in
    (st2, out1 ++ out2)
  else
    let cp := N.lor (N.shiftl (codePoint st) 6) (N.land b 63) in
    if bytesSeen st + 1 =? bytesNeeded st then emit (reset st) cp
    else ({| codePoint := cp; bytesSeen := bytesSeen st + 1;
             bytesNeeded := bytesNeeded st; lower := 128; upper := 191;
             bomSeen := bomSeen st |}, []).

(** [decoder.decode(value, { stream: true })]. *)
Fixpoint decode (st : State) (value : list Byte.byte) : State * JsString :=
  match value with
  | [] => (st, [])
  | byte :: rest =>
      let (st1, out1) := step st byte in
      let (st2, out2) := decode st1 rest in
      (st2, out1 ++ out2)
  end.

(** The bytes of a string literal of this file. *)
Definition bytes (s : string) : list Byte.byte := list_byte_of_string s.

End Utf8.

(** ** A reference [JSON.parse]

    The grammar of ECMA-404 by recursive descent.  An integer token of at
    most fifteen digits is its own numeral; any other number token is kept
    as written, which is the numeral JavaScript prints only when it prints
    the number the same way.  The examples below use no such token. *)

Module Json.
Import Js.
Local Open Scope N_scope.

Definition isJsonSpace (c : N) : bool :=
  (c =? 32) || (c =? 9) || (c =? 10) || (c =? 13).

Fixpoint skipWs (s : JsString) : JsString :=
  match s with
  | c :: s' => if isJsonSpace c then skipWs s' else s
  | [] => []
  end.

(** [s] without the prefix [p], when it has it. *)
Definition eat (p s : JsString) : option JsString :=
  if startsWith p s then Some (skipn (length p) s) else None.

Definition isDigit (c : N) : bool := (48 <=? c) && (c <=? 57).

Definition hexValue (c : N) : option N :=
  if isDigit c then Some (c - 48)
  else if (97 <=? c) && (c <=? 102) then Some (c - 87)
  else if (65 <=? c) && (c <=? 70) then Some (c - 55)
  else None.

Definition hex4 (a b c d : N) : option N :=
  match hexValue a, hexValue b, hexValue c, hexValue d with
  | Some x, Some y, Some z, Some w => Some (((x * 16 + y) * 16 + z) * 16 + w)
  | _, _, _, _ => None
  end.

Definition simpleEscape (c : N) : option N :=
  if c =? 34 then Some 34 else if c =? 92 then Some 92
  else if c =? 47 then Some 47 else if c =? 98 then Some 8
  else if c =? 102 then Some 12 else if c =? 110 then Some 10
  else if c =? 114 then Some 13 else if c =? 116 then Some 9
  else None.

(** The rest of a string token, after its opening quote. *)
Fixpoint parseString (s acc : JsString) : option (JsString * JsString) :=
  match s with
  | [] => None
  | c :: s1 =>
      if c =? 34 then Some (rev acc, s1)
      else if c =? 92 then
        match s1 with
        | e :: s2 =>
            if e =? 117 then
              match s2 with
              | h1 :: h2 :: h3 :: h4 :: s3 =>
                  match hex4 h1 h2 h3 h4 with
                  | Some u => parseString s3 (u :: acc)
                  | None => None
                  end
              | _ => None
              end
            else
              match simpleEscape e with
              | Some u => parseString s2 (u :: acc)
              | None => None
              end
        | [] => None
        end
      else if c <? 32 then None
      else parseString s1 (c :: acc)
  end.

Fixpoint spanDigits (s : JsString) : JsString * JsString :=
  match s with
  | c :: s' =>
      if isDigit c then let (ds, r) := spanDigits s' in (c :: ds, r)
      else ([], s)
  | [] => ([], [])
  end.

(** The numeral JavaScript prints for the number written as the decimal
    [int . frac e exp]: exact for at most fifteen significant digits and a
    magnitude between 1e-300 and 1e300, where a double holds every such
    decimal apart and prints it back; [written] is kept elsewhere. *)
Fixpoint stripZeros (ds : JsString) : JsString * nat :=
  match ds with
  | c :: ds' =>
      if c =? 48 then let (r, z) := stripZeros ds' in (r, S z) else (ds, O)
  | [] => ([], O)
  end.

Definition decimalOfN (n : N) : JsString :=
  lit (NilEmpty.string_of_uint (N.to_uint n)).

Definition valueOfDigits (ds : JsString) : N :=
  fold_left (fun acc c => acc * 10 + (c - 48)) ds 0.

Definition numeralOf (neg : bool) (int frac : JsString) (exp : Z)
  (written : JsString) : JsString :=
  let (d1, z) := stripZeros (int ++ frac) in
  let ds := rev (fst (stripZeros (rev d1))) in
  let n := (Z.of_nat (length int) + exp - Z.of_nat z)%Z in
  let k := Z.of_nat (length ds) in
  if isEmpty ds then [48]
  else if ((15 <? k) || (n <? -300) || (300 <? n))%Z then written
  else
    (if neg then [45] else []) ++
    (if ((k <=? n) && (n <=? 21))%Z then ds ++ repeat 48 (Z.to_nat (n - k))
     else if ((0 <? n) && (n <=? 21))%Z then
       firstn (Z.to_nat n) ds ++ 46 :: skipn (Z.to_nat n) ds
     else if ((-6 <? n) && (n <=? 0))%Z then
       48 :: 46 :: repeat 48 (Z.to_nat (- n)) ++ ds
     else
       match ds with
       | [] => []
       | [d] => [d]
       | d :: rest => d :: 46 :: rest
       end ++ 101 :: (if (1 <=? n)%Z then [43] else [45])
           ++ decimalOfN (Z.to_N (Z.abs (n - 1)))).

(** An optional exponent part: its value, and what follows it. *)
Definition exponentPart (s : JsString) : option (Z * JsString) :=
  match s with
  | e :: r =>
      if (e =? 101) || (e =? 69) then
        let (minus, r1) :=
          match r with
          | g :: r' =>
              if g =? 43 then (false, r') else if g =? 45 then (true, r')
              else (false, r)
          | [] => (false, r)
          end in
        let (ds, r2) := spanDigits r1 in
        if isEmpty ds then None
        else let v := Z.of_N (valueOfDigits ds) in
             Some (if minus then (- v)%Z else v, r2)
      else Some (0%Z, s)
  | [] => Some (0%Z, s)
  end.

(** What [s] has lost to become its suffix [r]. *)
Definition consumed (s r : JsString) : JsString :=
  firstn (length s - length r) s.

(** A JSON number token: its numeral and what follows it. *)
Definition numberToken (s : JsString) : option (JsString * JsString) :=
  let (neg, s1) :=
    match s with
    | 45 :: r => (true, r)
    | _ => (false, s)
    end in
  let (int, s2) :=
    match s1 with
    | 48 :: r => ([48], r)
    | _ => spanDigits s1
    end in
  if isEmpty int then None else
  let fraction :=
    match s2 with
    | 46 :: r =>
        let (ds, r') := spanDigits r in
        if isEmpty ds then None else Some (ds, r')
    | _ => Some ([], s2)
    end in
  match fraction with
  | None => None
  | Some (frac, s3) =>
      match exponentPart s3 with
      | None => None
      | Some (exp, s4) =>
          Some (numeralOf neg int frac exp (consumed s s4), s4)
      end
  end.

Fixpoint parseValue (fuel : nat) (s : JsString) : option (JsValue * JsString) :=
  match fuel with
  | O => None
  | S fuel' =>
      let s0 := skipWs s in
      match eat (lit "null") s0 with
      | Some r => Some (JNull, r)
      | None =>
      match eat (lit "true") s0 with
      | Some r => Some (JBool true, r)
      | None =>
      match eat (lit "false") s0 with
      | Some r => Some (JBool false, r)
      | None =>
      match s0 with
      | [] => None
      | c :: r =>
          if c =? 34 then
            match parseString r [] with
            | Some (str, r') => Some (JString str, r')
            | None => None
            end
          else if c =? 91 then
            match eat [93] (skipWs r) with
            | Some r' => Some (JArray [], r')
            | None => parseElements fuel' r []
            end
          else if c =? 123 then
            match eat [125] (skipWs r) with
            | Some r' => Some (JObject [], r')
            | None => parseMembers fuel' r []
            end
          else
            match numberToken s0 with
            | Some (n, r') => Some (JNumber n, r')
            | None => None
            end
      end end end end
  end
with parseElements (fuel : nat) (s : JsString) (acc : list JsValue)
  : option (JsValue * JsString) :=
  match fuel with
  | O => None
  | S fuel' =>
      match parseValue fuel' s with
      | Some (v, r) =>
          match skipWs r with
          | c :: r' =>
              if c =? 44 then parseElements fuel' r' (v :: acc)
              else if c =? 93 then Some (JArray (rev (v :: acc)), r')
              else None
          | [] => None
          end
      | None => None
      end
  end
with parseMembers (fuel : nat) (s : JsString)
  (acc : list (JsString * JsValue)) : option (JsValue * JsString) :=
  match fuel with
  | O => None
  | S fuel' =>
      match eat [34] (skipWs s) with
      | None => None
      | Some r =>
          match parseString r [] with
          | None => None
          | Some (key, r1) =>
              match eat [58] (skipWs r1) with
              | None => None
              | Some r2 =>
                  match parseValue fuel' r2 with
                  | None => None
                  | Some (v, r3) =>
                      match skipWs r3 with
                      | c :: r4 =>
                          if c =? 44 then parseMembers fuel' r4 (objSet acc key v)
                          else if c =? 125 then Some (JObject (objSet acc key v), r4)
                          else None
                      | [] => None
                      end
                  end
              end
          end
      end
  end.

(** [JSON.parse(text)]; [None] when it throws a SyntaxError. *)
Definition parse (text : JsString) : option JsValue :=
  match parseValue (2 * length text + 2) text with
  | Some (v, r) => if isEmpty (skipWs r) then Some v else None
  | None => None
  end.

(** [Number(text)] on a string: the StringNumericLiteral grammar, with
    the same numerals as above. *)
Fixpoint radixValue (radix : N) (ds : JsString) (acc : N) : option N :=
  match ds with
  | [] => Some acc
  | c :: ds' =>
      match hexValue c with
      | Some v => if v <? radix then radixValue radix ds' (acc * radix + v) else None
      | None => None
      end
  end.

Definition radixNumber (radix : N) (ds : JsString) : JsValue :=
  match ds, radixValue radix ds 0 with
  | _ :: _, Some v => JNumber (numeralOf false (decimalOfN v) [] 0 (decimalOfN v))
  | _, _ => JNumber (lit "NaN")
  end.

Definition decimalNumber (t : JsString) : JsValue :=
  let (neg, t1) :=
    match t with
    | 43 :: r => (false, r)
    | 45 :: r => (true, r)
    | _ => (false, t)
    end in
  if eqb t1 (lit "Infinity") then
    JNumber ((if neg then [45] else []) ++ lit "Infinity")
  else
    let (int, t2) := spanDigits t1 in
    let (frac, t3) :=
      match t2 with
      | 46 :: r => spanDigits r
      | _ => ([], t2)
      end in
    if isEmpty int && isEmpty frac then JNumber (lit "NaN")
    else
      match exponentPart t3 with
      | Some (exp, []) =>
          JNumber (numeralOf neg int frac exp ((if neg then [45] else []) ++ t1))
      | _ => JNumber (lit "NaN")
      end.

Definition toNumber (text : JsString) : JsValue :=
  let t := trim text in
  match t with
  | [] => JNumber [48]
  | 48 :: x :: r =>
      if (x =? 120) || (x =? 88) then radixNumber 16 r
      else if (x =? 111) || (x =? 79) then radixNumber 8 r
      else if (x =? 98) || (x =? 66) then radixNumber 2 r
      else decimalNumber t
  | _ => decimalNumber t
  end.

End Json.

(** ** The platform and the network

    What the component takes from its environment: [JSON.parse], [Number]
    on a string, the configured [apiBase], and the messages of two
    TypeErrors of the engine: that of reading a property of [null], and
    that of converting to a string a value that has no string
    conversion. *)

Import Js.

Class Platform := {
  JSON_parse : JsString -> option JsValue;
  StringToNumber : JsString -> JsValue;
  apiBase : JsString;
  nullReadMessage : JsString;
  toPrimitiveMessage : JsString }.

(** The platform used to evaluate the examples. *)
Definition refPlatform : Platform :=
  {| JSON_parse := Json.parse;
     StringToNumber := Json.toNumber;
     apiBase := lit "http://localhost:8000";
     nullReadMessage := lit "Cannot read properties of null (reading 'id')";
     toPrimitiveMessage := lit "Cannot convert object to primitive value" |}.

(** What [new Error(v)] leaves to be thrown: the Error with the string
    conversion of [v] as its message, or the TypeError of that
    conversion. *)
Definition newError {P : Platform} (v : JsValue) : Thrown :=
  match v with
  | JUndefined => ErrorObj []
  | _ =>
      match ToString v with
      | Some message => ErrorObj message
      | None => ErrorObj toPrimitiveMessage
      end
  end.

Module File.
Record t := { name : JsString; content : list Byte.byte }.
End File.

(** An entry of a [FormData]. *)
Inductive FormValue :=
| FormText (value : JsString)
| FormFile (file : File.t).

Definition FormData := list (JsString * FormValue).

(** [formData.append(name, value)] with a value that is not a Blob: the
    entry holds its string conversion.  Every value appended in this
    program is declared a string.  For a value without a string
    conversion [append] throws and no entry is added; what is proved
    about the entries of a form is stated for strings. *)
Definition appendText (fd : FormData) (name : JsString) (value : JsValue) : FormData :=
  match ToString value with
  | Some s => fd ++ [(name, FormText (toUSVString s))]
  | None => fd
  end.

Definition appendFile (fd : FormData) (name : JsString) (f : File.t) : FormData :=
  fd ++ [(name, FormFile f)].

Definition hasField (fd : FormData) (name : JsString) : bool :=
  existsb (fun entry => eqb (fst entry) name) fd.

(** The body of a request: a form, or what [JSON.stringify] returned. *)
Inductive RequestBody :=
| FormBody (fd : FormData)
| JsonBody (text : option JsString).

Module Request.
Record t := {
  url : JsString;
  method : JsString;
  headers : list (JsString * JsString);
  body : RequestBody }.
End Request.

(** A response body as the reader delivers it: the chunks of successive
    [read()] calls, then [done], or a rejected [read()]. *)
Module Stream.
Record t := { chunks : list (list Byte.byte); failure : option Thrown }.
End Stream.

Module Response.
Record t := {
  ok : bool;
  text : Thrown + JsString;           (* what [response.text()] settles to *)
  json : Thrown + JsValue;            (* what [response.json()] settles to *)
  contentType : option JsString;      (* [headers.get("content-type")] *)
  body : option Stream.t }.           (* [response.body] *)
End Response.

Inductive FetchOutcome :=
| Rejected (e : Thrown)
| Resolved (response : Response.t).

(** How a piece of code ends: normally, or by throwing; with the state it
    leaves in both cases. *)
Inductive Flow (S : Type) :=
| Next (s : S)
| Raise (e : Thrown) (s : S).
Arguments Next {S} s.
Arguments Raise {S} e s.

(** ** The component's data *)

Inductive Role := user | assistant.

Module UiMessage.
Record t := { id : JsString; role : Role; text : JsValue; data : JsValue }.
End UiMessage.

(** [Partial<UiMessage>] as the patches of this file use it. *)
Module Patch.
Record t := { text : option JsValue; data : option JsValue }.
End Patch.

Module EditableReceipt.
Record t := {
  id : JsString;
  vendor_name : JsString;
  receipt_number : JsString;
  payment_method : JsString;
  status : JsString;
  currency : JsString;
  issue_date : JsString;
  subtotal : JsString;
  tax : JsString;
  total : JsString }.
End EditableReceipt.

(** The [useState] cells of [ChatPanel]. *)
Record State := {
  conversationId : JsValue;
  input : JsString;
  file : option File.t;
  messages : list UiMessage.t;
  loading : bool;
  editReceiptId : JsString;
  editableReceipt : option EditableReceipt.t;
  editorLoading : bool;
  editorMessage : JsString }.

Definition initialState : State :=
  {| conversationId := JString []; input := []; file := None; messages := [];
     loading := false; editReceiptId := []; editableReceipt := None;
     editorLoading := false; editorMessage := [] |}.

Definition setConversationId (v : JsValue) (st : State) : State :=
  {| conversationId := v; input := input st; file := file st;
     messages := messages st; loading := loading st;
     editReceiptId := editReceiptId st; editableReceipt := editableReceipt st;
     editorLoading := editorLoading st; editorMessage := editorMessage st |}.

Definition setInput (v : JsString) (st : State) : State :=
  {| conversationId := conversationId st; input := v; file := file st;
     messages := messages st; loading := loading st;
     editReceiptId := editReceiptId st; editableReceipt := editableReceipt st;
     editorLoading := editorLoading st; editorMessage := editorMessage st |}.

Definition setFile (v : option File.t) (st : State) : State :=
  {| conversationId := conversationId st; input := input st; file := v;
     messages := messages st; loading := loading st;
     editReceiptId := editReceiptId st; editableReceipt := editableReceipt st;
     editorLoading := editorLoading st; editorMessage := editorMessage st |}.

Definition setMessages (f : list UiMessage.t -> list UiMessage.t) (st : State) : State :=
  {| conversationId := conversationId st; input := input st; file := file st;
     messages := f (messages st); loading := loading st;
     editReceiptId := editReceiptId st; editableReceipt := editableReceipt st;
     editorLoading := editorLoading st; editorMessage := editorMessage st |}.

Definition setLoading (v : bool) (st : State) : State :=
  {| conversationId := conversationId st; input := input st; file := file st;
     messages := messages st; loading := v;
     editReceiptId := editReceiptId st; editableReceipt := editableReceipt st;
     editorLoading := editorLoading st; editorMessage := editorMessage st |}.

Definition setEditableReceipt (v : option EditableReceipt.t) (st : State) : State :=
  {| conversationId := conversationId st; input := input st; file := file st;
     messages := messages st; loading := loading st;
     editReceiptId := editReceiptId st; editableReceipt := v;
     editorLoading := editorLoading st; editorMessage := editorMessage st |}.

Definition setEditorLoading (v : bool) (st : State) : State :=
  {| conversationId := conversationId st; input := input st; file := file st;
     messages := messages st; loading := loading st;
     editReceiptId := editReceiptId st; editableReceipt := editableReceipt st;
     editorLoading := v; editorMessage := editorMessage st |}.

Definition setEditorMessage (v : JsString) (st : State) : State :=
  {| conversationId := conversationId st; input := input st; file := file st;
     messages := messages st; loading := loading st;
     editReceiptId := editReceiptId st; editableReceipt := editableReceipt st;
     editorLoading := editorLoading st; editorMessage := v |}.

(** ** The helpers of the module *)

Section Helpers.
Context {P : Platform}.

Definition parseJson (value : JsString) : JsValue :=
  match JSON_parse value with
  | Some v => v
  | None => JNull
  end.

Definition parseApiError (raw : JsString) : JsValue :=
  let parsed := parseJson raw in
  let message := member (member parsed (lit "error")) (lit "message") in
  if truthy message then message else JString raw.

End Helpers.

Module Parsed.
Record t := { event : JsString; data : JsString }.
End Parsed.

(** The body of the [for] loop of [parseSseBlock], on the pair of its two
    variables. *)
Definition sseLine (acc : JsString * list JsString) (rawLine : JsString)
  : JsString * list JsString :=
  let (event, dataLines) := acc in
  let line := trimEnd rawLine in
  if isEmpty line then acc
  else if startsWith (lit "event:") line then (trim (slice 6 line), dataLines)
  else if startsWith (lit "data:") line then
    (event, dataLines ++ [trimStart (slice 5 line)])
  else acc.

Definition parseSseBlock (block : JsString) : option Parsed.t :=
  let lines := split [LF] block in
  let (event, dataLines) := fold_left sseLine lines (lit "message", []) in
  if Nat.eqb (length dataLines) 0 then None
  else Some {| Parsed.event := event; Parsed.data := join [LF] dataLines |}.

(** [a] and then [b], where [a] can throw. *)
Notation "x <- a ;; b" :=
  (match a with Some x => b | None => None end)
  (at level 61, a at next level, right associativity).

(** [String(data.key ?? default)]. *)
Definition stringField (data : JsValue) (key default : JsString) : option JsString :=
  ToString (nullish (member data key) (JString default)).

(** [data.key != null ? String(data.key) : ""]. *)
Definition amountField (data : JsValue) (key : JsString) : option JsString :=
  match member data key with
  | JUndefined | JNull => Some []
  | v => ToString v
  end.

(** [toEditableReceipt(data)]; [None] when one of its conversions throws
    a TypeError. *)
Definition toEditableReceipt (data : JsValue) : option EditableReceipt.t :=
  id <- stringField data (lit "id") [] ;;
  vendor_name <- stringField data (lit "vendor_name") [] ;;
  receipt_number <- stringField data (lit "receipt_number") [] ;;
  payment_method <- stringField data (lit "payment_method") [] ;;
  status <- stringField data (lit "status") (lit "processed") ;;
  currency <- stringField data (lit "currency") (lit "PEN") ;;
  issue_date <- stringField data (lit "issue_date") [] ;;
  subtotal <- amountField data (lit "subtotal") ;;
  tax <- amountField data (lit "tax") ;;
  total <- amountField data (lit "total") ;;
  Some {| EditableReceipt.id := id;
          EditableReceipt.vendor_name := vendor_name;
          EditableReceipt.receipt_number := receipt_number;
          EditableReceipt.payment_method := payment_method;
          EditableReceipt.status := status;
          EditableReceipt.currency := currency;
          EditableReceipt.issue_date := issue_date;
          EditableReceipt.subtotal := subtotal;
          EditableReceipt.tax := tax;
          EditableReceipt.total := total |}.

(** ** The state updates of [ChatPanel] *)

Definition appendMessage (message : UiMessage.t) (st : State) : State :=
  setMessages (fun prev => prev ++ [message]) st.

Definition applyPatch (patch : Patch.t) (msg : UiMessage.t) : UiMessage.t :=
  {| UiMessage.id := UiMessage.id msg;
     UiMessage.role := UiMessage.role msg;
     UiMessage.text :=
       match Patch.text patch with Some v => v | None => UiMessage.text msg end;
     UiMessage.data :=
       match Patch.data patch with Some v => v | None => UiMessage.data msg end |}.

Definition patchMessage (id : JsString) (patch : Patch.t) (st : State) : State :=
  setMessages
    (map (fun msg => if eqb (UiMessage.id msg) id then applyPatch patch msg else msg))
    st.

(** The template literal of [appendMessageText] is evaluated by the
    updater that React runs: where one of its two conversions throws, so
    does the updater, and the message is not rewritten. *)
Definition appendMessageText (id : JsString) (textToAppend : JsValue) (st : State) : State :=
  setMessages
    (map (fun msg =>
            if eqb (UiMessage.id msg) id
            then match ToString (UiMessage.text msg), ToString textToAppend with
                 | Some text, Some appended =>
                     {| UiMessage.id := UiMessage.id msg;
                        UiMessage.role := UiMessage.role msg;
                        UiMessage.text := JString (text ++ appended);
                        UiMessage.data := UiMessage.data msg |}
                 | _, _ => msg
                 end
            else msg))
    st.

Definition textPatch (s : string) : Patch.t :=
  {| Patch.text := Some (JString (lit s)); Patch.data := None |}.

(** ** Reading the event stream *)

(** The variables of [sendMessageStreaming] that its loop updates, next to
    the component's state. *)
Module Loop.
Record t := { hasDelta : bool; gotFinal : bool; ui : State }.
End Loop.

Section ReadLoop.
Variable S : Type.
Variable handle : JsString -> S -> Flow S.

(** [for (const block of blocks) { ... }]. *)
Fixpoint forBlocks (blocks : list JsString) (s : S) : Flow S :=
  match blocks with
  | [] => Next s
  | block :: rest =>
      match handle block s with
      | Next s' => forBlocks rest s'
      | Raise e s' => Raise e s'
      end
  end.

(** [while (true) { ... }]: one round per [reader.read()]. *)
Fixpoint readLoop (reads : list (list Byte.byte)) (failure : option Thrown)
  (decoder : Utf8.State) (buffer : JsString) (s : S) : Flow S :=
  match reads with
  | [] =>
      match failure with
      | None => Next s
      | Some e => Raise e s
      end
  | value :: later =>
      let (decoder', decoded) := Utf8.decode decoder value in
      let buffer1 := buffer ++ decoded in
      let blocks := split [LF; LF] buffer1 in
      let buffer2 := last blocks [] in
      match forBlocks (removelast blocks) s with
      | Next s' => readLoop later failure decoder' buffer2 s'
      | Raise e s' => Raise e s'
      end
  end.

End ReadLoop.

Arguments forBlocks {S} handle blocks s.
Arguments readLoop {S} handle reads failure decoder buffer s.

Section ChatPanel.
Context {P : Platform}.

(** What the loop does with a parsed block. *)
Definition handleEvent (assistantId : JsString) (parsed : Parsed.t) (l : Loop.t)
  : Flow Loop.t :=
  let st := Loop.ui l in
  if eqb (Parsed.event parsed) (lit "start") then
    Next {| Loop.hasDelta := Loop.hasDelta l; Loop.gotFinal := Loop.gotFinal l;
            Loop.ui := patchMessage assistantId (textPatch "Procesando...") st |}
  else if eqb (Parsed.event parsed) (lit "delta") then
    let delta := parseJson (Parsed.data parsed) in
    let piece := nullish (member delta (lit "content")) (JString []) in
    if negb (truthy piece) then Next l
    else
      let st1 :=
        if Loop.hasDelta l then st
        else patchMessage assistantId
               {| Patch.text := Some (JString []); Patch.data := None |} st in
      Next {| Loop.hasDelta := true; Loop.gotFinal := Loop.gotFinal l;
              Loop.ui := appendMessageText assistantId piece st1 |}
  else if eqb (Parsed.event parsed) (lit "error") then
    let streamError := parseJson (Parsed.data parsed) in
    let message :=
      nullish (member streamError (lit "message")) (JString (lit "Error en streaming")) in
    Raise (newError message) l
  else if eqb (Parsed.event parsed) (lit "final") then
    let payload := parseJson (Parsed.data parsed) in
    if negb (truthy payload) then
      Raise (ErrorObj (lit "No se pudo leer respuesta final del stream")) l
    else
      Next {| Loop.hasDelta := Loop.hasDelta l; Loop.gotFinal := true;
              Loop.ui :=
                patchMessage assistantId
                  {| Patch.text := Some (member payload (lit "assistant_message"));
                     Patch.data := Some (member payload (lit "data")) |}
                  (setConversationId (member payload (lit "conversation_id")) st) |}
  else Next l.

(** The body of [for (const block of blocks)]. *)
Definition handleBlock (assistantId : JsString) (block : JsString) (l : Loop.t)
  : Flow Loop.t :=
  match parseSseBlock block with
  | None => Next l
  | Some parsed => handleEvent assistantId parsed l
  end.

(** The loop of [sendMessageStreaming] from its first [read()], on the
    reads [reads] and then [failure] or [done]. *)
Definition consume (assistantId : JsString) (reads : list (list Byte.byte))
  (failure : option Thrown) (st : State) : Flow Loop.t :=
  readLoop (handleBlock assistantId) reads failure Utf8.init []
    {| Loop.hasDelta := false; Loop.gotFinal := false; Loop.ui := st |}.

Definition streamRequest (formData : FormData) : Request.t :=
  {| Request.url := apiBase ++ lit "/api/v1/chat/message/stream";
     Request.method := lit "POST";
     Request.headers := [(lit "Accept", lit "text/event-stream")];
     Request.body := FormBody formData |}.

Definition sendMessageStreaming (fetch : Request.t -> FetchOutcome)
  (formData : FormData) (assistantId : JsString) (st : State)
  : Flow State * list Request.t :=
  let request := streamRequest formData in
  (match fetch request with
   | Rejected e => Raise e st
   | Resolved response =>
       if negb (Response.ok response) then
         match Response.text response with
         | inl e => Raise e st
         | inr detail =>
             Raise (newError (orElse (parseApiError detail)
                                     (JString (lit "Error enviando mensaje")))) st
         end
       else
         match Response.body response with
         | None => Raise (ErrorObj (lit "El servidor no devolvio stream")) st
         | Some stream =>
             let contentType :=
               match Response.contentType response with
               | Some c => c
               | None => []
               end in
             if negb (includes (lit "text/event-stream") contentType) then
               Raise (ErrorObj (lit "Respuesta inesperada del servidor (sin SSE)")) st
             else
               match consume assistantId (Stream.chunks stream)
                       (Stream.failure stream) st with
               | Raise e l => Raise e (Loop.ui l)
               | Next l =>
                   if negb (Loop.gotFinal l) then
                     Raise (ErrorObj (lit "El stream finalizo sin evento final"))
                           (Loop.ui l)
                   else Next (Loop.ui l)
               end
         end
   end, [request]).

(** [sendMessage], given the two identifiers that [crypto.randomUUID()]
    returns: the state it leaves and the requests it has issued. *)
Definition sendMessage (fetch : Request.t -> FetchOutcome)
  (userId assistantId : JsString) (st : State) : State * list Request.t :=
  if loading st then (st, [])
  else
    let text := trim (input st) in
    if isEmpty text && match file st with None => true | Some _ => false end
    then (st, [])
    else
      let st1 :=
        appendMessage
          {| UiMessage.id := userId; UiMessage.role := user;
             UiMessage.text :=
               JString
                 match file st with
                 | Some f =>
                     (if isEmpty text then lit "Archivo enviado" else text)
                       ++ lit " (" ++ File.name f ++ lit ")"
                 | None => text
                 end;
             UiMessage.data := JUndefined |} st in
      let st2 :=
        appendMessage
          {| UiMessage.id := assistantId; UiMessage.role := assistant;
             UiMessage.text := JString (lit "Procesando...");
             UiMessage.data := JUndefined |} st1 in
      let fd0 : FormData := [] in
      let fd1 :=
        if truthy (conversationId st)
        then appendText fd0 (lit "conversation_id") (conversationId st) else fd0 in
      let fd2 :=
        if negb (isEmpty text) then appendText fd1 (lit "message") (JString text)
        else fd1 in
      let formData :=
        match file st with
        | Some f => appendFile fd2 (lit "file") f
        | None => fd2
        end in
      let st3 := setLoading true (setFile None (setInput [] st2)) in
      let (outcome, requests) := sendMessageStreaming fetch formData assistantId st3 in
      let st4 :=
        match outcome with
        | Next s => s
        | Raise error s =>
            patchMessage assistantId
              {| Patch.text :=
                   Some (JString (lit "Error: " ++
                                  match error with
                                  | ErrorObj message => message
                                  | NonError => lit "No se pudo completar la solicitud"
                                  end));
                 Patch.data := Some JUndefined |} s
        end in
      (setLoading false st4, requests).

(** The object that [saveManualCorrection] serialises. *)
Definition correctionPayload (r : EditableReceipt.t) : list (JsString * JsValue) :=
  let orNull (s : JsString) := if isEmpty s then JNull else JString s in
  let payload0 :=
    [(lit "vendor_name", orNull (EditableReceipt.vendor_name r));
     (lit "receipt_number", orNull (EditableReceipt.receipt_number r));
     (lit "payment_method", orNull (EditableReceipt.payment_method r));
     (lit "status", orNull (EditableReceipt.status r));
     (lit "currency", orNull (EditableReceipt.currency r));
     (lit "issue_date", orNull (EditableReceipt.issue_date r))] in
  let payload1 :=
    if negb (isEmpty (EditableReceipt.subtotal r))
    then objSet payload0 (lit "subtotal") (StringToNumber (EditableReceipt.subtotal r))
    else payload0 in
  let payload2 :=
    if negb (isEmpty (EditableReceipt.tax r))
    then objSet payload1 (lit "tax") (StringToNumber (EditableReceipt.tax r))
    else payload1 in
  if negb (isEmpty (EditableReceipt.total r))
  then objSet payload2 (lit "total") (StringToNumber (EditableReceipt.total r))
  else payload2.

Definition correctionRequest (r : EditableReceipt.t) : Request.t :=
  {| Request.url := apiBase ++ lit "/api/v1/receipts/" ++ EditableReceipt.id r;
     Request.method := lit "PATCH";
     Request.headers := [(lit "Content-Type", lit "application/json")];
     Request.body := JsonBody (stringify (JObject (correctionPayload r))) |}.

(** [saveManualCorrection], given the identifier that
    [crypto.randomUUID()] returns. *)
Definition saveManualCorrection (fetch : Request.t -> FetchOutcome)
  (messageId : JsString) (st : State) : State * list Request.t :=
  match editableReceipt st with
  | None =>
      (setEditorMessage (lit "No hay comprobante cargado para editar.") st, [])
  | Some r =>
      let st1 := setEditorMessage (lit "Guardando cambios...") (setEditorLoading true st) in
      let request := correctionRequest r in
      let tried : Flow State :=
        match fetch request with
        | Rejected e => Raise e st1
        | Resolved response =>
            if negb (Response.ok response) then
              match Response.text response with
              | inl e => Raise e st1
              | inr detail => Raise (newError (parseApiError detail)) st1
              end
            else
              match Response.json response with
              | inl e => Raise e st1
              | inr JUndefined | inr JNull => Raise (ErrorObj nullReadMessage) st1
              | inr updated =>
                  match toEditableReceipt updated with
                  | None => Raise (ErrorObj toPrimitiveMessage) st1
                  | Some mapped =>
                      Next (appendMessage
                              {| UiMessage.id := messageId; UiMessage.role := assistant;
                                 UiMessage.text :=
                                   JString (lit "Correccion manual aplicada al comprobante "
                                            ++ EditableReceipt.id mapped ++ lit ".");
                                 UiMessage.data := updated |}
                              (setEditorMessage
                                 (lit "Correccion manual guardada correctamente.")
                                 (setEditableReceipt (Some mapped) st1)))
                  end
              end
        end in
      let st2 :=
        match tried with
        | Next s => s
        | Raise error s =>
            setEditorMessage
              (lit "Error al guardar: " ++
               match error with
               | ErrorObj message => message
               | NonError => lit "desconocido"
               end) s
        end in
      (setEditorLoading false st2, [request])
  end.

End ChatPanel.

(** ** Facts about strings *)

Module JsFacts.

Lemma eqb_eq (a b : JsString) : eqb a b = true <-> a = b.
Proof.
  revert b; induction a as [|x a IH]; intros [|y b]; simpl; split;
    try congruence; try reflexivity.
  - intros H. apply andb_prop in H as [Hx Hab].
    apply N.eqb_eq in Hx. apply IH in Hab. congruence.
  - intros H. injection H as -> ->. rewrite N.eqb_refl. now apply IH.
Qed.

Lemma eqb_refl (a : JsString) : eqb a a = true.
Proof. now apply eqb_eq. Qed.

Lemma startsWith_app_r (p s t : JsString) :
  startsWith p s = true -> startsWith p (s ++ t) = true.
Proof.
  intros H. destruct (startsWith_app _ _ H) as [r ->].
  rewrite <- app_assoc. apply startsWith_app_l.
Qed.

Lemma startsWith_app_inv (p s t : JsString) :
  startsWith p (s ++ t) = true -> length p <= length s -> startsWith p s = true.
Proof.
  revert s; induction p as [|x p IH]; intros s H L; [reflexivity|].
  destruct s as [|y s]; simpl in *; [lia|].
  apply andb_prop in H as [-> H]. simpl. apply IH; [assumption|lia].
Qed.

(** An occurrence of the separator found in [s] is the one found in any
    extension of [s]. *)
Lemma breakOn_app (sep s t b a : JsString) :
  breakOn sep s = Some (b, a) -> breakOn sep (s ++ t) = Some (b, a ++ t).
Proof.
  revert b a; induction s as [|c s IH]; intros b a H.
  - simpl in H. destruct (startsWith sep []) eqn:E; [|discriminate].
    injection H as <- <-. destruct sep; [|discriminate].
    simpl. destruct t; reflexivity.
  - simpl in H. destruct (startsWith sep (c :: s)) eqn:E.
    + injection H as <- <-. change ((c :: s) ++ t) with (c :: (s ++ t)) at 1.
      cbn [breakOn]. change (c :: s ++ t) with ((c :: s) ++ t).
      rewrite (startsWith_app_r _ _ t E).
      destruct (startsWith_app _ _ E) as [r Hr]. rewrite Hr.
      rewrite <- app_assoc.
      rewrite !skipn_app, !skipn_all, !Nat.sub_diag. reflexivity.
    + destruct (breakOn sep s) as [[b' a']|] eqn:Eb; [|discriminate].
      injection H as <- <-.
      pose proof (breakOn_shape _ _ _ _ Eb) as Hs.
      change ((c :: s) ++ t) with (c :: (s ++ t)). cbn [breakOn].
      destruct (startsWith sep (c :: s ++ t)) eqn:E2.
      * exfalso. change (c :: s ++ t) with ((c :: s) ++ t) in E2.
        apply startsWith_app_inv in E2; [congruence|].
        rewrite Hs. simpl. rewrite !length_app. lia.
      * rewrite (IH _ _ eq_refl). reflexivity.
Qed.

Lemma split_some (c0 : N) (sep s b a : JsString) :
  breakOn (c0 :: sep) s = Some (b, a) ->
  split (c0 :: sep) s = b :: split (c0 :: sep) a.
Proof.
  intros H. rewrite split_equation_2.
  destruct (inspect (breakOn (c0 :: sep) s)) as [[[b' a']|] E]; simpl.
  - rewrite H in E. injection E as <- <-. reflexivity.
  - congruence.
Qed.

Lemma split_none (c0 : N) (sep s : JsString) :
  breakOn (c0 :: sep) s = None -> split (c0 :: sep) s = [s].
Proof.
  intros H. rewrite split_equation_2.
  destruct (inspect (breakOn (c0 :: sep) s)) as [[[b' a']|] E]; simpl.
  - congruence.
  - reflexivity.
Qed.

Lemma split_not_nil (c0 : N) (sep s : JsString) : split (c0 :: sep) s <> [].
Proof.
  destruct (breakOn (c0 :: sep) s) as [[b a]|] eqn:E.
  - rewrite (split_some _ _ _ _ _ E). discriminate.
  - rewrite (split_none _ _ _ E). discriminate.
Qed.

Lemma last_app_r (A : Type) (l1 l2 : list A) (d : A) :
  l2 <> [] -> last (l1 ++ l2) d = last l2 d.
Proof.
  intros H. induction l1 as [|x l1 IH]; [reflexivity|].
  simpl. destruct (l1 ++ l2) eqn:E; [|assumption].
  apply app_eq_nil in E as [_ ->]. contradiction.
Qed.

(** Splitting an extended string: the pieces closed in [s] stay, and the
    open piece is split again with what was added. *)
Lemma split_app (c0 : N) (sep s t : JsString) :
  split (c0 :: sep) (s ++ t) =
  removelast (split (c0 :: sep) s)
    ++ split (c0 :: sep) (last (split (c0 :: sep) s) [] ++ t).
Proof.
  remember (length s) as n eqn:Hn. revert s Hn.
  induction n as [n IH] using lt_wf_ind. intros s ->.
  destruct (breakOn (c0 :: sep) s) as [[b a]|] eqn:E.
  - rewrite (split_some _ _ _ _ _ E), (split_some _ _ _ _ _ (breakOn_app _ _ t _ _ E)).
    pose proof (split_not_nil c0 sep a) as Hne.
    rewrite (IH (length a) (breakOn_length _ _ _ _ _ E) a eq_refl).
    change (b :: split (c0 :: sep) a) with ([b] ++ split (c0 :: sep) a).
    rewrite removelast_app, last_app_r by assumption. reflexivity.
  - rewrite (split_none _ _ _ E). reflexivity.
Qed.

Lemma breakOn_last_split (c0 : N) (sep s : JsString) :
  breakOn (c0 :: sep) (last (split (c0 :: sep) s) []) = None.
Proof.
  remember (length s) as n eqn:Hn. revert s Hn.
  induction n as [n IH] using lt_wf_ind. intros s ->.
  destruct (breakOn (c0 :: sep) s) as [[b a]|] eqn:E.
  - rewrite (split_some _ _ _ _ _ E).
    change (b :: split (c0 :: sep) a) with ([b] ++ split (c0 :: sep) a).
    rewrite last_app_r by apply split_not_nil.
    exact (IH (length a) (breakOn_length _ _ _ _ _ E) a eq_refl).
  - rewrite (split_none _ _ _ E). exact E.
Qed.

End JsFacts.

(** ** The block parser against its description *)

(** [parseSseBlock] in the words of its description: the data lines are
    the lines that start with [data:], each stripped of that prefix and
    then by [strip]; the event name comes from the last line that starts
    with [event:]. *)
Definition describedSseBlock (strip : JsString -> JsString) (block : JsString)
  : option Parsed.t :=
  let lines := split [LF] block in
  let dataLines := filter (startsWith (lit "data:")) lines in
  let eventLines := filter (startsWith (lit "event:")) lines in
  match dataLines with
  | [] => None
  | _ =>
      Some {| Parsed.event :=
                match rev eventLines with
                | [] => lit "message"
                | line :: _ => trim (slice 6 line)
                end;
              Parsed.data :=
                join [LF] (map (fun line => strip (slice 5 line)) dataLines) |}
  end.

Module TrimFacts.

Lemma trimStart_app (a b : JsString) :
  trimStart (a ++ b) =
  if forallb isWhiteSpace a then trimStart b else trimStart a ++ b.
Proof.
  induction a as [|c a IH]; [reflexivity|].
  simpl. destruct (isWhiteSpace c); [exact IH|reflexivity].
Qed.

Lemma trimStart_all_ws (a : JsString) :
  forallb isWhiteSpace a = true -> trimStart a = [].
Proof.
  induction a as [|c a IH]; [reflexivity|].
  simpl. destruct (isWhiteSpace c); [exact IH|discriminate].
Qed.

Lemma trimStart_idem (s : JsString) : trimStart (trimStart s) = trimStart s.
Proof.
  induction s as [|c s IH]; [reflexivity|].
  simpl. destruct (isWhiteSpace c) eqn:E; [exact IH|].
  simpl. now rewrite E.
Qed.

Lemma trimStart_suffix (s : JsString) : exists w, s = w ++ trimStart s.
Proof.
  induction s as [|c s [w IH]]; [now exists []|].
  simpl. destruct (isWhiteSpace c).
  - exists (c :: w). simpl. now f_equal.
  - now exists [].
Qed.

Lemma trimEnd_prefix (s : JsString) : exists w, s = trimEnd s ++ w.
Proof.
  destruct (trimStart_suffix (rev s)) as [w Hw].
  exists (rev w). unfold trimEnd. rewrite <- rev_app_distr, <- Hw.
  now rewrite rev_involutive.
Qed.

Lemma trimEnd_idem (s : JsString) : trimEnd (trimEnd s) = trimEnd s.
Proof.
  unfold trimEnd. now rewrite rev_involutive, trimStart_idem.
Qed.

(** Trailing white space is looked for after a prefix that does not end
    in white space. *)
Lemma trimEnd_app (p r : JsString) :
  trimEnd p = p -> trimEnd (p ++ r) = p ++ trimEnd r.
Proof.
  intros Hp. unfold trimEnd at 1. rewrite rev_app_distr, trimStart_app.
  destruct (forallb isWhiteSpace (rev r)) eqn:E.
  - fold (trimEnd p). rewrite Hp. unfold trimEnd.
    rewrite (trimStart_all_ws _ E). simpl. now rewrite app_nil_r.
  - rewrite rev_app_distr, rev_involutive. reflexivity.
Qed.

Lemma startsWith_trimEnd (p s : JsString) :
  trimEnd p = p -> startsWith p (trimEnd s) = startsWith p s.
Proof.
  intros Hp. destruct (startsWith p s) eqn:E.
  - destruct (startsWith_app _ _ E) as [r ->].
    rewrite (trimEnd_app _ _ Hp). apply startsWith_app_l.
  - destruct (startsWith p (trimEnd s)) eqn:E'; [|reflexivity].
    destruct (trimEnd_prefix s) as [w Hw].
    apply (JsFacts.startsWith_app_r _ _ w) in E'. rewrite <- Hw in E'. congruence.
Qed.

(** What is left of a line after a prefix, once the line has lost its
    trailing white space. *)
Lemma slice_trimEnd (p s : JsString) :
  trimEnd p = p -> startsWith p s = true ->
  slice (length p) (trimEnd s) = trimEnd (slice (length p) s).
Proof.
  intros Hp E. destruct (startsWith_app _ _ E) as [r ->].
  rewrite (trimEnd_app _ _ Hp). unfold slice.
  now rewrite !skipn_app, !skipn_all, !Nat.sub_diag.
Qed.

End TrimFacts.

Module SseFacts.
Import TrimFacts.

Definition eventStep (event line : JsString) : JsString :=
  if startsWith (lit "event:") line then trim (slice 6 line) else event.

Lemma event_not_data (s : JsString) :
  startsWith (lit "event:") s = true -> startsWith (lit "data:") s = false.
Proof.
  destruct s as [|c s]; [discriminate|]. intros H.
  change (lit "event:") with (101%N :: lit "vent:") in H.
  cbn [startsWith] in H. apply andb_prop in H as [H _].
  apply N.eqb_eq in H. subst c. reflexivity.
Qed.

(** One round of the loop of [parseSseBlock], read on the raw line. *)
Lemma sseLine_raw (event : JsString) (dataLines : list JsString) (rawLine : JsString) :
  sseLine (event, dataLines) rawLine =
  (eventStep event rawLine,
   dataLines ++ if startsWith (lit "data:") rawLine
                then [trim (slice 5 rawLine)] else []).
Proof.
  unfold sseLine, eventStep.
  assert (He : trimEnd (lit "event:") = lit "event:") by reflexivity.
  assert (Hd : trimEnd (lit "data:") = lit "data:") by reflexivity.
  rewrite (startsWith_trimEnd _ rawLine He), (startsWith_trimEnd _ rawLine Hd).
  destruct (isEmpty (trimEnd rawLine)) eqn:Eempty.
  - assert (Hnil : trimEnd rawLine = []) by (destruct (trimEnd rawLine); [reflexivity|discriminate]).
    rewrite <- (startsWith_trimEnd _ rawLine He), <- (startsWith_trimEnd _ rawLine Hd), Hnil.
    cbn. now rewrite app_nil_r.
  - destruct (startsWith (lit "event:") rawLine) eqn:Ee.
    + rewrite (event_not_data _ Ee), app_nil_r.
      change 6 with (length (lit "event:")).
      rewrite (slice_trimEnd _ _ He Ee). unfold trim at 1.
      now rewrite trimEnd_idem.
    + destruct (startsWith (lit "data:") rawLine) eqn:Ed.
      * change 5 with (length (lit "data:")).
        rewrite (slice_trimEnd _ _ Hd Ed). reflexivity.
      * now rewrite app_nil_r.
Qed.

Lemma sseLine_fold (lines : list JsString) (event : JsString) (dataLines : list JsString) :
  fold_left sseLine lines (event, dataLines) =
  (fold_left eventStep lines event,
   dataLines ++ map (fun line => trim (slice 5 line))
                    (filter (startsWith (lit "data:")) lines)).
Proof.
  revert event dataLines; induction lines as [|l lines IH]; intros event dataLines.
  - simpl. now rewrite app_nil_r.
  - cbn [fold_left filter]. rewrite sseLine_raw, IH.
    destruct (startsWith (lit "data:") l); cbn [map].
    + now rewrite <- app_assoc.
    + now rewrite app_nil_r.
Qed.

Lemma eventStep_fold (lines : list JsString) (event : JsString) :
  fold_left eventStep lines event =
  match rev (filter (startsWith (lit "event:")) lines) with
  | [] => event
  | line :: _ => trim (slice 6 line)
  end.
Proof.
  revert event; induction lines as [|l lines IH]; intros event; [reflexivity|].
  cbn [fold_left filter]. rewrite IH. unfold eventStep.
  destruct (startsWith (lit "event:") l); [|reflexivity].
  cbn [rev]. destruct (rev (filter (startsWith (lit "event:")) lines)); reflexivity.
Qed.

End SseFacts.

(** C10, as amended.  [parseSseBlock] returns null exactly when no line of
    the block starts with [data:]; otherwise the event name is taken from
    the last line starting with [event:], trimmed, [message] when there
    is none, and the data is each data line without its [data:] prefix
    and without its leading and trailing white space, joined by newlines
    in order. *)
Theorem parseSseBlock_described (block : JsString) :
  parseSseBlock block = describedSseBlock trim block
  /\ (parseSseBlock block = None <->
      filter (startsWith (lit "data:")) (split [LF] block) = []).
Proof.
  assert (H : parseSseBlock block = describedSseBlock trim block).
  { unfold parseSseBlock, describedSseBlock.
    rewrite SseFacts.sseLine_fold, SseFacts.eventStep_fold. cbn [app].
    destruct (filter (startsWith (lit "data:")) (split [LF] block)); reflexivity. }
  split; [exact H|]. rewrite H. unfold describedSseBlock.
  destruct (filter (startsWith (lit "data:")) (split [LF] block));
    split; intros; [reflexivity|reflexivity|discriminate|discriminate].
Qed.

(** C10, as stated, fails on a data line that ends in white space: the
    code drops the trailing space that the description keeps. *)
Lemma parseSseBlock_drops_trailing_space :
  parseSseBlock (lit "data: x ") =
    Some {| Parsed.event := lit "message"; Parsed.data := lit "x" |}
  /\ describedSseBlock trimStart (lit "data: x ") =
    Some {| Parsed.event := lit "message"; Parsed.data := lit "x " |}
  /\ parseSseBlock (lit "data: x ") <> describedSseBlock trimStart (lit "data: x ").
Proof.
  split; [reflexivity|]. split; [reflexivity|].
  vm_compute. discriminate.
Qed.

(** ** The read loop as a function of the text received *)

(** The blocks that a text closes, and the open block it ends with. *)
Definition blocksOf (text : JsString) : list JsString :=
  removelast (split [LF; LF] text).

Definition restOf (text : JsString) : JsString :=
  last (split [LF; LF] text) [].

(** The text that the decoder has produced after the given reads. *)
Fixpoint decodeReads (decoder : Utf8.State) (reads : list (list Byte.byte))
  : Utf8.State * JsString :=
  match reads with
  | [] => (decoder, [])
  | value :: later =>
      let (decoder1, out1) := Utf8.decode decoder value in
      let (decoder2, out2) := decodeReads decoder1 later in
      (decoder2, out1 ++ out2)
  end.

Definition textOf (reads : list (list Byte.byte)) : JsString :=
  snd (decodeReads Utf8.init reads).

Definition parsedBlock (block : JsString) : list Parsed.t :=
  match parseSseBlock block with
  | Some parsed => [parsed]
  | None => []
  end.

(** The events that a text carries: its closed blocks that parse. *)
Definition sseEvents (text : JsString) : list Parsed.t :=
  flat_map parsedBlock (blocksOf text).

Definition eventsOf (reads : list (list Byte.byte)) : list Parsed.t :=
  sseEvents (textOf reads).

(** The read loop with a body that only records what [parseSseBlock]
    returns: the sequence of events that the loop parses. *)
Definition recordParsed (block : JsString) (log : list Parsed.t)
  : Flow (list Parsed.t) :=
  Next (log ++ parsedBlock block).

Definition parsedByLoop (reads : list (list Byte.byte)) (failure : option Thrown)
  : Flow (list Parsed.t) :=
  readLoop recordParsed reads failure Utf8.init [] [].

Section ForEvents.
Variable S : Type.
Variable handle : Parsed.t -> S -> Flow S.

Fixpoint forEvents (events : list Parsed.t) (s : S) : Flow S :=
  match events with
  | [] => Next s
  | parsed :: rest =>
      match handle parsed s with
      | Next s' => forEvents rest s'
      | Raise e s' => Raise e s'
      end
  end.

End ForEvents.

Arguments forEvents {S} handle events s.

(** What follows the loop once the reader is exhausted. *)
Definition ending {S : Type} (failure : option Thrown) (flow : Flow S) : Flow S :=
  match flow with
  | Next s =>
      match failure with
      | None => Next s
      | Some e => Raise e s
      end
  | Raise e s => Raise e s
  end.

Module StreamFacts.

Lemma decode_app (d : Utf8.State) (a b : list Byte.byte) :
  Utf8.decode d (a ++ b) =
  let (d1, o1) := Utf8.decode d a in
  let (d2, o2) := Utf8.decode d1 b in
  (d2, o1 ++ o2).
Proof.
  revert d; induction a as [|x a IH]; intros d.
  - simpl. now destruct (Utf8.decode d b).
  - simpl. destruct (Utf8.step d x) as [d1 o1]. rewrite IH.
    destruct (Utf8.decode d1 a) as [d2 o2].
    destruct (Utf8.decode d2 b) as [d3 o3]. now rewrite app_assoc.
Qed.

(** The decoder does not see where one read ends and the next begins. *)
Lemma decodeReads_concat (d : Utf8.State) (reads : list (list Byte.byte)) :
  decodeReads d reads = Utf8.decode d (concat reads).
Proof.
  revert d; induction reads as [|v reads IH]; intros d; [reflexivity|].
  simpl. rewrite decode_app. destruct (Utf8.decode d v) as [d1 o1].
  now rewrite IH.
Qed.

Lemma decodeReads_app (d : Utf8.State) (r1 r2 : list (list Byte.byte)) :
  decodeReads d (r1 ++ r2) =
  let (d1, o1) := decodeReads d r1 in
  let (d2, o2) := decodeReads d1 r2 in
  (d2, o1 ++ o2).
Proof.
  rewrite !decodeReads_concat, concat_app, decode_app.
  destruct (Utf8.decode d (concat r1)) as [d1 o1].
  now rewrite decodeReads_concat.
Qed.

Lemma blocksOf_app (s t : JsString) :
  blocksOf (s ++ t) = blocksOf s ++ blocksOf (restOf s ++ t).
Proof.
  unfold blocksOf, restOf. rewrite JsFacts.split_app.
  apply removelast_app, JsFacts.split_not_nil.
Qed.

Lemma restOf_app (s t : JsString) : restOf (s ++ t) = restOf (restOf s ++ t).
Proof.
  unfold restOf. rewrite JsFacts.split_app.
  apply JsFacts.last_app_r, JsFacts.split_not_nil.
Qed.

Lemma blocksOf_open (s : JsString) : breakOn [LF; LF] s = None -> blocksOf s = [].
Proof. intros H. unfold blocksOf. now rewrite (JsFacts.split_none _ _ _ H). Qed.

Lemma restOf_open (s : JsString) : breakOn [LF; LF] (restOf s) = None.
Proof. apply JsFacts.breakOn_last_split. Qed.

Lemma forBlocks_app (S : Type) (h : JsString -> S -> Flow S)
  (l1 l2 : list JsString) (s : S) :
  forBlocks h (l1 ++ l2) s =
  match forBlocks h l1 s with
  | Next s' => forBlocks h l2 s'
  | Raise e s' => Raise e s'
  end.
Proof.
  revert s; induction l1 as [|b l1 IH]; intros s; [reflexivity|].
  simpl. destruct (h b s); [apply IH|reflexivity].
Qed.

(** The loop hands to its body the blocks closed by the whole text, in
    order, whatever the reads that brought it. *)
Lemma readLoop_blocks (S : Type) (h : JsString -> S -> Flow S)
  (reads : list (list Byte.byte)) (failure : option Thrown)
  (d : Utf8.State) (buffer : JsString) (s : S) :
  breakOn [LF; LF] buffer = None ->
  readLoop h reads failure d buffer s =
  ending failure (forBlocks h (blocksOf (buffer ++ snd (decodeReads d reads))) s).
Proof.
  revert d buffer s; induction reads as [|v reads IH]; intros d buffer s Hb.
  - simpl. now rewrite app_nil_r, (blocksOf_open _ Hb).
  - simpl. destruct (Utf8.decode d v) as [d1 o1].
    destruct (decodeReads d1 reads) as [d2 o2] eqn:E. simpl.
    rewrite app_assoc, blocksOf_app, forBlocks_app.
    fold (blocksOf (buffer ++ o1)). fold (restOf (buffer ++ o1)).
    destruct (forBlocks h (blocksOf (buffer ++ o1)) s) as [s'|e s']; [|reflexivity].
    rewrite IH by apply restOf_open. now rewrite E.
Qed.

Lemma readLoop_concat (S : Type) (h : JsString -> S -> Flow S)
  (reads : list (list Byte.byte)) (failure : option Thrown) (s : S) :
  readLoop h reads failure Utf8.init [] s =
  readLoop h [concat reads] failure Utf8.init [] s.
Proof.
  rewrite !readLoop_blocks by reflexivity.
  rewrite !decodeReads_concat. simpl. now rewrite app_nil_r.
Qed.

Lemma forBlocks_events (S : Type) (h : Parsed.t -> S -> Flow S)
  (blocks : list JsString) (s : S) :
  forBlocks (fun block s =>
               match parseSseBlock block with
               | None => Next s
               | Some parsed => h parsed s
               end) blocks s =
  forEvents h (flat_map parsedBlock blocks) s.
Proof.
  revert s; induction blocks as [|b blocks IH]; intros s; [reflexivity|].
  simpl. unfold parsedBlock at 1. destruct (parseSseBlock b) as [p|]; simpl.
  - destruct (h p s); [apply IH|reflexivity].
  - apply IH.
Qed.

Lemma forEvents_app (S : Type) (h : Parsed.t -> S -> Flow S)
  (l1 l2 : list Parsed.t) (s : S) :
  forEvents h (l1 ++ l2) s =
  match forEvents h l1 s with
  | Next s' => forEvents h l2 s'
  | Raise e s' => Raise e s'
  end.
Proof.
  revert s; induction l1 as [|b l1 IH]; intros s; [reflexivity|].
  simpl. destruct (h b s); [apply IH|reflexivity].
Qed.

Lemma forBlocks_record (blocks : list JsString) (log : list Parsed.t) :
  forBlocks recordParsed blocks log = Next (log ++ flat_map parsedBlock blocks).
Proof.
  revert log; induction blocks as [|b blocks IH]; intros log.
  - simpl. now rewrite app_nil_r.
  - simpl. rewrite IH. now rewrite <- app_assoc.
Qed.

(** The events of [eventsOf] are the ones that the loop parses. *)
Lemma parsedByLoop_events (reads : list (list Byte.byte)) (failure : option Thrown) :
  parsedByLoop reads failure = ending failure (Next (eventsOf reads)).
Proof.
  unfold parsedByLoop. rewrite readLoop_blocks by reflexivity.
  now rewrite forBlocks_record.
Qed.

(** The events of an extended stream start with those of the stream. *)
Lemma eventsOf_app (r1 r2 : list (list Byte.byte)) :
  exists more, eventsOf (r1 ++ r2) = eventsOf r1 ++ more.
Proof.
  unfold eventsOf, textOf, sseEvents. rewrite decodeReads_app.
  destruct (decodeReads Utf8.init r1) as [d1 o1].
  destruct (decodeReads d1 r2) as [d2 o2]. simpl.
  rewrite blocksOf_app, flat_map_app. eauto.
Qed.

End StreamFacts.

Section ConsumeFacts.
Context {P : Platform}.

(** [sendMessageStreaming] handles the events of the stream one after the
    other, until one of them throws. *)
Lemma consume_events (assistantId : JsString) (reads : list (list Byte.byte))
  (failure : option Thrown) (st : State) :
  consume assistantId reads failure st =
  ending failure
    (forEvents (handleEvent assistantId) (eventsOf reads)
       {| Loop.hasDelta := false; Loop.gotFinal := false; Loop.ui := st |}).
Proof.
  unfold consume. rewrite StreamFacts.readLoop_blocks by reflexivity.
  unfold handleBlock. now rewrite StreamFacts.forBlocks_events.
Qed.

End ConsumeFacts.

(** C9.  However the bytes of the stream are cut into reads, the loop
    parses the same sequence of events as when they arrive in one read,
    and [sendMessageStreaming] leaves its loop in the same way; the same
    holds of the loop around any body, since only the blocks closed by a
    blank line leave the buffer. *)
Theorem chunk_split_invariance {P : Platform} (assistantId : JsString)
  (reads : list (list Byte.byte)) (failure : option Thrown) (st : State) :
  parsedByLoop reads failure = parsedByLoop [concat reads] failure
  /\ consume assistantId reads failure st
     = consume assistantId [concat reads] failure st
  /\ (forall (S : Type) (body : JsString -> S -> Flow S) (s : S),
        readLoop body reads failure Utf8.init [] s
        = readLoop body [concat reads] failure Utf8.init [] s).
Proof.
  repeat split; intros; apply StreamFacts.readLoop_concat.
Qed.

(** ** Which turns complete *)

Definition isEvent (name : string) (parsed : Parsed.t) : bool :=
  eqb (Parsed.event parsed) (lit name).

Definition completed {S : Type} (flow : Flow S) : bool :=
  match flow with
  | Next _ => true
  | Raise _ _ => false
  end.

(** The fetch of [sendMessageStreaming] is answered by an event stream:
    an ok response with a body and the event-stream content type. *)
Definition answersWith {P : Platform} (fetch : Request.t -> FetchOutcome)
  (formData : FormData) (stream : Stream.t) : Prop :=
  exists response,
    fetch (streamRequest formData) = Resolved response
    /\ Response.ok response = true
    /\ Response.body response = Some stream
    /\ includes (lit "text/event-stream")
         (match Response.contentType response with Some c => c | None => [] end)
       = true.

(** A [final] event is parsed, and no [error] event is parsed before it. *)
Definition finalBeforeError (events : list Parsed.t) : Prop :=
  exists before parsed after,
    events = before ++ parsed :: after
    /\ isEvent "final" parsed = true
    /\ forallb (fun p => negb (isEvent "error" p)) before = true.

Section Completion.
Context {P : Platform}.

(** The payload of a [final] event that the loop accepts. *)
Definition readable (parsed : Parsed.t) : bool :=
  truthy (parseJson (Parsed.data parsed)).

(** An event that the loop handles without throwing. *)
Definition harmless (parsed : Parsed.t) : bool :=
  negb (isEvent "error" parsed)
  && (negb (isEvent "final" parsed) || readable parsed).

Lemma sendMessageStreaming_stream (fetch : Request.t -> FetchOutcome)
  (formData : FormData) (assistantId : JsString) (st : State) (stream : Stream.t) :
  answersWith fetch formData stream ->
  sendMessageStreaming fetch formData assistantId st =
  (match consume assistantId (Stream.chunks stream) (Stream.failure stream) st with
   | Raise e l => Raise e (Loop.ui l)
   | Next l =>
       if negb (Loop.gotFinal l) then
         Raise (ErrorObj (lit "El stream finalizo sin evento final")) (Loop.ui l)
       else Next (Loop.ui l)
   end, [streamRequest formData]).
Proof.
  intros (r & Hf & Hok & Hb & Hc). unfold sendMessageStreaming.
  now rewrite Hf, Hok, Hb, Hc.
Qed.

Ltac event_name H :=
  unfold isEvent; apply JsFacts.eqb_eq in H; rewrite H; cbn.

Lemma handleEvent_harmless (assistantId : JsString) (parsed : Parsed.t) (l : Loop.t) :
  harmless parsed = true ->
  exists l',
    handleEvent assistantId parsed l = Next l'
    /\ Loop.gotFinal l' = Loop.gotFinal l || isEvent "final" parsed.
Proof.
  unfold harmless, handleEvent, readable. intros H.
  destruct (eqb (Parsed.event parsed) (lit "start")) eqn:E1.
  { eexists; split; [reflexivity|]. event_name E1. now rewrite orb_false_r. }
  destruct (eqb (Parsed.event parsed) (lit "delta")) eqn:E2.
  { destruct (truthy (nullish _ _)); cbn [negb]; eexists;
      (split; [reflexivity|]); event_name E2; now rewrite orb_false_r. }
  unfold isEvent in *.
  destruct (eqb (Parsed.event parsed) (lit "error")) eqn:E3; [discriminate|].
  destruct (eqb (Parsed.event parsed) (lit "final")) eqn:E4.
  - simpl in H. rewrite H. simpl. eexists; split; [reflexivity|].
    simpl. now rewrite orb_true_r.
  - eexists; split; [reflexivity|]. now rewrite orb_false_r.
Qed.

Lemma handleEvent_harmful (assistantId : JsString) (parsed : Parsed.t) (l : Loop.t) :
  harmless parsed = false ->
  exists e, handleEvent assistantId parsed l = Raise e l.
Proof.
  unfold harmless, handleEvent, readable, isEvent. intros H.
  destruct (eqb (Parsed.event parsed) (lit "start")) eqn:E1.
  { apply JsFacts.eqb_eq in E1. rewrite E1 in H. discriminate. }
  destruct (eqb (Parsed.event parsed) (lit "delta")) eqn:E2.
  { apply JsFacts.eqb_eq in E2. rewrite E2 in H. discriminate. }
  destruct (eqb (Parsed.event parsed) (lit "error")) eqn:E3; [eauto|].
  destruct (eqb (Parsed.event parsed) (lit "final")) eqn:E4; [|discriminate].
  simpl in H. rewrite H. simpl. eauto.
Qed.

Lemma forEvents_harmless (assistantId : JsString) (events : list Parsed.t) (l : Loop.t) :
  forallb harmless events = true ->
  exists l',
    forEvents (handleEvent assistantId) events l = Next l'
    /\ Loop.gotFinal l' = Loop.gotFinal l || existsb (isEvent "final") events.
Proof.
  revert l; induction events as [|p events IH]; intros l H.
  - exists l. split; [reflexivity|]. simpl. now rewrite orb_false_r.
  - simpl in H. apply andb_prop in H as [Hp H].
    destruct (handleEvent_harmless assistantId p l Hp) as (l1 & E1 & G1).
    destruct (IH l1 H) as (l2 & E2 & G2).
    exists l2. simpl. rewrite E1. split; [exact E2|].
    rewrite G2, G1. now rewrite orb_assoc.
Qed.

Lemma forEvents_harmful (assistantId : JsString) (events : list Parsed.t) (l : Loop.t) :
  forallb harmless events = false ->
  exists e l', forEvents (handleEvent assistantId) events l = Raise e l'.
Proof.
  revert l; induction events as [|p events IH]; intros l H; [discriminate|].
  simpl in H. simpl. destruct (harmless p) eqn:Hp.
  - destruct (handleEvent_harmless assistantId p l Hp) as (l1 & E1 & _).
    rewrite E1. apply IH. exact H.
  - destruct (handleEvent_harmful assistantId p l Hp) as (e & E1).
    rewrite E1. eauto.
Qed.

End Completion.

(** C1, as amended.  On a stream that ends with [done],
    [sendMessageStreaming] completes normally if and only if a [final]
    event is parsed, no [error] event is parsed at all, and every [final]
    event parsed carries a payload that [JSON.parse] reads as a truthy
    value; in particular it throws when the stream ends without any
    [final] event having been parsed. *)
Theorem completes_iff_final {P : Platform} (fetch : Request.t -> FetchOutcome)
  (formData : FormData) (assistantId : JsString) (st : State)
  (reads : list (list Byte.byte)) :
  answersWith fetch formData {| Stream.chunks := reads; Stream.failure := None |} ->
  let events := eventsOf reads in
  let outcome := fst (sendMessageStreaming fetch formData assistantId st) in
  (completed outcome = true <->
     existsb (isEvent "final") events = true
     /\ existsb (isEvent "error") events = false
     /\ forallb (fun p => negb (isEvent "final" p) || readable p) events = true)
  /\ (existsb (isEvent "final") events = false -> completed outcome = false).
Proof.
  intros H events outcome. subst outcome.
  rewrite (sendMessageStreaming_stream _ _ assistantId st _ H).
  cbn [fst Stream.chunks Stream.failure]. rewrite consume_events.
  fold events. cbn [ending].
  assert (Hsplit : forallb harmless events =
                   negb (existsb (isEvent "error") events)
                   && forallb (fun p => negb (isEvent "final" p) || readable p) events).
  { clear. induction events as [|p events IH]; [reflexivity|].
    simpl. rewrite IH. unfold harmless.
    destruct (isEvent "error" p), (existsb (isEvent "error") events);
      simpl; try reflexivity;
      destruct (negb (isEvent "final" p) || readable p); reflexivity. }
  set (l0 := {| Loop.hasDelta := false; Loop.gotFinal := false; Loop.ui := st |}).
  destruct (forallb harmless events) eqn:Hh.
  - destruct (forEvents_harmless assistantId events l0 Hh) as (l' & -> & G).
    cbn [ending]. cbn in G. rewrite G.
    symmetry in Hsplit. apply andb_prop in Hsplit as [He Hf].
    apply negb_true_iff in He. rewrite He, Hf.
    destruct (existsb (isEvent "final") events); cbn; intuition congruence.
  - destruct (forEvents_harmful assistantId events l0 Hh) as (e & l' & ->).
    cbn [ending completed]. split; [|reflexivity]. split; [discriminate|].
    intros (_ & He & Hf). rewrite He, Hf in Hsplit. discriminate.
Qed.

(** ** Concrete streams for the examples *)

Module Examples.

(** Bytes written with an apostrophe where the wire has a double quote. *)
Definition requote (b : Byte.byte) : Byte.byte :=
  match b with
  | Byte.x27 => Byte.x22
  | _ => b
  end.

Definition wire (s : string) : list Byte.byte := map requote (Utf8.bytes s).

(** One event block as the server writes it. *)
Definition sse (event data : string) : list Byte.byte :=
  wire "event: " ++ wire event ++ [Byte.x0a]
    ++ wire "data: " ++ wire data ++ [Byte.x0a; Byte.x0a].

(** A string of the examples, with the same convention. *)
Definition text (s : string) : JsString := snd (Utf8.decode Utf8.init (wire s)).

Definition eventStream (reads : list (list Byte.byte)) : Response.t :=
  {| Response.ok := true;
     Response.text := inr [];
     Response.json := inl NonError;
     Response.contentType := Some (lit "text/event-stream; charset=utf-8");
     Response.body := Some {| Stream.chunks := reads; Stream.failure := None |} |}.

Definition refusal (status : string) : Response.t :=
  {| Response.ok := false;
     Response.text := inr (text status);
     Response.json := inl NonError;
     Response.contentType := Some (lit "application/json");
     Response.body := Some {| Stream.chunks := [wire status]; Stream.failure := None |} |}.

Definition serve (response : Response.t) : Request.t -> FetchOutcome :=
  fun _ => Resolved response.

Definition placeholder (id : string) : UiMessage.t :=
  {| UiMessage.id := lit id; UiMessage.role := assistant;
     UiMessage.text := JString (lit "Procesando..."); UiMessage.data := JUndefined |}.

(** The state in which [sendMessage] calls [sendMessageStreaming]. *)
Definition waiting (id : string) : State :=
  setLoading true (appendMessage (placeholder id) initialState).

(** The state of a user who has typed [typed]. *)
Definition typing (typed : string) : State := setInput (lit typed) initialState.

Lemma serve_answers (reads : list (list Byte.byte)) (formData : FormData) :
  answersWith (P := refPlatform) (serve (eventStream reads)) formData
    {| Stream.chunks := reads; Stream.failure := None |}.
Proof. eexists. repeat split; reflexivity. Qed.

End Examples.

(** Two events cut into three reads, the second cut falling between the
    two bytes of an accented letter: the loop parses the same events. *)
Example reads_cut_anywhere :
  let bytes := Examples.sse "start" "{}" ++ Examples.sse "delta" "{'content':'sí'}" in
  let reads := [firstn 9 bytes; firstn 47 (skipn 9 bytes); skipn 56 bytes] in
  concat reads = bytes
  /\ nth_error bytes 55 = Some Byte.xc3
  /\ nth_error bytes 56 = Some Byte.xad
  /\ parsedByLoop reads None = parsedByLoop [bytes] None
  /\ parsedByLoop reads None =
     Next [{| Parsed.event := lit "start"; Parsed.data := lit "{}" |};
           {| Parsed.event := lit "delta";
              Parsed.data := Examples.text "{'content':'sí'}" |}].
Proof.
  intros bytes reads. repeat split; vm_compute; reflexivity.
Qed.

(** C1, as stated, fails on a stream whose [final] event carries a payload
    that is not JSON: a [final] event is parsed, no [error] event comes
    before it, and [sendMessageStreaming] throws. *)
Lemma unreadable_final_throws :
  let reads := [Examples.sse "final" "x"] in
  ~ (completed (fst (sendMessageStreaming (P := refPlatform)
                       (Examples.serve (Examples.eventStream reads)) []
                       (lit "a1") (Examples.waiting "a1"))) = true
     <-> finalBeforeError (eventsOf reads)).
Proof.
  intros reads [_ H].
  assert (F : finalBeforeError (eventsOf reads)).
  { exists [], {| Parsed.event := lit "final"; Parsed.data := lit "x" |}, [].
    repeat split; reflexivity. }
  apply H in F. vm_compute in F. discriminate.
Qed.

(** A stream of [start] and a readable [final] completes. *)
Lemma completes_iff_final_witness :
  let reads :=
    [Examples.sse "start" "{}";
     Examples.sse "final" "{'conversation_id':'c1','assistant_message':'hola'}"] in
  answersWith (P := refPlatform) (Examples.serve (Examples.eventStream reads)) []
    {| Stream.chunks := reads; Stream.failure := None |}
  /\ completed (fst (sendMessageStreaming (P := refPlatform)
                       (Examples.serve (Examples.eventStream reads)) []
                       (lit "a1") (Examples.waiting "a1"))) = true.
Proof.
  intros reads. split; [apply Examples.serve_answers|].
  apply (proj1 (completes_iff_final (P := refPlatform)
                  (Examples.serve (Examples.eventStream reads)) []
                  (lit "a1") (Examples.waiting "a1") reads
                  (Examples.serve_answers reads []))).
  repeat split; vm_compute; reflexivity.
Defined.

(** ** The text that the deltas build *)

Section Deltas.
Context {P : Platform}.

(** The content that a [delta] event carries: [delta?.content], or the
    empty string when it is missing or null. *)
Definition deltaContent (parsed : Parsed.t) : JsValue :=
  nullish (member (parseJson (Parsed.data parsed)) (lit "content")) (JString []).

Lemma handleEvent_start (assistantId : JsString) (parsed : Parsed.t) (l : Loop.t) :
  isEvent "start" parsed = true ->
  handleEvent assistantId parsed l =
  Next {| Loop.hasDelta := Loop.hasDelta l; Loop.gotFinal := Loop.gotFinal l;
          Loop.ui := patchMessage assistantId (textPatch "Procesando...") (Loop.ui l) |}.
Proof.
  unfold isEvent, handleEvent. intros H. apply JsFacts.eqb_eq in H.
  rewrite H. reflexivity.
Qed.

Lemma handleEvent_delta (assistantId : JsString) (parsed : Parsed.t) (l : Loop.t) :
  isEvent "delta" parsed = true ->
  handleEvent assistantId parsed l =
  if negb (truthy (deltaContent parsed)) then Next l
  else
    Next {| Loop.hasDelta := true; Loop.gotFinal := Loop.gotFinal l;
            Loop.ui :=
              appendMessageText assistantId (deltaContent parsed)
                (if Loop.hasDelta l then Loop.ui l
                 else patchMessage assistantId
                        {| Patch.text := Some (JString []); Patch.data := None |}
                        (Loop.ui l)) |}.
Proof.
  unfold isEvent, handleEvent, deltaContent. intros H. apply JsFacts.eqb_eq in H.
  rewrite H. reflexivity.
Qed.

Lemma handleEvent_error (assistantId : JsString) (parsed : Parsed.t) (l : Loop.t) :
  isEvent "error" parsed = true ->
  handleEvent assistantId parsed l =
  Raise (newError (nullish (member (parseJson (Parsed.data parsed)) (lit "message"))
                           (JString (lit "Error en streaming")))) l.
Proof.
  unfold isEvent, handleEvent. intros H. apply JsFacts.eqb_eq in H.
  rewrite H. reflexivity.
Qed.

Lemma handleEvent_final (assistantId : JsString) (parsed : Parsed.t) (l : Loop.t) :
  isEvent "final" parsed = true ->
  handleEvent assistantId parsed l =
  let payload := parseJson (Parsed.data parsed) in
  if negb (truthy payload) then
    Raise (ErrorObj (lit "No se pudo leer respuesta final del stream")) l
  else
    Next {| Loop.hasDelta := Loop.hasDelta l; Loop.gotFinal := true;
            Loop.ui :=
              patchMessage assistantId
                {| Patch.text := Some (member payload (lit "assistant_message"));
                   Patch.data := Some (member payload (lit "data")) |}
                (setConversationId (member payload (lit "conversation_id"))
                                   (Loop.ui l)) |}.
Proof.
  unfold isEvent, handleEvent. intros H. apply JsFacts.eqb_eq in H.
  rewrite H. reflexivity.
Qed.

Lemma handleEvent_other (assistantId : JsString) (parsed : Parsed.t) (l : Loop.t) :
  isEvent "start" parsed = false -> isEvent "delta" parsed = false ->
  isEvent "error" parsed = false -> isEvent "final" parsed = false ->
  handleEvent assistantId parsed l = Next l.
Proof.
  unfold isEvent, handleEvent. now intros -> -> -> ->.
Qed.

(** The message that the turn is writing is the last one of the list. *)
Lemma patchMessage_last (id : JsString) (patch : Patch.t) (st : State)
  (ms : list UiMessage.t) (a : UiMessage.t) :
  messages st = ms ++ [a] -> UiMessage.id a = id ->
  exists ms',
    messages (patchMessage id patch st) = ms' ++ [applyPatch patch a]
    /\ length ms' = length ms.
Proof.
  intros Hm Hid. unfold patchMessage. cbn [messages setMessages]. rewrite Hm, map_app.
  eexists. split; [|apply length_map]. cbn [map].
  now rewrite Hid, JsFacts.eqb_refl.
Qed.

Lemma appendMessageText_last (id : JsString) (piece : JsValue) (st : State)
  (ms : list UiMessage.t) (a : UiMessage.t) (text appended : JsString) :
  messages st = ms ++ [a] -> UiMessage.id a = id ->
  ToString (UiMessage.text a) = Some text -> ToString piece = Some appended ->
  exists ms',
    messages (appendMessageText id piece st) =
      ms' ++ [{| UiMessage.id := UiMessage.id a; UiMessage.role := UiMessage.role a;
                 UiMessage.text := JString (text ++ appended);
                 UiMessage.data := UiMessage.data a |}]
    /\ length ms' = length ms.
Proof.
  intros Hm Hid Ht Hp. unfold appendMessageText. cbn [messages setMessages].
  rewrite Hm, map_app. eexists. split; [|apply length_map]. cbn [map].
  now rewrite Hid, JsFacts.eqb_refl, Ht, Hp.
Qed.

(** [delta] events whose payloads carry the given contents. *)
Definition carry (deltas : list Parsed.t) (contents : list JsString) : Prop :=
  Forall2 (fun parsed content =>
             isEvent "delta" parsed = true
             /\ deltaContent parsed = JString content)
          deltas contents.

Lemma deltas_run (assistantId : JsString) (deltas : list Parsed.t)
  (contents : list JsString) :
  carry deltas contents ->
  forall (l : Loop.t) (ms : list UiMessage.t) (a : UiMessage.t) (t : JsString),
    messages (Loop.ui l) = ms ++ [a] -> UiMessage.id a = assistantId ->
    UiMessage.text a = JString t ->
    exists l' ms' a',
      forEvents (handleEvent assistantId) deltas l = Next l'
      /\ messages (Loop.ui l') = ms' ++ [a']
      /\ length ms' = length ms
      /\ UiMessage.id a' = assistantId
      /\ Loop.hasDelta l' = Loop.hasDelta l || negb (isEmpty (concat contents))
      /\ Loop.gotFinal l' = Loop.gotFinal l
      /\ UiMessage.text a' =
         JString (if Loop.hasDelta l then t ++ concat contents
                  else if isEmpty (concat contents) then t
                  else concat contents).
Proof.
  induction 1 as [|p c deltas contents [Hp Hc] _ IH]; intros l ms a t Hm Hid Ht.
  - exists l, ms, a. cbn [concat isEmpty negb forEvents].
    rewrite orb_false_r, app_nil_r, Ht.
    repeat split; try assumption. now destruct (Loop.hasDelta l).
  - cbn [forEvents concat]. rewrite (handleEvent_delta _ _ _ Hp), Hc.
    destruct c as [|x c].
    + cbn [truthy isEmpty negb app]. exact (IH l ms a t Hm Hid Ht).
    + cbn [truthy isEmpty negb].
      set (st1 := if Loop.hasDelta l then Loop.ui l else _).
      assert (H1 : exists ms1 a1,
                 messages st1 = ms1 ++ [a1] /\ length ms1 = length ms
                 /\ UiMessage.id a1 = assistantId
                 /\ UiMessage.text a1 =
                    JString (if Loop.hasDelta l then t else [])).
      { subst st1. destruct (Loop.hasDelta l).
        - exists ms, a. auto.
        - destruct (patchMessage_last assistantId
                      {| Patch.text := Some (JString []); Patch.data := None |}
                      _ _ _ Hm Hid) as (ms1 & E1 & L1).
          exists ms1, (applyPatch {| Patch.text := Some (JString []); Patch.data := None |} a).
          auto. }
      destruct H1 as (ms1 & a1 & Hm1 & L1 & Hid1 & Ht1).
      destruct (appendMessageText_last assistantId (JString (x :: c)) _ _ _
                  (if Loop.hasDelta l then t else []) (x :: c) Hm1 Hid1
                  ltac:(now rewrite Ht1) eq_refl)
        as (ms2 & Hm2 & L2).
      edestruct (IH {| Loop.hasDelta := true; Loop.gotFinal := Loop.gotFinal l;
                       Loop.ui := appendMessageText assistantId (JString (x :: c)) st1 |}
                    ms2 _ _ Hm2 Hid1 eq_refl)
        as (l' & ms' & a' & E & Hm' & L' & Hid' & Hd' & Hg' & Ht').
      exists l', ms', a'. cbn [Loop.hasDelta Loop.gotFinal] in *.
      repeat split; try assumption; try congruence.
      * now rewrite orb_true_r.
      * rewrite Ht'. destruct (Loop.hasDelta l); cbn [app isEmpty].
        -- now rewrite <- app_assoc.
        -- reflexivity.
Qed.

End Deltas.

(** C2, as amended.  When the events parsed so far are [start] followed by
    [delta] events carrying the contents [c1 ... cn], a missing content
    counting as empty, the assistant message reads [c1 ++ ... ++ cn] if
    one of them is not empty and still reads the placeholder
    [Procesando...] otherwise: the placeholder is cleared exactly on the
    first content that is not empty. *)
Theorem delta_text_accumulates {P : Platform} (assistantId : JsString)
  (reads : list (list Byte.byte)) (st : State)
  (ms : list UiMessage.t) (a : UiMessage.t)
  (start : Parsed.t) (deltas : list Parsed.t) (contents : list JsString) :
  messages st = ms ++ [a] -> UiMessage.id a = assistantId ->
  eventsOf reads = start :: deltas ->
  isEvent "start" start = true ->
  carry deltas contents ->
  exists l ms' a',
    consume assistantId reads None st = Next l
    /\ messages (Loop.ui l) = ms' ++ [a']
    /\ length ms' = length ms
    /\ UiMessage.id a' = assistantId
    /\ UiMessage.text a' =
       JString (if isEmpty (concat contents) then lit "Procesando..."
                else concat contents)
    /\ Loop.hasDelta l = negb (isEmpty (concat contents)).
Proof.
  intros Hm Hid Hev Hs Hc. rewrite consume_events, Hev. cbn [forEvents].
  rewrite (handleEvent_start _ _ _ Hs). cbn [Loop.ui Loop.hasDelta Loop.gotFinal].
  destruct (patchMessage_last assistantId (textPatch "Procesando...") st ms a Hm Hid)
    as (ms1 & Hm1 & L1).
  edestruct (deltas_run assistantId deltas contents Hc
               {| Loop.hasDelta := false; Loop.gotFinal := false;
                  Loop.ui := patchMessage assistantId (textPatch "Procesando...") st |}
               ms1 _ (lit "Procesando...") Hm1 Hid eq_refl)
    as (l' & ms' & a' & E & Hm' & L' & Hid' & Hd' & Hg' & Ht').
  exists l', ms', a'. rewrite E. cbn [ending].
  cbn [Loop.hasDelta orb] in Hd', Ht'.
  repeat split; try assumption; congruence.
Qed.

(** Three deltas, the second without content, write [Hola]. *)
Lemma delta_text_accumulates_witness :
  let reads :=
    [Examples.sse "start" "{}"; Examples.sse "delta" "{'content':'Ho'}";
     Examples.sse "delta" "{}"; Examples.sse "delta" "{'content':'la'}"] in
  let deltas :=
    [{| Parsed.event := lit "delta"; Parsed.data := Examples.text "{'content':'Ho'}" |};
     {| Parsed.event := lit "delta"; Parsed.data := Examples.text "{}" |};
     {| Parsed.event := lit "delta"; Parsed.data := Examples.text "{'content':'la'}" |}] in
  carry (P := refPlatform) deltas [lit "Ho"; []; lit "la"]
  /\ exists l ms' a',
       consume (P := refPlatform) (lit "a1") reads None (Examples.waiting "a1") = Next l
       /\ messages (Loop.ui l) = ms' ++ [a']
       /\ length ms' = 0
       /\ UiMessage.id a' = lit "a1"
       /\ UiMessage.text a' = JString (lit "Hola")
       /\ Loop.hasDelta l = true.
Proof.
  intros reads deltas.
  assert (Hc : carry (P := refPlatform) deltas [lit "Ho"; []; lit "la"]).
  { repeat constructor. }
  split; [exact Hc|].
  exact (delta_text_accumulates (P := refPlatform) (lit "a1") reads
           (Examples.waiting "a1") [] (Examples.placeholder "a1")
           {| Parsed.event := lit "start"; Parsed.data := lit "{}" |}
           deltas [lit "Ho"; []; lit "la"]
           eq_refl eq_refl eq_refl eq_refl Hc).
Defined.

(** C2, as stated, fails when no delta carries a content that is not
    empty: the text before the terminal event is the placeholder, not the
    empty concatenation. *)
Lemma empty_delta_keeps_placeholder :
  let reads := [Examples.sse "start" "{}"; Examples.sse "delta" "{'content':''}"] in
  let delta :=
    {| Parsed.event := lit "delta"; Parsed.data := Examples.text "{'content':''}" |} in
  eventsOf reads = [{| Parsed.event := lit "start"; Parsed.data := lit "{}" |}; delta]
  /\ carry (P := refPlatform) [delta] [[]]
  /\ exists l,
       consume (P := refPlatform) (lit "a1") reads None (Examples.waiting "a1") = Next l
       /\ map UiMessage.text (messages (Loop.ui l)) = [JString (lit "Procesando...")]
       /\ JString (lit "Procesando...") <> JString (concat [[]]).
Proof.
  intros reads delta. split; [reflexivity|]. split; [repeat constructor|].
  eexists. split; [vm_compute; reflexivity|]. split; [reflexivity|discriminate].
Qed.

(** ** After a terminal event *)

Section AfterTerminal.
Context {P : Platform}.

Lemma harmless_no_error (events : list Parsed.t) :
  existsb (isEvent "error") events = true -> forallb harmless events = false.
Proof.
  induction events as [|p events IH]; [discriminate|].
  simpl. unfold harmless at 1. destruct (isEvent "error" p); [reflexivity|].
  simpl. intros H. rewrite (IH H). apply andb_false_r.
Qed.

(** The loop does not look at [gotFinal]: an event is handled in the same
    way before and after a [final] event. *)
Lemma handleEvent_ignores_gotFinal (assistantId : JsString) (parsed : Parsed.t)
  (l : Loop.t) (b : bool) :
  let l' := {| Loop.hasDelta := Loop.hasDelta l; Loop.gotFinal := b; Loop.ui := Loop.ui l |} in
  match handleEvent assistantId parsed l, handleEvent assistantId parsed l' with
  | Next l1, Next l2 =>
      Loop.ui l1 = Loop.ui l2 /\ Loop.hasDelta l1 = Loop.hasDelta l2
  | Raise e1 l1, Raise e2 l2 => e1 = e2 /\ Loop.ui l1 = Loop.ui l2
  | _, _ => False
  end.
Proof.
  intros l'. unfold handleEvent. subst l'. cbn [Loop.ui Loop.hasDelta Loop.gotFinal].
  repeat match goal with
         | |- context [if ?c then _ else _] => destruct c
         end; cbn; auto.
Qed.

End AfterTerminal.

(** C3, as amended.  No event delivered after an [error] event changes
    the visible state: once an [error] event has been parsed,
    [sendMessageStreaming] has thrown, and it ends with the same exception
    and the same state whatever the stream delivers afterwards.  An event
    that follows a [final] event is handled like any other: the handling
    of an event does not depend on [gotFinal]. *)
Theorem nothing_after_error {P : Platform}
  (fetch fetch' : Request.t -> FetchOutcome) (formData : FormData)
  (assistantId : JsString) (st : State)
  (reads later : list (list Byte.byte)) (failure failure' : option Thrown) :
  answersWith fetch formData {| Stream.chunks := reads; Stream.failure := failure |} ->
  answersWith fetch' formData
    {| Stream.chunks := reads ++ later; Stream.failure := failure' |} ->
  existsb (isEvent "error") (eventsOf reads) = true ->
  sendMessageStreaming fetch' formData assistantId st
  = sendMessageStreaming fetch formData assistantId st
  /\ completed (fst (sendMessageStreaming fetch formData assistantId st)) = false
  /\ (forall (parsed : Parsed.t) (l : Loop.t) (b : bool),
        match handleEvent assistantId parsed l,
              handleEvent assistantId parsed
                {| Loop.hasDelta := Loop.hasDelta l; Loop.gotFinal := b;
                   Loop.ui := Loop.ui l |} with
        | Next l1, Next l2 =>
            Loop.ui l1 = Loop.ui l2 /\ Loop.hasDelta l1 = Loop.hasDelta l2
        | Raise e1 l1, Raise e2 l2 => e1 = e2 /\ Loop.ui l1 = Loop.ui l2
        | _, _ => False
        end).
Proof.
  intros H H' He.
  rewrite (sendMessageStreaming_stream _ _ assistantId st _ H).
  rewrite (sendMessageStreaming_stream _ _ assistantId st _ H').
  cbn [Stream.chunks Stream.failure]. rewrite !consume_events.
  destruct (StreamFacts.eventsOf_app reads later) as [more ->].
  rewrite StreamFacts.forEvents_app.
  destruct (forEvents_harmful assistantId (eventsOf reads)
              {| Loop.hasDelta := false; Loop.gotFinal := false; Loop.ui := st |}
              (harmless_no_error _ He)) as (e & l' & ->).
  split; [reflexivity|]. split; [reflexivity|].
  intros. apply handleEvent_ignores_gotFinal.
Qed.

(** A [final] event that comes after an [error] event changes nothing. *)
Lemma nothing_after_error_witness :
  let reads := [Examples.sse "start" "{}"; Examples.sse "error" "{'message':'boom'}"] in
  let later := [Examples.sse "final" "{'conversation_id':'c1','assistant_message':'hola'}"] in
  existsb (isEvent "error") (eventsOf reads) = true
  /\ sendMessageStreaming (P := refPlatform)
       (Examples.serve (Examples.eventStream (reads ++ later))) []
       (lit "a1") (Examples.waiting "a1")
     = sendMessageStreaming (P := refPlatform)
         (Examples.serve (Examples.eventStream reads)) []
         (lit "a1") (Examples.waiting "a1").
Proof.
  intros reads later. split; [reflexivity|].
  exact (proj1 (nothing_after_error (P := refPlatform)
                  (Examples.serve (Examples.eventStream reads))
                  (Examples.serve (Examples.eventStream (reads ++ later))) []
                  (lit "a1") (Examples.waiting "a1") reads later None None
                  (Examples.serve_answers reads [])
                  (Examples.serve_answers (reads ++ later) [])
                  eq_refl)).
Defined.

(** C3, as stated, fails after a [final] event: a [delta] event that
    follows it replaces the displayed text. *)
Lemma delta_after_final_changes_text :
  let first := [Examples.sse "final" "{'conversation_id':'c1','assistant_message':'listo'}"] in
  let later := [Examples.sse "delta" "{'content':'x'}"] in
  exists l1 l2,
    consume (P := refPlatform) (lit "a1") first None (Examples.waiting "a1") = Next l1
    /\ consume (P := refPlatform) (lit "a1") (first ++ later) None (Examples.waiting "a1")
       = Next l2
    /\ Loop.gotFinal l1 = true
    /\ map UiMessage.text (messages (Loop.ui l1)) = [JString (lit "listo")]
    /\ map UiMessage.text (messages (Loop.ui l2)) = [JString (lit "x")].
Proof.
  intros first later. eexists. eexists.
  split; [vm_compute; reflexivity|]. split; [vm_compute; reflexivity|].
  repeat split.
Qed.

(** ** A turn of [sendMessage] *)

(** Who wrote each message, in order: what no later patch changes. *)
Definition outline (st : State) : list (JsString * Role) :=
  map (fun m => (UiMessage.id m, UiMessage.role m)) (messages st).

Definition flowState (flow : Flow State) : State :=
  match flow with
  | Next s => s
  | Raise _ s => s
  end.

Definition loopState (flow : Flow Loop.t) : State :=
  match flow with
  | Next l => Loop.ui l
  | Raise _ l => Loop.ui l
  end.

(** There is something to send. *)
Definition canSend (st : State) : bool :=
  negb (isEmpty (trim (input st)))
  || match file st with Some _ => true | None => false end.

Section Turn.
Context {P : Platform}.

(** The form that [sendMessage] fills. *)
Definition turnForm (st : State) : FormData :=
  let text := trim (input st) in
  let fd1 :=
    if truthy (conversationId st)
    then appendText [] (lit "conversation_id") (conversationId st) else [] in
  let fd2 :=
    if negb (isEmpty text) then appendText fd1 (lit "message") (JString text)
    else fd1 in
  match file st with
  | Some f => appendFile fd2 (lit "file") f
  | None => fd2
  end.

(** The two messages that [sendMessage] appends. *)
Definition userMessage (userId : JsString) (st : State) : UiMessage.t :=
  {| UiMessage.id := userId; UiMessage.role := user;
     UiMessage.text :=
       JString
         match file st with
         | Some f =>
             (if isEmpty (trim (input st)) then lit "Archivo enviado"
              else trim (input st)) ++ lit " (" ++ File.name f ++ lit ")"
         | None => trim (input st)
         end;
     UiMessage.data := JUndefined |}.

Definition placeholderMessage (assistantId : JsString) : UiMessage.t :=
  {| UiMessage.id := assistantId; UiMessage.role := assistant;
     UiMessage.text := JString (lit "Procesando..."); UiMessage.data := JUndefined |}.

(** The state in which [sendMessage] awaits [sendMessageStreaming]. *)
Definition turnStart (userId assistantId : JsString) (st : State) : State :=
  setLoading true
    (setFile None
       (setInput []
          (appendMessage (placeholderMessage assistantId)
             (appendMessage (userMessage userId st) st)))).

(** What the [catch] of [sendMessage] shows. *)
Definition shownError (error : Thrown) : JsString :=
  lit "Error: " ++
  match error with
  | ErrorObj message => message
  | NonError => lit "No se pudo completar la solicitud"
  end.

Lemma sendMessage_idle (fetch : Request.t -> FetchOutcome)
  (userId assistantId : JsString) (st : State) :
  loading st = true \/ canSend st = false ->
  sendMessage fetch userId assistantId st = (st, []).
Proof.
  unfold sendMessage, canSend. intros [H|H].
  - now rewrite H.
  - destruct (loading st); [reflexivity|].
    destruct (isEmpty (trim (input st))), (file st); try discriminate; reflexivity.
Qed.

Lemma sendMessage_runs (fetch : Request.t -> FetchOutcome)
  (userId assistantId : JsString) (st : State) :
  loading st = false -> canSend st = true ->
  sendMessage fetch userId assistantId st =
  (setLoading false
     match fst (sendMessageStreaming fetch (turnForm st) assistantId
                  (turnStart userId assistantId st)) with
     | Next s => s
     | Raise error s =>
         patchMessage assistantId
           {| Patch.text := Some (JString (shownError error));
              Patch.data := Some JUndefined |} s
     end,
   [streamRequest (turnForm st)]).
Proof.
  unfold sendMessage, canSend. intros -> H.
  assert (E : isEmpty (trim (input st))
              && match file st with None => true | Some _ => false end = false).
  { destruct (isEmpty (trim (input st))), (file st); try discriminate; reflexivity. }
  rewrite E. reflexivity.
Qed.

Lemma outline_patchMessage (id : JsString) (patch : Patch.t) (st : State) :
  outline (patchMessage id patch st) = outline st.
Proof.
  unfold outline, patchMessage. cbn [messages setMessages]. rewrite map_map.
  apply map_ext. intros m. now destruct (eqb (UiMessage.id m) id).
Qed.

Lemma outline_appendMessageText (id : JsString) (piece : JsValue) (st : State) :
  outline (appendMessageText id piece st) = outline st.
Proof.
  unfold outline, appendMessageText. cbn [messages setMessages]. rewrite map_map.
  apply map_ext. intros m. destruct (eqb (UiMessage.id m) id); [|reflexivity].
  now destruct (ToString (UiMessage.text m)), (ToString piece).
Qed.

Lemma handleEvent_outline (assistantId : JsString) (parsed : Parsed.t) (l : Loop.t) :
  outline (loopState (handleEvent assistantId parsed l)) = outline (Loop.ui l).
Proof.
  unfold handleEvent.
  repeat match goal with
         | |- context [if ?c then _ else _] => destruct c
         end;
    cbn [loopState Loop.ui];
    rewrite ?outline_appendMessageText, ?outline_patchMessage; reflexivity.
Qed.

Lemma forEvents_outline (assistantId : JsString) (events : list Parsed.t) (l : Loop.t) :
  outline (loopState (forEvents (handleEvent assistantId) events l)) = outline (Loop.ui l).
Proof.
  revert l; induction events as [|p events IH]; intros l; [reflexivity|].
  cbn [forEvents]. pose proof (handleEvent_outline assistantId p l) as H.
  destruct (handleEvent assistantId p l) as [l1|e l1]; cbn [loopState] in H.
  - now rewrite IH.
  - exact H.
Qed.

Lemma consume_outline (assistantId : JsString) (reads : list (list Byte.byte))
  (failure : option Thrown) (st : State) :
  outline (loopState (consume assistantId reads failure st)) = outline st.
Proof.
  rewrite consume_events.
  pose proof (forEvents_outline assistantId (eventsOf reads)
                {| Loop.hasDelta := false; Loop.gotFinal := false; Loop.ui := st |}) as H.
  destruct (forEvents _ _ _) as [l|e l]; cbn [ending]; [|exact H].
  destruct failure; exact H.
Qed.

(** No step of [sendMessageStreaming] adds, removes or reorders messages. *)
Lemma sendMessageStreaming_outline (fetch : Request.t -> FetchOutcome)
  (formData : FormData) (assistantId : JsString) (st : State) :
  outline (flowState (fst (sendMessageStreaming fetch formData assistantId st)))
  = outline st.
Proof.
  unfold sendMessageStreaming. cbn [fst].
  destruct (fetch _) as [e|r]; [reflexivity|].
  destruct (negb (Response.ok r)); [now destruct (Response.text r)|].
  destruct (Response.body r) as [stream|]; [|reflexivity].
  destruct (negb (includes _ _)); [reflexivity|].
  pose proof (consume_outline assistantId (Stream.chunks stream)
                (Stream.failure stream) st) as H.
  destruct (consume _ _ _ _) as [l|e l]; cbn [loopState] in H; [|exact H].
  destruct (negb (Loop.gotFinal l)); exact H.
Qed.

Lemma patchMessage_shown (id : JsString) (t d : JsValue) (st : State) (m : UiMessage.t) :
  In m (messages (patchMessage id {| Patch.text := Some t; Patch.data := Some d |} st)) ->
  UiMessage.id m = id -> UiMessage.text m = t /\ UiMessage.data m = d.
Proof.
  unfold patchMessage. cbn [messages setMessages]. rewrite in_map_iff.
  intros (m0 & <- & _). destruct (eqb (UiMessage.id m0) id) eqn:E.
  - now split.
  - intros H. apply JsFacts.eqb_eq in H. congruence.
Qed.

(** The first [error] event of a stream, when no [final] event comes
    before it, is where [sendMessageStreaming] stops. *)
Lemma first_error_raises (assistantId : JsString) (st : State)
  (reads : list (list Byte.byte)) (failure : option Thrown)
  (before : list Parsed.t) (parsed : Parsed.t) (after : list Parsed.t) :
  eventsOf reads = before ++ parsed :: after ->
  isEvent "error" parsed = true ->
  forallb (fun p => negb (isEvent "error" p) && negb (isEvent "final" p)) before = true ->
  exists l,
    consume assistantId reads failure st =
    Raise (newError (nullish (member (parseJson (Parsed.data parsed)) (lit "message"))
                             (JString (lit "Error en streaming")))) l.
Proof.
  intros Hev He Hb. rewrite consume_events, Hev, StreamFacts.forEvents_app.
  assert (Hh : forallb harmless before = true).
  { clear -Hb. induction before as [|p before IH]; [reflexivity|].
    simpl in *. apply andb_prop in Hb as [Hp Hb]. rewrite (IH Hb), andb_true_r.
    unfold harmless. apply andb_prop in Hp as [-> ->]. reflexivity. }
  destruct (forEvents_harmless assistantId before
              {| Loop.hasDelta := false; Loop.gotFinal := false; Loop.ui := st |} Hh)
    as (l1 & -> & _).
  cbn [forEvents]. rewrite (handleEvent_error _ _ _ He). cbn [ending]. eauto.
Qed.

End Turn.

(** What a property declared [key?: string] holds in a payload of its
    declared type: a string, or nothing (the key is missing, or null). *)
Definition optionalString (v : JsValue) : bool :=
  match v with
  | JString _ | JUndefined | JNull => true
  | _ => false
  end.

(** C4.  When an [error] event is parsed before any [final] event, its
    payload being of the declared type [StreamError] (a [message] that is
    a string, or none), [sendMessageStreaming] throws an [Error] whose
    message is the [message] field of the payload when that field is a
    string and the fixed text [Error en streaming] otherwise, in whatever
    state it was called; [sendMessage] then replaces the text of the
    assistant message with [Error: ] followed by that message and clears
    its data, the two messages of the turn being there. *)
Theorem stream_error_is_shown {P : Platform} (fetch : Request.t -> FetchOutcome)
  (userId assistantId : JsString) (st : State)
  (reads : list (list Byte.byte)) (failure : option Thrown)
  (before : list Parsed.t) (parsed : Parsed.t) (after : list Parsed.t) :
  loading st = false -> canSend st = true ->
  answersWith fetch (turnForm st) {| Stream.chunks := reads; Stream.failure := failure |} ->
  eventsOf reads = before ++ parsed :: after ->
  isEvent "error" parsed = true ->
  forallb (fun p => negb (isEvent "error" p) && negb (isEvent "final" p)) before = true ->
  let field := member (parseJson (Parsed.data parsed)) (lit "message") in
  optionalString field = true ->
  let message :=
    match field with
    | JString s => s
    | _ => lit "Error en streaming"
    end in
  let st' := fst (sendMessage fetch userId assistantId st) in
  (forall st0, exists st1,
     fst (sendMessageStreaming fetch (turnForm st) assistantId st0)
     = Raise (ErrorObj message) st1)
  /\ outline st' = outline st ++ [(userId, user); (assistantId, assistant)]
  /\ (forall m, In m (messages st') -> UiMessage.id m = assistantId ->
        UiMessage.text m = JString (lit "Error: " ++ message)
        /\ UiMessage.data m = JUndefined).
Proof.
  intros Hl Hs Ha Hev He Hb field Hf message st'.
  assert (Hm : newError (nullish field (JString (lit "Error en streaming")))
               = ErrorObj message).
  { subst message. now destruct field as [| |[|]| | | |]. }
  assert (Hr : forall st0, exists st1,
               fst (sendMessageStreaming fetch (turnForm st) assistantId st0)
               = Raise (ErrorObj message) st1).
  { intros st0.
    destruct (first_error_raises assistantId st0
                reads failure before parsed after Hev He Hb) as (l & Hc).
    fold field in Hc. rewrite Hm in Hc. exists (Loop.ui l).
    rewrite (sendMessageStreaming_stream _ _ assistantId _ _ Ha).
    cbn [fst Stream.chunks Stream.failure]. now rewrite Hc. }
  split; [exact Hr|].
  destruct (Hr (turnStart userId assistantId st)) as (st1 & Hr1).
  pose proof (sendMessageStreaming_outline fetch (turnForm st) assistantId
                (turnStart userId assistantId st)) as Ho.
  subst st'. rewrite (sendMessage_runs fetch userId assistantId st Hl Hs).
  rewrite Hr1 in *. cbn [fst flowState] in *. split.
  - change (outline (patchMessage assistantId
                       {| Patch.text := Some (JString (shownError (ErrorObj message)));
                          Patch.data := Some JUndefined |} st1)
            = outline st ++ [(userId, user); (assistantId, assistant)]).
    rewrite outline_patchMessage, Ho. unfold outline, turnStart.
    cbn [messages setLoading setFile setInput appendMessage setMessages].
    rewrite !map_app, <- app_assoc. reflexivity.
  - intros m Hin Hid.
    apply (patchMessage_shown assistantId _ _ st1 m Hin Hid).
Qed.

(** An [error] event with the message [boom] is shown as [Error: boom]. *)
Lemma stream_error_is_shown_witness :
  let reads := [Examples.sse "start" "{}"; Examples.sse "error" "{'message':'boom'}"] in
  let st := Examples.typing "hola" in
  let st' :=
    fst (sendMessage (P := refPlatform) (Examples.serve (Examples.eventStream reads))
           (lit "u1") (lit "a1") st) in
  (loading st = false /\ canSend st = true)
  /\ outline st' = [(lit "u1", user); (lit "a1", assistant)]
  /\ (forall m, In m (messages st') -> UiMessage.id m = lit "a1" ->
        UiMessage.text m = JString (lit "Error: boom")
        /\ UiMessage.data m = JUndefined).
Proof.
  intros reads st st'. split; [split; reflexivity|].
  exact (proj2 (stream_error_is_shown (P := refPlatform)
                  (Examples.serve (Examples.eventStream reads))
                  (lit "u1") (lit "a1") st reads None
                  [{| Parsed.event := lit "start"; Parsed.data := lit "{}" |}]
                  {| Parsed.event := lit "error";
                     Parsed.data := Examples.text "{'message':'boom'}" |}
                  []
                  eq_refl eq_refl
                  (Examples.serve_answers reads (turnForm st))
                  eq_refl eq_refl eq_refl eq_refl)).
Defined.

(** ** What a submission sends *)

Module FormFacts.
Section WithPlatform.
Context {P : Platform}.

Lemma turnForm_message (st : State) :
  hasField (turnForm st) (lit "message") = negb (isEmpty (trim (input st)))
  /\ (isEmpty (trim (input st)) = false ->
      In (lit "message", FormText (toUSVString (trim (input st)))) (turnForm st)).
Proof.
  unfold turnForm, appendText.
  destruct (truthy (conversationId st)), (ToString (conversationId st)),
           (isEmpty (trim (input st))), (file st);
    cbn [negb ToString]; split; try reflexivity; try discriminate; intros _;
    unfold appendFile; rewrite ?in_app_iff; cbn [In]; auto.
Qed.

Lemma turnForm_file (st : State) :
  hasField (turnForm st) (lit "file")
  = match file st with Some _ => true | None => false end
  /\ (forall f, file st = Some f -> In (lit "file", FormFile f) (turnForm st)).
Proof.
  unfold turnForm, appendText.
  destruct (truthy (conversationId st)), (ToString (conversationId st)),
           (isEmpty (trim (input st))), (file st);
    cbn [negb ToString]; split; try reflexivity; try discriminate;
    intros f [= <-]; unfold appendFile; rewrite ?in_app_iff; cbn [In]; auto.
Qed.


Lemma turnStart_outline (userId assistantId : JsString) (st : State) :
  outline (turnStart userId assistantId st)
  = outline st ++ [(userId, user); (assistantId, assistant)].
Proof.
  unfold outline, turnStart.
  cbn [messages setLoading setFile setInput appendMessage setMessages].
  now rewrite !map_app, <- app_assoc.
Qed.

End WithPlatform.
End FormFacts.

(** C5, as amended.  A submission made while a turn is in progress, or
    with an empty trimmed text and no file, issues no request and appends
    no message.  A submission made while no turn is in progress, with a
    text or a file, appends exactly one user message and one assistant
    message and issues exactly one request: a POST to the streaming
    endpoint whose body is a form that has the [message] field iff the
    trimmed text is not empty, holding that text, and the [file] field
    iff a file is selected, holding that file. *)
Theorem sendMessage_guards {P : Platform} (fetch : Request.t -> FetchOutcome)
  (userId assistantId : JsString) (st : State) :
  (loading st = true \/ (isEmpty (trim (input st)) = true /\ file st = None) ->
   sendMessage fetch userId assistantId st = (st, []))
  /\ (loading st = false ->
      isEmpty (trim (input st)) = false \/ file st <> None ->
      exists request formData,
        snd (sendMessage fetch userId assistantId st) = [request]
        /\ Request.url request = apiBase ++ lit "/api/v1/chat/message/stream"
        /\ Request.method request = lit "POST"
        /\ Request.body request = FormBody formData
        /\ hasField formData (lit "message") = negb (isEmpty (trim (input st)))
        /\ (isEmpty (trim (input st)) = false ->
            In (lit "message", FormText (toUSVString (trim (input st)))) formData)
        /\ hasField formData (lit "file")
           = match file st with Some _ => true | None => false end
        /\ (forall f, file st = Some f -> In (lit "file", FormFile f) formData)
        /\ outline (fst (sendMessage fetch userId assistantId st))
           = outline st ++ [(userId, user); (assistantId, assistant)]).
Proof.
  split.
  - intros H. apply sendMessage_idle. unfold canSend.
    destruct H as [H|[H1 H2]]; [now left|right]. now rewrite H1, H2.
  - intros Hl Hs.
    assert (Hc : canSend st = true).
    { unfold canSend. destruct Hs as [->|Hf]; [reflexivity|].
      destruct (file st); [apply orb_true_r|contradiction]. }
    rewrite (sendMessage_runs fetch userId assistantId st Hl Hc).
    exists (streamRequest (turnForm st)), (turnForm st). cbn [fst snd].
    destruct (FormFacts.turnForm_message st) as (Hm & Hmi).
    destruct (FormFacts.turnForm_file st) as (Hf & Hfi).
    split; [reflexivity|]. split; [reflexivity|]. split; [reflexivity|].
    split; [reflexivity|]. split; [exact Hm|]. split; [exact Hmi|].
    split; [exact Hf|]. split; [exact Hfi|].
    pose proof (sendMessageStreaming_outline fetch (turnForm st) assistantId
                  (turnStart userId assistantId st)) as Ho.
    rewrite FormFacts.turnStart_outline in Ho.
    destruct (fst (sendMessageStreaming _ _ _ _)) as [s|e s]; cbn [flowState] in Ho.
    + exact Ho.
    + change (outline (patchMessage assistantId
                         {| Patch.text := Some (JString (shownError e));
                            Patch.data := Some JUndefined |} s)
              = outline st ++ [(userId, user); (assistantId, assistant)]).
      now rewrite outline_patchMessage.
Qed.

(** A typed text, with no turn in progress, is sent once, in a form that
    holds it. *)
Lemma sendMessage_guards_witness :
  let st := Examples.typing " hola " in
  let fetch := Examples.serve (Examples.eventStream []) in
  (loading st = false /\ isEmpty (trim (input st)) = false)
  /\ snd (sendMessage (P := refPlatform) fetch (lit "u1") (lit "a1") st)
     = [{| Request.url := lit "http://localhost:8000/api/v1/chat/message/stream";
           Request.method := lit "POST";
           Request.headers := [(lit "Accept", lit "text/event-stream")];
           Request.body := FormBody [(lit "message", FormText (lit "hola"))] |}]
  /\ exists request formData,
       snd (sendMessage (P := refPlatform) fetch (lit "u1") (lit "a1") st) = [request]
       /\ Request.url request = lit "http://localhost:8000/api/v1/chat/message/stream"
       /\ Request.method request = lit "POST"
       /\ Request.body request = FormBody formData
       /\ hasField formData (lit "message") = true
       /\ (isEmpty (trim (input st)) = false ->
           In (lit "message", FormText (lit "hola")) formData)
       /\ hasField formData (lit "file") = false
       /\ (forall f, file st = Some f -> In (lit "file", FormFile f) formData)
       /\ outline (fst (sendMessage (P := refPlatform) fetch (lit "u1") (lit "a1") st))
          = [(lit "u1", user); (lit "a1", assistant)].
Proof.
  intros st fetch. split; [split; reflexivity|]. split; [reflexivity|].
  exact (proj2 (sendMessage_guards (P := refPlatform) fetch (lit "u1") (lit "a1") st)
               eq_refl (or_introl eq_refl)).
Defined.

(** C5, as stated, fails on a submission made while a turn is in
    progress: a text is present, and nothing is appended or sent. *)
Lemma busy_submission_sends_nothing :
  let st := setLoading true (Examples.typing "hola") in
  isEmpty (trim (input st)) = false
  /\ sendMessage (P := refPlatform) (Examples.serve (Examples.eventStream []))
       (lit "u1") (lit "a1") st = (st, []).
Proof. split; reflexivity. Qed.

(** ** The conversation identifier *)

Section Conversation.
Context {P : Platform}.






End Conversation.




(** ** The manual correction request *)

(** The text of the object that [saveManualCorrection] sends. *)
Module PayloadFacts.
Section WithPlatform.
Context {P : Platform}.

(** What is written for a text field of the editor. *)
Definition enteredText (key field : JsString) : JsString :=
  quote key ++ lit ":" ++ (if isEmpty field then lit "null" else quote field).

(** What is written for an amount field of the editor. *)
Definition amountText (key field : JsString) : list JsString :=
  if isEmpty field then []
  else match stringify (StringToNumber field) with
       | Some written => [quote key ++ lit ":" ++ written]
       | None => []
       end.

Definition payloadText (r : EditableReceipt.t) : JsString :=
  lit "{" ++
  join (lit ",")
    ([enteredText (lit "vendor_name") (EditableReceipt.vendor_name r);
      enteredText (lit "receipt_number") (EditableReceipt.receipt_number r);
      enteredText (lit "payment_method") (EditableReceipt.payment_method r);
      enteredText (lit "status") (EditableReceipt.status r);
      enteredText (lit "currency") (EditableReceipt.currency r);
      enteredText (lit "issue_date") (EditableReceipt.issue_date r)]
     ++ amountText (lit "subtotal") (EditableReceipt.subtotal r)
     ++ amountText (lit "tax") (EditableReceipt.tax r)
     ++ amountText (lit "total") (EditableReceipt.total r))
  ++ lit "}".

Lemma stringify_payload (r : EditableReceipt.t) :
  stringify (JObject (correctionPayload r)) = Some (payloadText r).
Proof.
  unfold correctionPayload, payloadText, enteredText, amountText.
  destruct (isEmpty (EditableReceipt.subtotal r)),
           (isEmpty (EditableReceipt.tax r)),
           (isEmpty (EditableReceipt.total r)); cbn [negb];
    destruct (isEmpty (EditableReceipt.vendor_name r)),
             (isEmpty (EditableReceipt.receipt_number r)),
             (isEmpty (EditableReceipt.payment_method r)),
             (isEmpty (EditableReceipt.status r)),
             (isEmpty (EditableReceipt.currency r)),
             (isEmpty (EditableReceipt.issue_date r));
    cbn [objSet eqb lit]; cbn -[quote join];
    repeat match goal with
           | |- context [stringify (StringToNumber ?f)] =>
               destruct (stringify (StringToNumber f))
           end;
    reflexivity.
Qed.

End WithPlatform.
End PayloadFacts.

(** C7, as amended.  A manual correction issues one request, a PATCH to
    the receipt, whose body is the text of a JSON object that maps
    [vendor_name], [receipt_number], [payment_method], [status],
    [currency] and [issue_date], in this order, to null when the editor
    field is empty and to the entered string otherwise, followed by
    [subtotal], [tax] and [total] for those whose editor fields are not
    empty, each with what [JSON.stringify] writes for [Number] of the
    entered string: that number when it is finite, and null when it is
    not. *)
Theorem correction_payload_fields {P : Platform} (fetch : Request.t -> FetchOutcome)
  (messageId : JsString) (st : State) (r : EditableReceipt.t) :
  editableReceipt st = Some r ->
  let entered (key field : JsString) :=
    quote key ++ lit ":" ++ (if isEmpty field then lit "null" else quote field) in
  let amount (key field : JsString) :=
    if isEmpty field then []
    else match stringify (StringToNumber field) with
         | Some written => [quote key ++ lit ":" ++ written]
         | None => []
         end in
  (exists request,
     snd (saveManualCorrection fetch messageId st) = [request]
     /\ Request.method request = lit "PATCH"
     /\ Request.url request = apiBase ++ lit "/api/v1/receipts/" ++ EditableReceipt.id r
     /\ Request.body request
        = JsonBody
            (Some (lit "{" ++
                   join (lit ",")
                     ([entered (lit "vendor_name") (EditableReceipt.vendor_name r);
                       entered (lit "receipt_number") (EditableReceipt.receipt_number r);
                       entered (lit "payment_method") (EditableReceipt.payment_method r);
                       entered (lit "status") (EditableReceipt.status r);
                       entered (lit "currency") (EditableReceipt.currency r);
                       entered (lit "issue_date") (EditableReceipt.issue_date r)]
                      ++ amount (lit "subtotal") (EditableReceipt.subtotal r)
                      ++ amount (lit "tax") (EditableReceipt.tax r)
                      ++ amount (lit "total") (EditableReceipt.total r))
                   ++ lit "}")))
  /\ (forall key field n,
        isEmpty field = false -> StringToNumber field = JNumber n ->
        amount key field
        = [quote key ++ lit ":" ++ (if isFinite n then n else lit "null")]).
Proof.
  intros Hr entered amount. split.
  - exists (correctionRequest r).
    split; [unfold saveManualCorrection; now rewrite Hr|].
    split; [reflexivity|]. split; [reflexivity|].
    unfold correctionRequest. cbn [Request.body].
    rewrite PayloadFacts.stringify_payload. reflexivity.
  - intros key field n He Hn. subst amount. cbn beta. now rewrite He, Hn.
Qed.

(** A receipt with two empty text fields and one empty amount. *)
Lemma correction_payload_fields_witness :
  let r :=
    {| EditableReceipt.id := lit "r1";
       EditableReceipt.vendor_name := lit "Tienda";
       EditableReceipt.receipt_number := [];
       EditableReceipt.payment_method := lit "cash";
       EditableReceipt.status := lit "processed";
       EditableReceipt.currency := lit "PEN";
       EditableReceipt.issue_date := [];
       EditableReceipt.subtotal := lit "10.50";
       EditableReceipt.tax := [];
       EditableReceipt.total := lit "12" |} in
  let st := setEditableReceipt (Some r) initialState in
  editableReceipt st = Some r
  /\ snd (saveManualCorrection (P := refPlatform)
            (Examples.serve (Examples.refusal "{}")) (lit "m1") st)
     = [{| Request.url := lit "http://localhost:8000/api/v1/receipts/r1";
           Request.method := lit "PATCH";
           Request.headers := [(lit "Content-Type", lit "application/json")];
           Request.body :=
             JsonBody
               (Some (Examples.text
                        "{'vendor_name':'Tienda','receipt_number':null,'payment_method':'cash','status':'processed','currency':'PEN','issue_date':null,'subtotal':10.5,'total':12}")) |}]
  /\ exists request,
       snd (saveManualCorrection (P := refPlatform)
              (Examples.serve (Examples.refusal "{}")) (lit "m1") st) = [request]
       /\ Request.method request = lit "PATCH"
       /\ Request.url request = lit "http://localhost:8000/api/v1/receipts/r1"
       /\ Request.body request
          = JsonBody
              (Some (Examples.text
                       "{'vendor_name':'Tienda','receipt_number':null,'payment_method':'cash','status':'processed','currency':'PEN','issue_date':null,'subtotal':10.5,'total':12}")).
Proof.
  intros r st. split; [reflexivity|]. split; [reflexivity|].
  exact (proj1 (correction_payload_fields (P := refPlatform)
                  (Examples.serve (Examples.refusal "{}")) (lit "m1") st r eq_refl)).
Defined.

(** C7, as stated, fails on an amount that [Number] does not read: the
    numeric conversion of the entered string is NaN, and the body holds
    null under that key. *)
Lemma unread_amount_is_sent_as_null :
  let r :=
    {| EditableReceipt.id := lit "r1";
       EditableReceipt.vendor_name := lit "Tienda";
       EditableReceipt.receipt_number := [];
       EditableReceipt.payment_method := [];
       EditableReceipt.status := lit "processed";
       EditableReceipt.currency := lit "PEN";
       EditableReceipt.issue_date := [];
       EditableReceipt.subtotal := [];
       EditableReceipt.tax := lit "abc";
       EditableReceipt.total := lit "12,50" |} in
  let st := setEditableReceipt (Some r) initialState in
  StringToNumber (Platform := refPlatform) (lit "abc") = JNumber (lit "NaN")
  /\ StringToNumber (Platform := refPlatform) (lit "12,50") = JNumber (lit "NaN")
  /\ map Request.body
       (snd (saveManualCorrection (P := refPlatform)
               (Examples.serve (Examples.refusal "{}")) (lit "m1") st))
     = [JsonBody
          (Some (Examples.text
                   "{'vendor_name':'Tienda','receipt_number':null,'payment_method':null,'status':'processed','currency':'PEN','issue_date':null,'tax':null,'total':null}"))].
Proof. repeat split. Qed.

(** ** A refused request *)

(** C8, as amended.  On a response that is not ok, [sendMessageStreaming]
    throws without reading the stream, leaving the state as it was: what
    [response.text()] rejects with when the body cannot be read, and
    otherwise an [Error] whose message, the body being of its declared
    type (an [error.message] that is a string, or none), is the string at
    [error.message] when the body parses as JSON and holds one that is
    not empty; it is the raw body text otherwise, and
    [Error enviando mensaje] when that text is empty. *)
Theorem refused_request_message {P : Platform} (fetch : Request.t -> FetchOutcome)
  (formData : FormData) (assistantId : JsString) (st : State)
  (response : Response.t) :
  fetch (streamRequest formData) = Resolved response ->
  Response.ok response = false ->
  (forall e, Response.text response = inl e ->
     sendMessageStreaming fetch formData assistantId st
     = (Raise e st, [streamRequest formData]))
  /\ (forall raw, Response.text response = inr raw ->
      let field := member (member (parseJson raw) (lit "error")) (lit "message") in
      optionalString field = true ->
      let otherwise := if isEmpty raw then lit "Error enviando mensaje" else raw in
      let message :=
        match field with
        | JString s => if isEmpty s then otherwise else s
        | _ => otherwise
        end in
      sendMessageStreaming fetch formData assistantId st
      = (Raise (ErrorObj message) st, [streamRequest formData])).
Proof.
  intros Hf Hok. split.
  - intros e He. unfold sendMessageStreaming. now rewrite Hf, Hok, He.
  - intros raw Hraw field Ho otherwise message.
    unfold sendMessageStreaming. rewrite Hf, Hok, Hraw. cbn [negb]. f_equal. f_equal.
    unfold parseApiError. fold field. subst message otherwise. unfold orElse.
    destruct field as [| |[|]| |[|x s]| |]; try discriminate Ho;
      cbn [truthy isEmpty negb]; destruct raw; reflexivity.
Qed.

(** A refusal with a structured error shows its message. *)
Lemma refused_request_message_witness :
  let body := "{'error':{'message':'Archivo no soportado'}}"%string in
  let response := Examples.refusal body in
  Response.ok response = false
  /\ sendMessageStreaming (P := refPlatform) (Examples.serve response) []
       (lit "a1") (Examples.waiting "a1")
     = (Raise (ErrorObj (lit "Archivo no soportado")) (Examples.waiting "a1"),
        [streamRequest (P := refPlatform) []]).
Proof.
  intros body response. split; [reflexivity|].
  exact (proj2 (refused_request_message (P := refPlatform) (Examples.serve response) []
                  (lit "a1") (Examples.waiting "a1") response eq_refl eq_refl)
               (Examples.text body) eq_refl eq_refl).
Defined.

(** C8, as stated, fails on a body whose [error.message] is the empty
    string: the thrown message is the raw body text, neither that string
    nor the fixed text. *)
Lemma empty_error_message_shows_body :
  let body := "{'error':{'message':''}}"%string in
  member (member (parseJson (P := refPlatform) (Examples.text body)) (lit "error"))
    (lit "message") = JString []
  /\ fst (sendMessageStreaming (P := refPlatform) (Examples.serve (Examples.refusal body))
            [] (lit "a1") (Examples.waiting "a1"))
     = Raise (ErrorObj (Examples.text body)) (Examples.waiting "a1")
  /\ Examples.text body <> []
  /\ Examples.text body <> lit "Error enviando mensaje".
Proof.
  intros body. split; [reflexivity|]. split; [vm_compute; reflexivity|].
  split; vm_compute; discriminate.
Qed.

(** * The rest of the component

    What a turn leaves alone, how each failure is shown, and the receipt
    editor: [extractReceiptId], [toEditableReceipt], [loadReceiptForEdit],
    the field handlers of the editor and the end of
    [saveManualCorrection]. *)

(** ** What a turn leaves alone *)

(** [m'] is [m] rewritten by a turn that writes under [id]: same author,
    and the same message when it is filed under another identifier. *)
Definition rewritten (id : JsString) (m m' : UiMessage.t) : Prop :=
  UiMessage.id m' = UiMessage.id m
  /\ UiMessage.role m' = UiMessage.role m
  /\ (UiMessage.id m <> id -> m' = m).

(** [st'] is [st] but for the identifier of the conversation and for the
    text and data of the messages filed under [id]. *)
Definition onlyRewrites (id : JsString) (st st' : State) : Prop :=
  input st' = input st
  /\ file st' = file st
  /\ loading st' = loading st
  /\ editReceiptId st' = editReceiptId st
  /\ editableReceipt st' = editableReceipt st
  /\ editorLoading st' = editorLoading st
  /\ editorMessage st' = editorMessage st
  /\ Forall2 (rewritten id) (messages st) (messages st').

Module RewriteFacts.

Lemma rewritten_refl (id : JsString) (m : UiMessage.t) : rewritten id m m.
Proof. now repeat split. Qed.

Lemma rewritten_trans (id : JsString) (a b c : UiMessage.t) :
  rewritten id a b -> rewritten id b c -> rewritten id a c.
Proof.
  intros (Hi & Hr & Hk) (Hi' & Hr' & Hk'). repeat split; try congruence.
  intros Hne. rewrite <- (Hk Hne). apply Hk'. now rewrite Hi.
Qed.

Lemma Forall2_refl_on (A : Type) (R : A -> A -> Prop) (l : list A) :
  (forall x, R x x) -> Forall2 R l l.
Proof. intros H. induction l; constructor; auto. Qed.

Lemma Forall2_trans_on (A : Type) (R : A -> A -> Prop) (l1 l2 l3 : list A) :
  (forall x y z, R x y -> R y z -> R x z) ->
  Forall2 R l1 l2 -> Forall2 R l2 l3 -> Forall2 R l1 l3.
Proof.
  intros Ht H12. revert l3. induction H12 as [|x y l1 l2 Hxy _ IH]; intros l3 H23.
  - inversion H23. constructor.
  - inversion H23 as [|y' z l2' l3' Hyz Hrest]; subst. constructor; eauto.
Qed.

Lemma Forall2_map_r (A : Type) (R : A -> A -> Prop) (f : A -> A) (l : list A) :
  (forall x, R x (f x)) -> Forall2 R l (map f l).
Proof. intros H. induction l; simpl; constructor; auto. Qed.

Lemma onlyRewrites_refl (id : JsString) (st : State) : onlyRewrites id st st.
Proof.
  repeat split. apply Forall2_refl_on. apply rewritten_refl.
Qed.

Lemma onlyRewrites_trans (id : JsString) (a b c : State) :
  onlyRewrites id a b -> onlyRewrites id b c -> onlyRewrites id a c.
Proof.
  intros (H1 & H2 & H3 & H4 & H5 & H6 & H7 & H8)
         (K1 & K2 & K3 & K4 & K5 & K6 & K7 & K8).
  repeat split; try congruence.
  eapply Forall2_trans_on; eauto. apply rewritten_trans.
Qed.

Lemma onlyRewrites_patchMessage (id : JsString) (patch : Patch.t) (st : State) :
  onlyRewrites id st (patchMessage id patch st).
Proof.
  repeat split. unfold patchMessage. cbn [messages setMessages].
  apply Forall2_map_r. intros m.
  destruct (eqb (UiMessage.id m) id) eqn:E; [|apply rewritten_refl].
  repeat split. intros Hne. apply JsFacts.eqb_eq in E. contradiction.
Qed.

Lemma onlyRewrites_appendMessageText (id : JsString) (piece : JsValue) (st : State) :
  onlyRewrites id st (appendMessageText id piece st).
Proof.
  repeat split. unfold appendMessageText. cbn [messages setMessages].
  apply Forall2_map_r. intros m.
  destruct (eqb (UiMessage.id m) id) eqn:E; [|apply rewritten_refl].
  destruct (ToString (UiMessage.text m)), (ToString piece);
    try apply rewritten_refl.
  repeat split. intros Hne. apply JsFacts.eqb_eq in E. contradiction.
Qed.

Lemma onlyRewrites_setConversationId (id : JsString) (v : JsValue) (st : State) :
  onlyRewrites id st (setConversationId v st).
Proof.
  repeat split. apply Forall2_refl_on. apply rewritten_refl.
Qed.

End RewriteFacts.

Section Untouched.
Context {P : Platform}.
Import RewriteFacts.

Lemma handleEvent_onlyRewrites (assistantId : JsString) (parsed : Parsed.t) (l : Loop.t) :
  onlyRewrites assistantId (Loop.ui l) (loopState (handleEvent assistantId parsed l)).
Proof.
  unfold handleEvent.
  repeat match goal with
         | |- context [if ?c then _ else _] => destruct c
         end;
    cbn [loopState Loop.ui];
    try apply onlyRewrites_refl;
    try apply onlyRewrites_patchMessage;
    try apply onlyRewrites_appendMessageText.
  - eapply onlyRewrites_trans;
      [apply onlyRewrites_patchMessage|apply onlyRewrites_appendMessageText].
  - eapply onlyRewrites_trans;
      [apply onlyRewrites_setConversationId|apply onlyRewrites_patchMessage].
Qed.

Lemma forEvents_onlyRewrites (assistantId : JsString) (events : list Parsed.t) (l : Loop.t) :
  onlyRewrites assistantId (Loop.ui l)
    (loopState (forEvents (handleEvent assistantId) events l)).
Proof.
  revert l; induction events as [|p events IH]; intros l; [apply onlyRewrites_refl|].
  cbn [forEvents]. pose proof (handleEvent_onlyRewrites assistantId p l) as H.
  destruct (handleEvent assistantId p l) as [l1|e l1]; cbn [loopState] in H.
  - eapply onlyRewrites_trans; [exact H|apply IH].
  - exact H.
Qed.

Lemma sendMessageStreaming_onlyRewrites (fetch : Request.t -> FetchOutcome)
  (formData : FormData) (assistantId : JsString) (st : State) :
  onlyRewrites assistantId st
    (flowState (fst (sendMessageStreaming fetch formData assistantId st))).
Proof.
  unfold sendMessageStreaming. cbn [fst].
  destruct (fetch _) as [e|r]; [apply onlyRewrites_refl|].
  destruct (negb (Response.ok r));
    [destruct (Response.text r); apply onlyRewrites_refl|].
  destruct (Response.body r) as [stream|]; [|apply onlyRewrites_refl].
  destruct (negb (includes _ _)); [apply onlyRewrites_refl|].
  rewrite consume_events.
  pose proof (forEvents_onlyRewrites assistantId (eventsOf (Stream.chunks stream))
                {| Loop.hasDelta := false; Loop.gotFinal := false; Loop.ui := st |}) as H.
  cbn [Loop.ui] in H.
  destruct (forEvents _ _ _) as [l|e l]; cbn [ending loopState] in *; [|exact H].
  destruct (Stream.failure stream); [exact H|].
  destruct (negb (Loop.gotFinal l)); exact H.
Qed.

End Untouched.

Section TurnEnds.
Context {P : Platform}.
Import RewriteFacts.

(** The state that [sendMessage] leaves is the state in which it awaited
    the stream, but for the loading flag, the identifier of the
    conversation and the messages filed under the assistant's
    identifier. *)
Lemma sendMessage_onlyRewrites (fetch : Request.t -> FetchOutcome)
  (userId assistantId : JsString) (st : State) :
  loading st = false -> canSend st = true ->
  exists s,
    fst (sendMessage fetch userId assistantId st) = setLoading false s
    /\ onlyRewrites assistantId (turnStart userId assistantId st) s.
Proof.
  intros Hl Hs. rewrite (sendMessage_runs fetch userId assistantId st Hl Hs).
  cbn [fst]. eexists. split; [reflexivity|].
  pose proof (sendMessageStreaming_onlyRewrites fetch (turnForm st) assistantId
                (turnStart userId assistantId st)) as H.
  destruct (fst (sendMessageStreaming _ _ _ _)) as [s|e s]; cbn [flowState] in H.
  - exact H.
  - eapply onlyRewrites_trans; [exact H|apply onlyRewrites_patchMessage].
Qed.

End TurnEnds.

(** X1.  Whatever the network does, a submission that [sendMessage]
    accepts ends with the loading flag down, the input box empty and no
    file selected, and leaves the receipt editor as it was. *)
Theorem sendMessage_settles {P : Platform} (fetch : Request.t -> FetchOutcome)
  (userId assistantId : JsString) (st : State) :
  loading st = false -> canSend st = true ->
  let st' := fst (sendMessage fetch userId assistantId st) in
  loading st' = false /\ input st' = [] /\ file st' = None
  /\ editReceiptId st' = editReceiptId st
  /\ editableReceipt st' = editableReceipt st
  /\ editorLoading st' = editorLoading st
  /\ editorMessage st' = editorMessage st.
Proof.
  intros Hl Hs st'. subst st'.
  destruct (sendMessage_onlyRewrites fetch userId assistantId st Hl Hs)
    as (s & -> & H1 & H2 & H3 & H4 & H5 & H6 & H7 & _).
  cbn [loading input file editReceiptId editableReceipt editorLoading
       editorMessage setLoading].
  rewrite H1, H2, H4, H5, H6, H7. repeat split.
Qed.

(** A turn whose request is rejected still settles. *)
Lemma sendMessage_settles_witness :
  let st := setFile (Some {| File.name := lit "a.txt"; File.content := [] |})
              (Examples.typing "hola") in
  let st' := fst (sendMessage (P := refPlatform) (fun _ => Rejected NonError)
                    (lit "u1") (lit "a1") st) in
  (loading st = false /\ canSend st = true)
  /\ loading st' = false /\ input st' = [] /\ file st' = None.
Proof.
  intros st st'. split; [split; reflexivity|].
  pose proof (sendMessage_settles (P := refPlatform) (fun _ => Rejected NonError)
                (lit "u1") (lit "a1") st eq_refl eq_refl) as H.
  cbv zeta in H. destruct H as (H1 & H2 & H3 & _). auto.
Defined.

(** X2.  A turn appends its two messages after the earlier ones and keeps
    every earlier message in its place with its author; a message filed
    under another identifier than the assistant's is kept as it is, and
    so is the user message that the turn appends. *)
Theorem sendMessage_keeps_history {P : Platform} (fetch : Request.t -> FetchOutcome)
  (userId assistantId : JsString) (st : State) :
  loading st = false -> canSend st = true ->
  exists kept u a,
    messages (fst (sendMessage fetch userId assistantId st)) = kept ++ [u; a]
    /\ Forall2 (rewritten assistantId) (messages st) kept
    /\ rewritten assistantId (userMessage userId st) u
    /\ UiMessage.id a = assistantId /\ UiMessage.role a = assistant.
Proof.
  intros Hl Hs.
  destruct (sendMessage_onlyRewrites fetch userId assistantId st Hl Hs)
    as (s & -> & _ & _ & _ & _ & _ & _ & _ & H).
  cbn [messages setLoading]. unfold turnStart in H.
  cbn [messages setLoading setFile setInput appendMessage setMessages] in H.
  rewrite <- app_assoc in H. cbn [app] in H.
  apply Forall2_app_inv_l in H as (kept & tail & Hk & Ht & ->).
  inversion Ht as [|u0 u l0 l1 Hu Ht1]; subst.
  inversion Ht1 as [|a0 a l2 l3 Ha Ht2]; subst.
  inversion Ht2; subst.
  exists kept, u, a. destruct Ha as (Hi & Hr & _). auto.
Qed.

(** An earlier exchange survives a later turn that fails. *)
Lemma sendMessage_keeps_history_witness :
  let earlier :=
    [{| UiMessage.id := lit "u0"; UiMessage.role := user;
        UiMessage.text := JString (lit "resumen"); UiMessage.data := JUndefined |};
     {| UiMessage.id := lit "a0"; UiMessage.role := assistant;
        UiMessage.text := JString (lit "listo"); UiMessage.data := JNull |}] in
  let st := setMessages (fun _ => earlier) (Examples.typing "hola") in
  let reads := [Examples.sse "start" "{}"; Examples.sse "error" "{}"] in
  (loading st = false /\ canSend st = true)
  /\ exists u a,
       messages (fst (sendMessage (P := refPlatform)
                        (Examples.serve (Examples.eventStream reads))
                        (lit "u1") (lit "a1") st))
       = earlier ++ [u; a]
       /\ u = userMessage (lit "u1") st.
Proof.
  intros earlier st reads. split; [split; reflexivity|].
  destruct (sendMessage_keeps_history (P := refPlatform)
              (Examples.serve (Examples.eventStream reads))
              (lit "u1") (lit "a1") st eq_refl eq_refl)
    as (kept & u & a & Hm & Hk & (_ & _ & Hu) & _).
  exists u, a. split.
  - rewrite Hm. f_equal.
    inversion Hk as [|m0 k0 l0 l1 (_ & _ & H0) Hk1]; subst.
    inversion Hk1 as [|m1 k1 l2 l3 (_ & _ & H1) Hk2]; subst.
    inversion Hk2; subst.
    rewrite H0, H1 by discriminate. reflexivity.
  - apply Hu. discriminate.
Defined.

(** ** How each failure is shown *)

Section Failures.
Context {P : Platform}.

(** What [sendMessageStreaming] throws is what the assistant message
    shows. *)
Lemma sendMessage_shows (fetch : Request.t -> FetchOutcome)
  (userId assistantId : JsString) (st : State) (e : Thrown) (s : State) :
  loading st = false -> canSend st = true ->
  fst (sendMessageStreaming fetch (turnForm st) assistantId
         (turnStart userId assistantId st)) = Raise e s ->
  forall m, In m (messages (fst (sendMessage fetch userId assistantId st))) ->
    UiMessage.id m = assistantId ->
    UiMessage.text m = JString (shownError e) /\ UiMessage.data m = JUndefined.
Proof.
  intros Hl Hs Hr m. rewrite (sendMessage_runs fetch userId assistantId st Hl Hs).
  rewrite Hr. cbn [fst]. intros Hin Hid.
  exact (patchMessage_shown assistantId _ _ s m Hin Hid).
Qed.

Lemma harmless_plain (events : list Parsed.t) :
  existsb (isEvent "final") events = false ->
  existsb (isEvent "error") events = false ->
  forallb harmless events = true.
Proof.
  induction events as [|p events IH]; [reflexivity|].
  simpl. intros Hf He. apply orb_false_elim in Hf as [Hf1 Hf2].
  apply orb_false_elim in He as [He1 He2].
  rewrite (IH Hf2 He2). unfold harmless. now rewrite He1, Hf1.
Qed.

End Failures.

(** X3.  Every way in which a turn can fail before its [final] event is
    shown in the assistant message, with its data cleared: a rejected
    fetch shows the message of its error, or a fixed text when what was
    thrown is not an [Error]; a response without a body, a response that
    is not an event stream, a stream that ends with no [final] and no
    [error] event, and a read that is rejected each show their own
    message. *)
Theorem failures_are_shown {P : Platform} (fetch : Request.t -> FetchOutcome)
  (userId assistantId : JsString) (st : State) :
  loading st = false -> canSend st = true ->
  let shows (t : JsString) :=
    forall m, In m (messages (fst (sendMessage fetch userId assistantId st))) ->
      UiMessage.id m = assistantId ->
      UiMessage.text m = JString (lit "Error: " ++ t)
      /\ UiMessage.data m = JUndefined in
  let request := streamRequest (turnForm st) in
  (forall message, fetch request = Rejected (ErrorObj message) -> shows message)
  /\ (fetch request = Rejected NonError ->
      shows (lit "No se pudo completar la solicitud"))
  /\ (forall r, fetch request = Resolved r -> Response.ok r = true ->
        Response.body r = None -> shows (lit "El servidor no devolvio stream"))
  /\ (forall r stream, fetch request = Resolved r -> Response.ok r = true ->
        Response.body r = Some stream ->
        includes (lit "text/event-stream")
          (match Response.contentType r with Some c => c | None => [] end) = false ->
        shows (lit "Respuesta inesperada del servidor (sin SSE)"))
  /\ (forall reads,
        answersWith fetch (turnForm st)
          {| Stream.chunks := reads; Stream.failure := None |} ->
        existsb (isEvent "final") (eventsOf reads) = false ->
        existsb (isEvent "error") (eventsOf reads) = false ->
        shows (lit "El stream finalizo sin evento final"))
  /\ (forall reads message,
        answersWith fetch (turnForm st)
          {| Stream.chunks := reads; Stream.failure := Some (ErrorObj message) |} ->
        forallb harmless (eventsOf reads) = true ->
        shows message).
Proof.
  intros Hl Hs shows request. subst shows request.
  assert (Hshow : forall e s,
             fst (sendMessageStreaming fetch (turnForm st) assistantId
                    (turnStart userId assistantId st)) = Raise e s ->
             forall m, In m (messages (fst (sendMessage fetch userId assistantId st))) ->
               UiMessage.id m = assistantId ->
               UiMessage.text m = JString (shownError e)
               /\ UiMessage.data m = JUndefined).
  { intros e s. apply sendMessage_shows; assumption. }
  split; [|split; [|split; [|split; [|split]]]].
  - intros message Hf m Hin Hid. eapply (Hshow (ErrorObj message)); eauto.
    unfold sendMessageStreaming. cbn [fst]. now rewrite Hf.
  - intros Hf m Hin Hid. eapply (Hshow NonError); eauto.
    unfold sendMessageStreaming. cbn [fst]. now rewrite Hf.
  - intros r Hf Hok Hb m Hin Hid. eapply (Hshow (ErrorObj _)); eauto.
    unfold sendMessageStreaming. cbn [fst]. now rewrite Hf, Hok, Hb.
  - intros r stream Hf Hok Hb Hc m Hin Hid. eapply (Hshow (ErrorObj _)); eauto.
    unfold sendMessageStreaming. cbn [fst]. now rewrite Hf, Hok, Hb, Hc.
  - intros reads Ha Hnf Hne m Hin Hid.
    destruct (forEvents_harmless assistantId (eventsOf reads)
                {| Loop.hasDelta := false; Loop.gotFinal := false;
                   Loop.ui := turnStart userId assistantId st |}
                (harmless_plain _ Hnf Hne)) as (l & Hrun & Hg).
    eapply (Hshow (ErrorObj _) (Loop.ui l)); eauto.
    rewrite (sendMessageStreaming_stream _ _ assistantId _ _ Ha).
    cbn [fst Stream.chunks Stream.failure]. rewrite consume_events, Hrun.
    cbn [ending]. rewrite Hg, Hnf. reflexivity.
  - intros reads message Ha Hh m Hin Hid.
    destruct (forEvents_harmless assistantId (eventsOf reads)
                {| Loop.hasDelta := false; Loop.gotFinal := false;
                   Loop.ui := turnStart userId assistantId st |} Hh)
      as (l & Hrun & Hg).
    eapply (Hshow (ErrorObj message) (Loop.ui l)); eauto.
    rewrite (sendMessageStreaming_stream _ _ assistantId _ _ Ha).
    cbn [fst Stream.chunks Stream.failure]. rewrite consume_events, Hrun.
    reflexivity.
Qed.

(** A stream that stops after [start], and a fetch rejected with
    something that is not an [Error]. *)
Lemma failures_are_shown_witness :
  let st := Examples.typing "hola" in
  let reads := [Examples.sse "start" "{}"] in
  let ended :=
    fst (sendMessage (P := refPlatform) (Examples.serve (Examples.eventStream reads))
           (lit "u1") (lit "a1") st) in
  let rejected :=
    fst (sendMessage (P := refPlatform) (fun _ => Rejected NonError)
           (lit "u1") (lit "a1") st) in
  (loading st = false /\ canSend st = true)
  /\ (forall m, In m (messages ended) -> UiMessage.id m = lit "a1" ->
        UiMessage.text m = JString (lit "Error: El stream finalizo sin evento final")
        /\ UiMessage.data m = JUndefined)
  /\ (forall m, In m (messages rejected) -> UiMessage.id m = lit "a1" ->
        UiMessage.text m = JString (lit "Error: No se pudo completar la solicitud")
        /\ UiMessage.data m = JUndefined).
Proof.
  intros st reads ended rejected. split; [split; reflexivity|]. split.
  - exact (proj1 (proj2 (proj2 (proj2 (proj2
             (failures_are_shown (P := refPlatform)
                (Examples.serve (Examples.eventStream reads))
                (lit "u1") (lit "a1") st eq_refl eq_refl)))))
             reads (Examples.serve_answers reads (turnForm st)) eq_refl eq_refl).
  - exact (proj1 (proj2
             (failures_are_shown (P := refPlatform) (fun _ => Rejected NonError)
                (lit "u1") (lit "a1") st eq_refl eq_refl))
             eq_refl).
Defined.

(** ** A block that is not closed *)

Lemma blocksOf_none (text : JsString) :
  breakOn [LF; LF] text = None -> sseEvents text = [].
Proof.
  intros H. unfold sseEvents. now rewrite (StreamFacts.blocksOf_open _ H).
Qed.

(** X4.  The loop never handles the block that the stream leaves open: a
    stream whose text holds no blank line, whatever it carries, has no
    event, so [sendMessageStreaming] changes nothing and throws that the
    stream ended without a [final] event.  Such is a stream whose lines end
    in carriage return and line feed. *)
Theorem open_block_is_dropped {P : Platform} (fetch : Request.t -> FetchOutcome)
  (formData : FormData) (assistantId : JsString) (st : State)
  (reads : list (list Byte.byte)) :
  answersWith fetch formData {| Stream.chunks := reads; Stream.failure := None |} ->
  breakOn [LF; LF] (textOf reads) = None ->
  eventsOf reads = []
  /\ fst (sendMessageStreaming fetch formData assistantId st)
     = Raise (ErrorObj (lit "El stream finalizo sin evento final")) st.
Proof.
  intros Ha Hb.
  assert (He : eventsOf reads = []) by (apply blocksOf_none; exact Hb).
  split; [exact He|].
  rewrite (sendMessageStreaming_stream _ _ assistantId st _ Ha).
  cbn [fst Stream.chunks Stream.failure]. rewrite consume_events, He. reflexivity.
Qed.

(** A [final] event written with carriage returns, and one that lacks its
    closing blank line. *)
Lemma open_block_is_dropped_witness :
  let crlf := [Byte.x0d; Byte.x0a] in
  let dos :=
    [Examples.wire "event: final" ++ crlf
       ++ Examples.wire "data: {'conversation_id':'c1','assistant_message':'hola'}"
       ++ crlf ++ crlf] in
  let cut :=
    [Examples.wire "event: final" ++ [Byte.x0a]
       ++ Examples.wire "data: {'conversation_id':'c1','assistant_message':'hola'}"
       ++ [Byte.x0a]] in
  fst (sendMessageStreaming (P := refPlatform)
         (Examples.serve (Examples.eventStream dos)) [] (lit "a1") (Examples.waiting "a1"))
  = Raise (ErrorObj (lit "El stream finalizo sin evento final")) (Examples.waiting "a1")
  /\ fst (sendMessageStreaming (P := refPlatform)
            (Examples.serve (Examples.eventStream cut)) [] (lit "a1") (Examples.waiting "a1"))
     = Raise (ErrorObj (lit "El stream finalizo sin evento final")) (Examples.waiting "a1").
Proof.
  intros crlf dos cut. split.
  - exact (proj2 (open_block_is_dropped (P := refPlatform)
                    (Examples.serve (Examples.eventStream dos)) [] (lit "a1")
                    (Examples.waiting "a1") dos (Examples.serve_answers dos [])
                    eq_refl)).
  - exact (proj2 (open_block_is_dropped (P := refPlatform)
                    (Examples.serve (Examples.eventStream cut)) [] (lit "a1")
                    (Examples.waiting "a1") cut (Examples.serve_answers cut [])
                    eq_refl)).
Defined.

(** ** A turn that completes *)

(** X5.  When the last event of a stream is a readable [final] event and
    nothing before it throws, the turn completes and the assistant message
    shows the [assistant_message] and the [data] of that payload, whatever
    the deltas had written; the identifier of the conversation is the one
    of the payload. *)
Theorem final_overrides_deltas {P : Platform} (fetch : Request.t -> FetchOutcome)
  (userId assistantId : JsString) (st : State)
  (reads : list (list Byte.byte)) (before : list Parsed.t) (parsed : Parsed.t) :
  loading st = false -> canSend st = true ->
  answersWith fetch (turnForm st) {| Stream.chunks := reads; Stream.failure := None |} ->
  eventsOf reads = before ++ [parsed] ->
  forallb harmless before = true ->
  isEvent "final" parsed = true -> readable parsed = true ->
  let payload := parseJson (Parsed.data parsed) in
  let st' := fst (sendMessage fetch userId assistantId st) in
  completed (fst (sendMessageStreaming fetch (turnForm st) assistantId
                    (turnStart userId assistantId st))) = true
  /\ conversationId st' = member payload (lit "conversation_id")
  /\ (forall m, In m (messages st') -> UiMessage.id m = assistantId ->
        UiMessage.text m = member payload (lit "assistant_message")
        /\ UiMessage.data m = member payload (lit "data")).
Proof.
  intros Hl Hs Ha Hev Hb Hf Hr payload st'.
  assert (Hrun : exists l1,
             fst (sendMessageStreaming fetch (turnForm st) assistantId
                    (turnStart userId assistantId st))
             = Next (patchMessage assistantId
                       {| Patch.text := Some (member payload (lit "assistant_message"));
                          Patch.data := Some (member payload (lit "data")) |}
                       (setConversationId (member payload (lit "conversation_id"))
                                          (Loop.ui l1)))).
  { rewrite (sendMessageStreaming_stream _ _ assistantId _ _ Ha).
    cbn [fst Stream.chunks Stream.failure].
    rewrite consume_events, Hev, StreamFacts.forEvents_app.
    destruct (forEvents_harmless assistantId before
                {| Loop.hasDelta := false; Loop.gotFinal := false;
                   Loop.ui := turnStart userId assistantId st |} Hb)
      as (l1 & -> & _).
    exists l1. cbn [forEvents]. rewrite (handleEvent_final _ _ _ Hf).
    unfold readable in Hr. cbn zeta. rewrite Hr. reflexivity. }
  destruct Hrun as (l1 & Hrun).
  subst st'. rewrite (sendMessage_runs fetch userId assistantId st Hl Hs).
  rewrite Hrun. cbn [fst completed]. split; [reflexivity|]. split; [reflexivity|].
  intros m Hin Hid.
  exact (patchMessage_shown assistantId _ _ _ m Hin Hid).
Qed.

(** Two deltas and then a final event that says something else. *)
Lemma final_overrides_deltas_witness :
  let reads :=
    [Examples.sse "start" "{}"; Examples.sse "delta" "{'content':'Ho'}";
     Examples.sse "delta" "{'content':'la'}";
     Examples.sse "final"
       "{'conversation_id':'c1','assistant_message':'Adios','data':{'id':'r1'}}"] in
  let st := Examples.typing "hola" in
  let st' :=
    fst (sendMessage (P := refPlatform) (Examples.serve (Examples.eventStream reads))
           (lit "u1") (lit "a1") st) in
  (loading st = false /\ canSend st = true)
  /\ conversationId st' = JString (lit "c1")
  /\ (forall m, In m (messages st') -> UiMessage.id m = lit "a1" ->
        UiMessage.text m = JString (lit "Adios")
        /\ UiMessage.data m = JObject [(lit "id", JString (lit "r1"))]).
Proof.
  intros reads st st'. split; [split; reflexivity|].
  exact (proj2 (final_overrides_deltas (P := refPlatform)
                  (Examples.serve (Examples.eventStream reads))
                  (lit "u1") (lit "a1") st reads
                  [{| Parsed.event := lit "start"; Parsed.data := lit "{}" |};
                   {| Parsed.event := lit "delta";
                      Parsed.data := Examples.text "{'content':'Ho'}" |};
                   {| Parsed.event := lit "delta";
                      Parsed.data := Examples.text "{'content':'la'}" |}]
                  {| Parsed.event := lit "final";
                     Parsed.data :=
                       Examples.text
                         "{'conversation_id':'c1','assistant_message':'Adios','data':{'id':'r1'}}" |}
                  eq_refl eq_refl (Examples.serve_answers reads (turnForm st))
                  eq_refl eq_refl eq_refl eq_refl)).
Defined.

(** ** Deltas of any content *)

(** The string conversions of the given values, when each has one. *)
Fixpoint conversions (values : list JsValue) : option (list JsString) :=
  match values with
  | [] => Some []
  | v :: rest =>
      match ToString v, conversions rest with
      | Some s, Some l => Some (s :: l)
      | _, _ => None
      end
  end.

Section AnyDelta.
Context {P : Platform}.

Lemma deltas_run_any (assistantId : JsString) (deltas : list Parsed.t) :
  forallb (isEvent "delta") deltas = true ->
  forall (printed : list JsString),
    conversions (filter truthy (map deltaContent deltas)) = Some printed ->
  forall (l : Loop.t) (ms : list UiMessage.t) (a : UiMessage.t) (t : JsString),
    messages (Loop.ui l) = ms ++ [a] -> UiMessage.id a = assistantId ->
    UiMessage.text a = JString t ->
    exists l' ms' a',
      forEvents (handleEvent assistantId) deltas l = Next l'
      /\ messages (Loop.ui l') = ms' ++ [a']
      /\ length ms' = length ms
      /\ UiMessage.id a' = assistantId
      /\ Loop.hasDelta l'
         = Loop.hasDelta l || existsb truthy (map deltaContent deltas)
      /\ UiMessage.text a' =
         JString (if Loop.hasDelta l then t ++ concat printed
                  else if existsb truthy (map deltaContent deltas)
                       then concat printed
                       else t).
Proof.
  induction deltas as [|p deltas IH]; intros Hd printed Hc l ms a t Hm Hid Ht.
  - exists l, ms, a. cbn in Hc. injection Hc as <-. cbn.
    rewrite orb_false_r, app_nil_r, Ht.
    repeat split; try assumption. now destruct (Loop.hasDelta l).
  - cbn [forallb] in Hd. apply andb_prop in Hd as [Hp Hd].
    cbn [forEvents map existsb]. rewrite (handleEvent_delta _ _ _ Hp).
    cbn [map filter] in Hc.
    destruct (truthy (deltaContent p)) eqn:Et; cbn [negb orb].
    + cbn [conversions] in Hc.
      destruct (ToString (deltaContent p)) as [s|] eqn:Es; [|discriminate Hc].
      destruct (conversions (filter truthy (map deltaContent deltas)))
        as [rest|] eqn:Er; [|discriminate Hc].
      injection Hc as <-.
      set (st1 := if Loop.hasDelta l then Loop.ui l else _).
      assert (H1 : exists ms1 a1,
                 messages st1 = ms1 ++ [a1] /\ length ms1 = length ms
                 /\ UiMessage.id a1 = assistantId
                 /\ UiMessage.text a1 =
                    JString (if Loop.hasDelta l then t else [])).
      { subst st1. destruct (Loop.hasDelta l).
        - exists ms, a. auto.
        - destruct (patchMessage_last assistantId
                      {| Patch.text := Some (JString []); Patch.data := None |}
                      _ _ _ Hm Hid) as (ms1 & E1 & L1).
          exists ms1, (applyPatch {| Patch.text := Some (JString []); Patch.data := None |} a).
          auto. }
      destruct H1 as (ms1 & a1 & Hm1 & L1 & Hid1 & Ht1).
      destruct (appendMessageText_last assistantId (deltaContent p) _ _ _
                  (if Loop.hasDelta l then t else []) s Hm1 Hid1
                  ltac:(now rewrite Ht1) Es)
        as (ms2 & Hm2 & L2).
      edestruct (IH Hd rest eq_refl
                    {| Loop.hasDelta := true; Loop.gotFinal := Loop.gotFinal l;
                       Loop.ui := appendMessageText assistantId (deltaContent p) st1 |}
                    ms2 _ _ Hm2 Hid1 eq_refl)
        as (l' & ms' & a' & E & Hm' & L' & Hid' & Hd' & Ht').
      exists l', ms', a'. cbn [Loop.hasDelta] in *.
      repeat split; try assumption; try congruence.
      * now rewrite orb_true_r.
      * rewrite Ht'. cbn [concat].
        destruct (Loop.hasDelta l); cbn [app]; [now rewrite <- app_assoc|reflexivity].
    + exact (IH Hd printed Hc l ms a t Hm Hid Ht).
Qed.

End AnyDelta.

(** X6.  Whatever the contents of the deltas are, strings or not, as long
    as each truthy one has a string conversion, the assistant message
    after [start] and the deltas reads the string conversions of the
    truthy contents, in order and with nothing between them; a content
    that is missing, null, empty, zero or false adds nothing, and the
    placeholder stays while every content is such. *)
Theorem delta_text_any_content {P : Platform} (assistantId : JsString)
  (reads : list (list Byte.byte)) (st : State)
  (ms : list UiMessage.t) (a : UiMessage.t)
  (start : Parsed.t) (deltas : list Parsed.t) (printed : list JsString) :
  messages st = ms ++ [a] -> UiMessage.id a = assistantId ->
  eventsOf reads = start :: deltas ->
  isEvent "start" start = true ->
  forallb (isEvent "delta") deltas = true ->
  let pieces := map deltaContent deltas in
  conversions (filter truthy pieces) = Some printed ->
  exists l ms' a',
    consume assistantId reads None st = Next l
    /\ messages (Loop.ui l) = ms' ++ [a']
    /\ length ms' = length ms
    /\ UiMessage.id a' = assistantId
    /\ UiMessage.text a' =
       JString (if existsb truthy pieces then concat printed
                else lit "Procesando...").
Proof.
  intros Hm Hid Hev Hs Hd pieces Hc. rewrite consume_events, Hev. cbn [forEvents].
  rewrite (handleEvent_start _ _ _ Hs). cbn [Loop.ui Loop.hasDelta Loop.gotFinal].
  destruct (patchMessage_last assistantId (textPatch "Procesando...") st ms a Hm Hid)
    as (ms1 & Hm1 & L1).
  edestruct (deltas_run_any assistantId deltas Hd printed Hc
               {| Loop.hasDelta := false; Loop.gotFinal := false;
                  Loop.ui := patchMessage assistantId (textPatch "Procesando...") st |}
               ms1 _ (lit "Procesando...") Hm1 Hid eq_refl)
    as (l' & ms' & a' & E & Hm' & L' & Hid' & Hd' & Ht').
  exists l', ms', a'. rewrite E. cbn [ending].
  cbn [Loop.hasDelta orb] in Ht'.
  repeat split; try assumption; congruence.
Qed.

(** Contents that are a number, zero, a string, false, an array and an
    object. *)
Lemma delta_text_any_content_witness :
  let reads :=
    [Examples.sse "start" "{}"; Examples.sse "delta" "{'content':12}";
     Examples.sse "delta" "{'content':0}"; Examples.sse "delta" "{'content':' x '}";
     Examples.sse "delta" "{'content':false}";
     Examples.sse "delta" "{'content':[1,null,'a']}";
     Examples.sse "delta" "{'content':{'a':1}}"] in
  exists l ms' a',
    consume (P := refPlatform) (lit "a1") reads None (Examples.waiting "a1") = Next l
    /\ messages (Loop.ui l) = ms' ++ [a']
    /\ length ms' = 0
    /\ UiMessage.id a' = lit "a1"
    /\ UiMessage.text a' = JString (lit "12 x 1,,a[object Object]").
Proof.
  intros reads.
  exact (delta_text_any_content (P := refPlatform) (lit "a1") reads
           (Examples.waiting "a1") [] (Examples.placeholder "a1")
           {| Parsed.event := lit "start"; Parsed.data := lit "{}" |}
           [{| Parsed.event := lit "delta"; Parsed.data := Examples.text "{'content':12}" |};
            {| Parsed.event := lit "delta"; Parsed.data := Examples.text "{'content':0}" |};
            {| Parsed.event := lit "delta"; Parsed.data := Examples.text "{'content':' x '}" |};
            {| Parsed.event := lit "delta"; Parsed.data := Examples.text "{'content':false}" |};
            {| Parsed.event := lit "delta";
               Parsed.data := Examples.text "{'content':[1,null,'a']}" |};
            {| Parsed.event := lit "delta";
               Parsed.data := Examples.text "{'content':{'a':1}}" |}]
           [lit "12"; lit " x "; lit "1,,a"; lit "[object Object]"]
           eq_refl eq_refl eq_refl eq_refl eq_refl eq_refl).
Defined.

(** ** The stream is read incrementally *)

(** X7.  What has been parsed stays parsed: the events of a stream that
    has delivered more reads start with the events it had delivered
    before, and the loop goes on from where those left it, or has already
    thrown. *)
Theorem parsed_events_only_grow {P : Platform} (assistantId : JsString)
  (reads later : list (list Byte.byte)) (failure : option Thrown) (st : State) :
  exists more,
    eventsOf (reads ++ later) = eventsOf reads ++ more
    /\ consume assistantId (reads ++ later) failure st =
       match consume assistantId reads None st with
       | Next l => ending failure (forEvents (handleEvent assistantId) more l)
       | Raise e l => Raise e l
       end.
Proof.
  destruct (StreamFacts.eventsOf_app reads later) as [more Hm].
  exists more. split; [exact Hm|].
  rewrite !consume_events, Hm, StreamFacts.forEvents_app.
  destruct (forEvents _ (eventsOf reads) _); reflexivity.
Qed.

(** ** The receipt editor *)

(** [typeof v === "object"]. *)
Definition typeofObject (v : JsValue) : bool :=
  match v with
  | JNull | JArray _ | JObject _ => true
  | _ => false
  end.

Definition extractReceiptId (data : JsValue) : option JsString :=
  if negb (truthy data) || negb (typeofObject data) then None
  else
    match member data (lit "id") with
    | JString maybeId => Some maybeId
    | _ => None
    end.

Definition setEditReceiptId (v : JsString) (st : State) : State :=
  {| conversationId := conversationId st; input := input st; file := file st;
     messages := messages st; loading := loading st;
     editReceiptId := v; editableReceipt := editableReceipt st;
     editorLoading := editorLoading st; editorMessage := editorMessage st |}.

(** The fields of the editor that have an input box. *)
Module Field.
Inductive t :=
| vendor_name | receipt_number | subtotal | tax | total
| currency | payment_method | issue_date | status.
End Field.

Definition fieldKey (f : Field.t) : JsString :=
  match f with
  | Field.vendor_name => lit "vendor_name"
  | Field.receipt_number => lit "receipt_number"
  | Field.subtotal => lit "subtotal"
  | Field.tax => lit "tax"
  | Field.total => lit "total"
  | Field.currency => lit "currency"
  | Field.payment_method => lit "payment_method"
  | Field.issue_date => lit "issue_date"
  | Field.status => lit "status"
  end.

Definition isAmount (f : Field.t) : bool :=
  match f with
  | Field.subtotal | Field.tax | Field.total => true
  | _ => false
  end.

Definition fieldOf (f : Field.t) (r : EditableReceipt.t) : JsString :=
  match f with
  | Field.vendor_name => EditableReceipt.vendor_name r
  | Field.receipt_number => EditableReceipt.receipt_number r
  | Field.subtotal => EditableReceipt.subtotal r
  | Field.tax => EditableReceipt.tax r
  | Field.total => EditableReceipt.total r
  | Field.currency => EditableReceipt.currency r
  | Field.payment_method => EditableReceipt.payment_method r
  | Field.issue_date => EditableReceipt.issue_date r
  | Field.status => EditableReceipt.status r
  end.

Definition sameField (f g : Field.t) : bool :=
  match f, g with
  | Field.vendor_name, Field.vendor_name
  | Field.receipt_number, Field.receipt_number
  | Field.subtotal, Field.subtotal
  | Field.tax, Field.tax
  | Field.total, Field.total
  | Field.currency, Field.currency
  | Field.payment_method, Field.payment_method
  | Field.issue_date, Field.issue_date
  | Field.status, Field.status => true
  | _, _ => false
  end.

(** [{ ...prev, field: value }]. *)
Definition withField (f : Field.t) (value : JsString) (prev : EditableReceipt.t)
  : EditableReceipt.t :=
  let spread (g : Field.t) := if sameField f g then value else fieldOf g prev in
  {| EditableReceipt.id := EditableReceipt.id prev;
     EditableReceipt.vendor_name := spread Field.vendor_name;
     EditableReceipt.receipt_number := spread Field.receipt_number;
     EditableReceipt.payment_method := spread Field.payment_method;
     EditableReceipt.status := spread Field.status;
     EditableReceipt.currency := spread Field.currency;
     EditableReceipt.issue_date := spread Field.issue_date;
     EditableReceipt.subtotal := spread Field.subtotal;
     EditableReceipt.tax := spread Field.tax;
     EditableReceipt.total := spread Field.total |}.

(** The [onChange] of the input box of a field:
    [setEditableReceipt((prev) => (prev ? { ...prev, field: value } : prev))]. *)
Definition editField (f : Field.t) (value : JsString) (st : State) : State :=
  setEditableReceipt
    match editableReceipt st with
    | Some prev => Some (withField f value prev)
    | None => None
    end st.

Section Editor.
Context {P : Platform}.

Definition receiptUrl (targetId : JsString) : JsString :=
  apiBase ++ lit "/api/v1/receipts/" ++ targetId.

(** [loadReceiptForEdit]: the state it leaves and the addresses it has
    fetched; [get] answers a [fetch] that is given an address only. *)
Definition loadReceiptForEdit (get : JsString -> FetchOutcome)
  (receiptId : option JsString) (st : State) : State * list JsString :=
  let targetId :=
    trim match receiptId with
         | Some id => id
         | None => editReceiptId st
         end in
  if isEmpty targetId then
    (setEditorMessage (lit "Ingresa un receipt_id para cargar.") st, [])
  else
    let st1 :=
      setEditorMessage (lit "Cargando comprobante...") (setEditorLoading true st) in
    let tried : Flow State :=
      match get (receiptUrl targetId) with
      | Rejected e => Raise e st1
      | Resolved response =>
          if negb (Response.ok response) then
            match Response.text response with
            | inl e => Raise e st1
            | inr detail => Raise (newError (parseApiError detail)) st1
            end
          else
            match Response.json response with
            | inl e => Raise e st1
            | inr JUndefined | inr JNull => Raise (ErrorObj nullReadMessage) st1
            | inr data =>
                match toEditableReceipt data with
                | None => Raise (ErrorObj toPrimitiveMessage) st1
                | Some mapped =>
                    Next (setEditorMessage
                            (lit "Comprobante cargado. Puedes editar y guardar.")
                            (setEditableReceipt (Some mapped)
                               (setEditReceiptId (EditableReceipt.id mapped) st1)))
                end
            end
      end in
    let st2 :=
      match tried with
      | Next s => s
      | Raise error s =>
          setEditorMessage
            (lit "Error al cargar: " ++
             match error with
             | ErrorObj message => message
             | NonError => lit "desconocido"
             end) s
      end in
    (setEditorLoading false st2, [receiptUrl targetId]).

(** The button under a message, shown when [extractReceiptId] gives a
    string that is not empty: [setEditReceiptId(id)] and then
    [loadReceiptForEdit(id)]. *)
Definition editThisReceipt (get : JsString -> FetchOutcome) (msg : UiMessage.t)
  (st : State) : State * list JsString :=
  match extractReceiptId (UiMessage.data msg) with
  | Some messageReceiptId =>
      if isEmpty messageReceiptId then (st, [])
      else loadReceiptForEdit get (Some messageReceiptId)
             (setEditReceiptId messageReceiptId st)
  | None => (st, [])
  end.

End Editor.

(** What a fetch has brought when [response.json()] can be read as a
    record: the response is ok and its JSON is neither null nor missing. *)
Definition fetchedJson (outcome : FetchOutcome) : option JsValue :=
  match outcome with
  | Rejected _ => None
  | Resolved response =>
      if Response.ok response then
        match Response.json response with
        | inr JUndefined | inr JNull | inl _ => None
        | inr data => Some data
        end
      else None
  end.

Module EditorFacts.

Lemma fieldOf_withField (f g : Field.t) (value : JsString) (r : EditableReceipt.t) :
  fieldOf g (withField f value r) = if sameField f g then value else fieldOf g r.
Proof. destruct g; reflexivity. Qed.

Lemma sameField_eq (f g : Field.t) : sameField f g = true <-> f = g.
Proof. destruct f, g; split; intros H; try reflexivity; discriminate. Qed.

(** What the payload of a correction holds under the key of a field. *)
Lemma payload_get {P : Platform} (r : EditableReceipt.t) (f : Field.t) :
  objGet (correctionPayload r) (fieldKey f) =
  if isAmount f then
    if isEmpty (fieldOf f r) then None else Some (StringToNumber (fieldOf f r))
  else Some (if isEmpty (fieldOf f r) then JNull else JString (fieldOf f r)).
Proof.
  unfold correctionPayload.
  destruct (isEmpty (EditableReceipt.subtotal r)) eqn:E1,
           (isEmpty (EditableReceipt.tax r)) eqn:E2,
           (isEmpty (EditableReceipt.total r)) eqn:E3;
    destruct f; cbn [negb fieldOf isAmount]; rewrite ?E1, ?E2, ?E3; reflexivity.
Qed.

(** The conversions that [toEditableReceipt] has made when it returns. *)
Lemma toEditableReceipt_fields (data : JsValue) (r : EditableReceipt.t) :
  toEditableReceipt data = Some r ->
  stringField data (lit "id") [] = Some (EditableReceipt.id r)
  /\ stringField data (lit "vendor_name") [] = Some (EditableReceipt.vendor_name r)
  /\ stringField data (lit "receipt_number") [] = Some (EditableReceipt.receipt_number r)
  /\ stringField data (lit "payment_method") [] = Some (EditableReceipt.payment_method r)
  /\ stringField data (lit "status") (lit "processed") = Some (EditableReceipt.status r)
  /\ stringField data (lit "currency") (lit "PEN") = Some (EditableReceipt.currency r)
  /\ stringField data (lit "issue_date") [] = Some (EditableReceipt.issue_date r)
  /\ amountField data (lit "subtotal") = Some (EditableReceipt.subtotal r)
  /\ amountField data (lit "tax") = Some (EditableReceipt.tax r)
  /\ amountField data (lit "total") = Some (EditableReceipt.total r).
Proof.
  unfold toEditableReceipt. intros H.
  repeat match type of H with
         | match ?x with Some _ => _ | None => _ end = _ =>
             destruct x; [|discriminate H]
         end.
  injection H as <-. repeat split.
Qed.




End EditorFacts.


(** X8.  [extractReceiptId] gives a string exactly for an object whose
    [id] is a string, and that string is the identifier that the editor
    shows for the same record when it can show it.  The button of a
    message is there when that string is not empty: without it nothing is
    fetched and nothing changes; the button of a message whose identifier
    is not blank once trimmed fetches the receipt of the trimmed
    identifier; the button of a message whose identifier is made of white
    space fills the identifier box, fetches nothing and asks for an
    identifier. *)
Theorem extractReceiptId_is_the_edited_id {P : Platform}
  (get : JsString -> FetchOutcome) (msg : UiMessage.t) (st : State) (s : JsString) :
  (extractReceiptId (UiMessage.data msg) = Some s <->
     exists members,
       UiMessage.data msg = JObject members
       /\ objGet members (lit "id") = Some (JString s))
  /\ (extractReceiptId (UiMessage.data msg) = Some s ->
      forall r, toEditableReceipt (UiMessage.data msg) = Some r ->
                EditableReceipt.id r = s)
  /\ (extractReceiptId (UiMessage.data msg) = None
      \/ extractReceiptId (UiMessage.data msg) = Some [] ->
      editThisReceipt get msg st = (st, []))
  /\ (extractReceiptId (UiMessage.data msg) = Some s -> trim s <> [] ->
      snd (editThisReceipt get msg st) = [receiptUrl (trim s)])
  /\ (extractReceiptId (UiMessage.data msg) = Some s -> s <> [] -> trim s = [] ->
      editThisReceipt get msg st
      = (setEditorMessage (lit "Ingresa un receipt_id para cargar.")
           (setEditReceiptId s st), [])).
Proof.
  assert (Hchar : extractReceiptId (UiMessage.data msg) = Some s <->
                  exists members,
                    UiMessage.data msg = JObject members
                    /\ objGet members (lit "id") = Some (JString s)).
  { unfold extractReceiptId. destruct (UiMessage.data msg) as [| |b|n|t|items|members];
      try (split; [intros H; revert H; try destruct b; cbn;
                   repeat match goal with
                          | |- context [if ?c then _ else _] => destruct c
                          end; discriminate
                  |intros (members & H & _); discriminate]).
    cbn [truthy typeofObject negb orb member]. split.
    - intros H. exists members. split; [reflexivity|].
      destruct (objGet members (lit "id")) as [[| | | |t| |]|]; try discriminate.
      now injection H as ->.
    - intros (members' & H & Hg). injection H as <-. now rewrite Hg. }
  split; [exact Hchar|]. split; [|split; [|split]].
  - intros H r Hr. apply Hchar in H as (members & Hd & Hg).
    apply EditorFacts.toEditableReceipt_fields in Hr as (Hid & _).
    unfold stringField in Hid. rewrite Hd in Hid. cbn [member] in Hid.
    rewrite Hg in Hid. cbn [nullish ToString] in Hid. congruence.
  - intros [H|H]; unfold editThisReceipt; now rewrite H.
  - intros H Ht. unfold editThisReceipt. rewrite H.
    destruct s as [|c s']; [contradiction|]. cbn [isEmpty].
    unfold loadReceiptForEdit.
    destruct (isEmpty (trim (c :: s'))) eqn:E; [|reflexivity].
    destruct (trim (c :: s')); [contradiction|discriminate].
  - intros H Hs Ht. unfold editThisReceipt. rewrite H.
    destruct s as [|c s']; [contradiction|]. cbn [isEmpty].
    unfold loadReceiptForEdit. now rewrite Ht.
Qed.

(** A message that carries the record of a receipt, and one whose record
    has a blank identifier. *)
Lemma extractReceiptId_is_the_edited_id_witness :
  let record := JObject [(lit "id", JString (lit " r1 ")); (lit "total", JNumber (lit "12"))] in
  let msg :=
    {| UiMessage.id := lit "a1"; UiMessage.role := assistant;
       UiMessage.text := JString (lit "listo"); UiMessage.data := record |} in
  let blank :=
    {| UiMessage.id := lit "a2"; UiMessage.role := assistant;
       UiMessage.text := JString (lit "listo");
       UiMessage.data := JObject [(lit "id", JString (lit "  "))] |} in
  extractReceiptId record = Some (lit " r1 ")
  /\ option_map EditableReceipt.id (toEditableReceipt record) = Some (lit " r1 ")
  /\ snd (editThisReceipt (P := refPlatform) (fun _ => Rejected NonError) msg initialState)
     = [lit "http://localhost:8000/api/v1/receipts/r1"]
  /\ editThisReceipt (P := refPlatform) (fun _ => Rejected NonError) blank initialState
     = (setEditorMessage (lit "Ingresa un receipt_id para cargar.")
          (setEditReceiptId (lit "  ") initialState), []).
Proof.
  intros record msg blank.
  pose proof (extractReceiptId_is_the_edited_id (P := refPlatform)
                (fun _ => Rejected NonError) msg initialState (lit " r1 "))
    as (_ & _ & _ & H4 & _).
  pose proof (extractReceiptId_is_the_edited_id (P := refPlatform)
                (fun _ => Rejected NonError) blank initialState (lit "  "))
    as (_ & _ & _ & _ & H5).
  split; [reflexivity|]. split; [reflexivity|]. split.
  - apply (H4 eq_refl). discriminate.
  - apply (H5 eq_refl); [discriminate|reflexivity].
Defined.



(** X10.  Typing in the input box of a field changes what the next save
    sends under the key of that field and nothing else: the other keys,
    and the address of the request, are as before; with no receipt
    loaded, typing does nothing. *)
Theorem edit_changes_one_key {P : Platform} (f : Field.t) (value : JsString)
  (st : State) :
  (editableReceipt st = None -> editField f value st = st)
  /\ (forall r, editableReceipt st = Some r ->
        let r' := withField f value r in
        editableReceipt (editField f value st) = Some r'
        /\ Request.url (correctionRequest r') = Request.url (correctionRequest r)
        /\ objGet (correctionPayload r') (fieldKey f)
           = (if isAmount f then
                if isEmpty value then None else Some (StringToNumber value)
              else Some (if isEmpty value then JNull else JString value))
        /\ (forall g, g <> f ->
              objGet (correctionPayload r') (fieldKey g)
              = objGet (correctionPayload r) (fieldKey g))).
Proof.
  split.
  - intros H. unfold editField. rewrite H. destruct st. cbn in *. now subst.
  - intros r Hr r'. subst r'. split; [unfold editField; now rewrite Hr|].
    split; [reflexivity|]. split.
    + rewrite EditorFacts.payload_get, EditorFacts.fieldOf_withField.
      now rewrite (proj2 (EditorFacts.sameField_eq f f) eq_refl).
    + intros g Hg. rewrite !EditorFacts.payload_get, EditorFacts.fieldOf_withField.
      destruct (sameField f g) eqn:E; [|reflexivity].
      apply EditorFacts.sameField_eq in E. congruence.
Qed.

(** Clearing the total of a loaded receipt. *)
Lemma edit_changes_one_key_witness :
  let r :=
    {| EditableReceipt.id := lit "r1";
       EditableReceipt.vendor_name := lit "Tienda";
       EditableReceipt.receipt_number := [];
       EditableReceipt.payment_method := [];
       EditableReceipt.status := lit "processed";
       EditableReceipt.currency := lit "PEN";
       EditableReceipt.issue_date := [];
       EditableReceipt.subtotal := [];
       EditableReceipt.tax := [];
       EditableReceipt.total := lit "12.5" |} in
  let st := setEditableReceipt (Some r) initialState in
  let r' := withField Field.total [] r in
  toEditableReceipt
    (JObject [(lit "id", JString (lit "r1"));
              (lit "vendor_name", JString (lit "Tienda"));
              (lit "total", JNumber (lit "12.5"))]) = Some r
  /\ editableReceipt st = Some r
  /\ editableReceipt (editField Field.total [] st) = Some r'
  /\ objGet (correctionPayload (P := refPlatform) r') (lit "total") = None
  /\ objGet (correctionPayload (P := refPlatform) r') (lit "vendor_name")
     = Some (JString (lit "Tienda")).
Proof.
  intros r st r'. split; [reflexivity|]. split; [reflexivity|].
  destruct (proj2 (edit_changes_one_key (P := refPlatform) Field.total [] st) r eq_refl)
    as (H1 & _ & H3 & H4).
  split; [exact H1|]. split; [exact H3|].
  exact (H4 Field.vendor_name ltac:(discriminate)).
Defined.

(** X11.  [loadReceiptForEdit] fetches nothing for an identifier that is
    blank once trimmed, and only says so; for any other identifier it
    fetches the receipt of the trimmed identifier, once, and ends with the
    editor not loading, whatever the answer; it never changes the chat. *)
Theorem loadReceiptForEdit_request {P : Platform} (get : JsString -> FetchOutcome)
  (receiptId : option JsString) (st : State) :
  let targetId :=
    trim match receiptId with Some id => id | None => editReceiptId st end in
  let st' := fst (loadReceiptForEdit get receiptId st) in
  (targetId = [] ->
   loadReceiptForEdit get receiptId st
   = (setEditorMessage (lit "Ingresa un receipt_id para cargar.") st, []))
  /\ (targetId <> [] ->
      snd (loadReceiptForEdit get receiptId st) = [receiptUrl targetId]
      /\ editorLoading st' = false)
  /\ messages st' = messages st
  /\ conversationId st' = conversationId st
  /\ input st' = input st /\ file st' = file st /\ loading st' = loading st.
Proof.
  intros targetId st'. subst st'. unfold loadReceiptForEdit. fold targetId.
  destruct targetId as [|c t] eqn:E; cbn [isEmpty].
  - split; [reflexivity|]. split; [intros H; contradiction|]. repeat split.
  - split; [intros H; discriminate|].
    set (tried := match get _ with Rejected e => _ | Resolved r => _ end).
    assert (H : messages (flowState tried) = messages st
                /\ conversationId (flowState tried) = conversationId st
                /\ input (flowState tried) = input st
                /\ file (flowState tried) = file st
                /\ loading (flowState tried) = loading st).
    { subst tried. destruct (get _) as [e|r]; [repeat split|].
      destruct (negb (Response.ok r)); [destruct (Response.text r); repeat split|].
      destruct (Response.json r) as [e|data]; [repeat split|].
      destruct data; try (repeat split; fail);
        match goal with
        | |- context [toEditableReceipt ?d] => destruct (toEditableReceipt d)
        end; repeat split. }
    destruct tried as [s|e s]; cbn [flowState] in H; cbn [fst snd];
      destruct H as (H1 & H2 & H3 & H4 & H5); repeat split; assumption.
Qed.

(** An identifier typed with spaces around it, and one made of spaces. *)
Lemma loadReceiptForEdit_request_witness :
  let st := setEditReceiptId (lit "  r1 ") initialState in
  let blank := setEditReceiptId (lit "   ") initialState in
  snd (loadReceiptForEdit (P := refPlatform) (fun _ => Rejected NonError) None st)
  = [lit "http://localhost:8000/api/v1/receipts/r1"]
  /\ loadReceiptForEdit (P := refPlatform) (fun _ => Rejected NonError) None blank
     = (setEditorMessage (lit "Ingresa un receipt_id para cargar.") blank, []).
Proof.
  intros st blank. split.
  - exact (proj1 (proj1 (proj2 (loadReceiptForEdit_request (P := refPlatform)
                                  (fun _ => Rejected NonError) None st))
                        ltac:(discriminate))).
  - exact (proj1 (loadReceiptForEdit_request (P := refPlatform)
                    (fun _ => Rejected NonError) None blank) eq_refl).
Defined.

(** X12.  A load that brings a record every field of which has a string
    conversion replaces the receipt of the editor by that record and the
    identifier box by its identifier.  A load that brings a record with a
    field that has none keeps both as they were and reports the TypeError
    of the conversion; and so does, with its own error, a load that
    fails because the fetch is rejected, the response is not ok or its
    JSON cannot be read as a record. *)
Theorem loadReceiptForEdit_outcome {P : Platform} (get : JsString -> FetchOutcome)
  (receiptId : option JsString) (st : State) :
  let targetId :=
    trim match receiptId with Some id => id | None => editReceiptId st end in
  let st' := fst (loadReceiptForEdit get receiptId st) in
  targetId <> [] ->
  match fetchedJson (get (receiptUrl targetId)) with
  | Some data =>
      match toEditableReceipt data with
      | Some mapped =>
          editableReceipt st' = Some mapped
          /\ editReceiptId st' = EditableReceipt.id mapped
          /\ editorMessage st' = lit "Comprobante cargado. Puedes editar y guardar."
      | None =>
          editableReceipt st' = editableReceipt st
          /\ editReceiptId st' = editReceiptId st
          /\ editorMessage st' = lit "Error al cargar: " ++ toPrimitiveMessage
      end
  | None =>
      editableReceipt st' = editableReceipt st
      /\ editReceiptId st' = editReceiptId st
      /\ exists reason, editorMessage st' = lit "Error al cargar: " ++ reason
  end.
Proof.
  intros targetId st' Ht. subst st'. unfold loadReceiptForEdit. fold targetId.
  destruct targetId as [|c t] eqn:E; [contradiction|]. cbn [isEmpty fst].
  unfold fetchedJson. destruct (get _) as [e|r].
  { repeat split. eexists. reflexivity. }
  destruct (Response.ok r); cbn [negb].
  2:{ destruct (Response.text r); repeat split; eexists; reflexivity. }
  destruct (Response.json r) as [e|data].
  { repeat split. eexists. reflexivity. }
  destruct data; try (repeat split; eexists; reflexivity);
    match goal with
    | |- context [toEditableReceipt ?d] => destruct (toEditableReceipt d)
    end; repeat split.
Qed.

(** A receipt that is found, one that is not, and one whose vendor has no
    string conversion. *)
Lemma loadReceiptForEdit_outcome_witness :
  let record := JObject [(lit "id", JString (lit "r1")); (lit "total", JNumber (lit "12"))] in
  let odd :=
    JObject [(lit "id", JString (lit "r1"));
             (lit "vendor_name", JObject [(lit "toString", JNumber (lit "1"))])] in
  let answer (json : JsValue) :=
    {| Response.ok := true; Response.text := inr []; Response.json := inr json;
       Response.contentType := Some (lit "application/json"); Response.body := None |} in
  let st := setEditReceiptId (lit "r1") initialState in
  let loaded :=
    fst (loadReceiptForEdit (P := refPlatform) (fun _ => Resolved (answer record)) None st) in
  let failed :=
    fst (loadReceiptForEdit (P := refPlatform)
           (fun _ => Resolved (Examples.refusal "{'error':{'message':'no existe'}}"))
           None st) in
  let thrown :=
    fst (loadReceiptForEdit (P := refPlatform) (fun _ => Resolved (answer odd)) None st) in
  (option_map EditableReceipt.total (editableReceipt loaded) = Some (lit "12")
   /\ editReceiptId loaded = lit "r1")
  /\ (editableReceipt failed = None
      /\ editorMessage failed = lit "Error al cargar: no existe")
  /\ (editableReceipt thrown = None
      /\ editorMessage thrown
         = lit "Error al cargar: Cannot convert object to primitive value").
Proof.
  intros record odd answer st loaded failed thrown.
  pose proof (loadReceiptForEdit_outcome (P := refPlatform)
                (fun _ => Resolved (answer record)) None st ltac:(discriminate))
    as (H1 & H2 & _).
  pose proof (loadReceiptForEdit_outcome (P := refPlatform)
                (fun _ => Resolved (Examples.refusal "{'error':{'message':'no existe'}}"))
                None st ltac:(discriminate))
    as (K1 & _).
  pose proof (loadReceiptForEdit_outcome (P := refPlatform)
                (fun _ => Resolved (answer odd)) None st ltac:(discriminate))
    as (T1 & _ & T3).
  split; [split|split; split].
  - subst loaded. now rewrite H1.
  - exact H2.
  - exact K1.
  - reflexivity.
  - exact T1.
  - exact T3.
Defined.

(** X13.  A save with no receipt loaded sends nothing and only says so.
    A save that brings back a record every field of which has a string
    conversion replaces the receipt of the editor by it and appends to
    the chat one assistant message that carries the record; a save that
    brings back a record with a field that has none, or that fails
    otherwise, keeps the edited receipt and the chat as they were and
    reports an error.  In every case the editor ends not loading, and the
    identifier of the conversation, the input box, the file and the
    loading flag of the chat are not touched. *)
Theorem saveManualCorrection_outcome {P : Platform} (fetch : Request.t -> FetchOutcome)
  (messageId : JsString) (st : State) :
  let st' := fst (saveManualCorrection fetch messageId st) in
  (editableReceipt st = None ->
   saveManualCorrection fetch messageId st
   = (setEditorMessage (lit "No hay comprobante cargado para editar.") st, []))
  /\ (forall r, editableReceipt st = Some r ->
        editorLoading st' = false
        /\ match fetchedJson (fetch (correctionRequest r)) with
           | Some updated =>
               match toEditableReceipt updated with
               | Some mapped =>
                   editableReceipt st' = Some mapped
                   /\ messages st' =
                      messages st ++
                      [{| UiMessage.id := messageId; UiMessage.role := assistant;
                          UiMessage.text :=
                            JString (lit "Correccion manual aplicada al comprobante "
                                     ++ EditableReceipt.id mapped ++ lit ".");
                          UiMessage.data := updated |}]
                   /\ editorMessage st' = lit "Correccion manual guardada correctamente."
               | None =>
                   editableReceipt st' = Some r
                   /\ messages st' = messages st
                   /\ editorMessage st' = lit "Error al guardar: " ++ toPrimitiveMessage
               end
           | None =>
               editableReceipt st' = Some r
               /\ messages st' = messages st
               /\ exists reason, editorMessage st' = lit "Error al guardar: " ++ reason
           end)
  /\ conversationId st' = conversationId st
  /\ input st' = input st /\ file st' = file st /\ loading st' = loading st
  /\ editReceiptId st' = editReceiptId st.
Proof.
  intros st'. subst st'. unfold saveManualCorrection.
  destruct (editableReceipt st) as [r|] eqn:Hr.
  2:{ split; [reflexivity|]. split; [intros r H; discriminate|]. repeat split. }
  split; [intros H; discriminate|]. cbn [fst]. split.
  - intros r0 H. injection H as <-. unfold fetchedJson.
    destruct (fetch (correctionRequest r)) as [e|resp].
    { repeat split; try exact Hr; try (eexists; reflexivity). }
    destruct (Response.ok resp); cbn [negb].
    2:{ destruct (Response.text resp);
          repeat split; try exact Hr; try (eexists; reflexivity). }
    destruct (Response.json resp) as [e|updated].
    { repeat split; try exact Hr; try (eexists; reflexivity). }
    destruct updated;
      try (repeat split; try exact Hr; try (eexists; reflexivity); fail);
      match goal with
      | |- context [toEditableReceipt ?d] => destruct (toEditableReceipt d)
      end; repeat split; exact Hr.
  - destruct (fetch (correctionRequest r)) as [e|resp]; [repeat split|].
    destruct (negb (Response.ok resp)); [destruct (Response.text resp); repeat split|].
    destruct (Response.json resp) as [e|updated]; [repeat split|].
    destruct updated; try (repeat split; fail);
      match goal with
      | |- context [toEditableReceipt ?d] => destruct (toEditableReceipt d)
      end; repeat split.
Qed.

(** A correction that the server accepts, and one that it refuses. *)
Lemma saveManualCorrection_outcome_witness :
  let r :=
    {| EditableReceipt.id := lit "r1";
       EditableReceipt.vendor_name := [];
       EditableReceipt.receipt_number := [];
       EditableReceipt.payment_method := [];
       EditableReceipt.status := lit "processed";
       EditableReceipt.currency := lit "PEN";
       EditableReceipt.issue_date := [];
       EditableReceipt.subtotal := [];
       EditableReceipt.tax := [];
       EditableReceipt.total := lit "12" |} in
  let updated :=
    JObject [(lit "id", JString (lit "r1")); (lit "status", JString (lit "manually_corrected"))] in
  let accepted :=
    {| Response.ok := true; Response.text := inr []; Response.json := inr updated;
       Response.contentType := Some (lit "application/json"); Response.body := None |} in
  let st := setEditableReceipt (Some r) initialState in
  let saved :=
    fst (saveManualCorrection (P := refPlatform) (fun _ => Resolved accepted) (lit "m1") st) in
  let refused :=
    fst (saveManualCorrection (P := refPlatform)
           (Examples.serve (Examples.refusal "{'error':{'message':'total invalido'}}"))
           (lit "m1") st) in
  editableReceipt st = Some r
  /\ option_map EditableReceipt.status (editableReceipt saved) = Some (lit "manually_corrected")
  /\ map UiMessage.text (messages saved)
     = [JString (lit "Correccion manual aplicada al comprobante r1.")]
  /\ editableReceipt refused = Some r
  /\ messages refused = []
  /\ editorMessage refused = lit "Error al guardar: total invalido".
Proof.
  intros r updated accepted st saved refused. split; [reflexivity|].
  destruct (proj1 (proj2 (saveManualCorrection_outcome (P := refPlatform)
                            (fun _ => Resolved accepted) (lit "m1") st)) r eq_refl)
    as (_ & H1 & H2 & _).
  destruct (proj1 (proj2 (saveManualCorrection_outcome (P := refPlatform)
                            (Examples.serve (Examples.refusal "{'error':{'message':'total invalido'}}"))
                            (lit "m1") st)) r eq_refl)
    as (_ & K1 & K2 & _).
  split; [subst saved; rewrite H1; reflexivity|].
  split; [subst saved; rewrite H2; reflexivity|].
  split; [exact K1|]. split; [exact K2|reflexivity].
Defined.

(** ** Lines, carriage returns and blocks without data *)

(** No line feed in a string. *)
Definition noLF (s : JsString) : bool := forallb (fun c => negb (N.eqb c LF)) s.

Module LineFacts.

Lemma breakOn_line (x rest : JsString) :
  noLF x = true -> breakOn [LF] (x ++ LF :: rest) = Some (x, rest).
Proof.
  induction x as [|c x IH]; intros H; [reflexivity|].
  cbn [noLF forallb] in H. apply andb_prop in H as [Hc Hx].
  apply negb_true_iff in Hc.
  change ((c :: x) ++ LF :: rest) with (c :: (x ++ LF :: rest)).
  cbn [breakOn startsWith]. rewrite N.eqb_sym, Hc. cbn [andb].
  now rewrite (IH Hx).
Qed.

Lemma breakOn_no_line (x : JsString) : noLF x = true -> breakOn [LF] x = None.
Proof.
  induction x as [|c x IH]; intros H; [reflexivity|].
  cbn [noLF forallb] in H. apply andb_prop in H as [Hc Hx].
  apply negb_true_iff in Hc.
  cbn [breakOn startsWith]. rewrite N.eqb_sym, Hc. cbn [andb].
  now rewrite (IH Hx).
Qed.

(** Splitting at the line feeds gives back the lines that were joined. *)
Lemma split_join (lines : list JsString) :
  lines <> [] -> forallb noLF lines = true -> split [LF] (join [LF] lines) = lines.
Proof.
  induction lines as [|x lines IH]; intros Hne H; [contradiction|].
  cbn [forallb] in H. apply andb_prop in H as [Hx Hl].
  destruct lines as [|y lines].
  - cbn [join]. apply JsFacts.split_none. now apply breakOn_no_line.
  - change (join [LF] (x :: y :: lines)) with (x ++ LF :: join [LF] (y :: lines)).
    rewrite (JsFacts.split_some _ _ _ _ _ (breakOn_line x _ Hx)).
    f_equal. apply IH; [discriminate|exact Hl].
Qed.

Lemma forallb_rev_eq (A : Type) (f : A -> bool) (l : list A) :
  forallb f (rev l) = forallb f l.
Proof.
  induction l as [|x l IH]; [reflexivity|].
  cbn [rev forallb]. rewrite forallb_app, IH. cbn [forallb].
  now rewrite andb_true_r, andb_comm.
Qed.

Lemma trimEnd_padded (l ws : JsString) :
  forallb isWhiteSpace ws = true -> trimEnd (l ++ ws) = trimEnd l.
Proof.
  intros H. unfold trimEnd. rewrite rev_app_distr, TrimFacts.trimStart_app.
  now rewrite forallb_rev_eq, H.
Qed.

Lemma sseLine_padded (acc : JsString * list JsString) (l ws : JsString) :
  forallb isWhiteSpace ws = true -> sseLine acc (l ++ ws) = sseLine acc l.
Proof.
  intros H. unfold sseLine. now rewrite (trimEnd_padded l ws H).
Qed.

Lemma noLF_app (a b : JsString) : noLF (a ++ b) = noLF a && noLF b.
Proof. apply forallb_app. Qed.

End LineFacts.

(** A line with the white space that follows it: neither holds a line
    feed. *)
Definition paddedLine (p : JsString * JsString) : bool :=
  noLF (fst p) && noLF (snd p) && forallb isWhiteSpace (snd p).

(** X14.  White space at the end of the lines of a block, a carriage
    return before each line feed for one, changes nothing to what
    [parseSseBlock] returns. *)
Theorem parseSseBlock_ignores_line_padding (pairs : list (JsString * JsString)) :
  forallb paddedLine pairs = true ->
  parseSseBlock (join [LF] (map (fun p => fst p ++ snd p) pairs))
  = parseSseBlock (join [LF] (map fst pairs)).
Proof.
  intros H.
  assert (Hcase : pairs = [] \/ pairs <> []) by (destruct pairs; [now left|now right]).
  destruct Hcase as [->|Hcase]; [reflexivity|].
  assert (Hne : forall f : JsString * JsString -> JsString, map f pairs <> []).
  { intros f Hf. apply map_eq_nil in Hf. contradiction. }
  assert (Hplain : forallb noLF (map fst pairs) = true).
  { clear Hcase Hne. induction pairs as [|p pairs IH]; [reflexivity|].
    cbn [forallb] in H. apply andb_prop in H as [Hp H].
    unfold paddedLine in Hp. apply andb_prop in Hp as [Hp _].
    apply andb_prop in Hp as [Hp _]. cbn [map forallb].
    apply andb_true_iff. split; [exact Hp|exact (IH H)]. }
  assert (Hpadded : forallb noLF (map (fun p => fst p ++ snd p) pairs) = true).
  { clear Hcase Hne Hplain. induction pairs as [|p pairs IH]; [reflexivity|].
    cbn [forallb] in H. apply andb_prop in H as [Hp H].
    unfold paddedLine in Hp. apply andb_prop in Hp as [Hp _].
    cbn [map forallb]. rewrite LineFacts.noLF_app.
    apply andb_true_iff. split; [exact Hp|exact (IH H)]. }
  assert (Hfold : forall acc,
             fold_left sseLine (map (fun p => fst p ++ snd p) pairs) acc
             = fold_left sseLine (map fst pairs) acc).
  { clear Hcase Hne Hplain Hpadded.
    induction pairs as [|p pairs IH]; intros acc; [reflexivity|].
    cbn [forallb] in H. apply andb_prop in H as [Hp H].
    unfold paddedLine in Hp. apply andb_prop in Hp as [_ Hw].
    cbn [map fold_left]. rewrite (LineFacts.sseLine_padded acc _ _ Hw).
    apply IH. exact H. }
  unfold parseSseBlock.
  repeat match goal with
         | |- context [split [LF] (join [LF] ?l)] =>
             rewrite (LineFacts.split_join l);
             [|solve [apply Hne]|first [exact Hpadded|exact Hplain]]
         end.
  apply (f_equal (fun acc : JsString * list JsString =>
                    let (event, dataLines) := acc in
                    if Nat.eqb (length dataLines) 0 then None
                    else Some {| Parsed.event := event;
                                 Parsed.data := join [LF] dataLines |})).
  apply Hfold.
Qed.

(** A block whose two lines end in a carriage return. *)
Lemma parseSseBlock_ignores_line_padding_witness :
  let pairs := [(lit "event: delta", [13%N]); (lit "data: x", [13%N; 32%N])] in
  forallb paddedLine pairs = true
  /\ parseSseBlock (lit "event: delta" ++ [13%N; LF] ++ lit "data: x" ++ [13%N; 32%N])
     = Some {| Parsed.event := lit "delta"; Parsed.data := lit "x" |}.
Proof.
  intros pairs. split; [reflexivity|].
  exact (eq_trans (parseSseBlock_ignores_line_padding pairs eq_refl) eq_refl).
Defined.

(** X15.  A block that has no line starting with [data:], a comment sent
    to keep the connection alive for one, and a block whose event is none
    of [start], [delta], [error] and [final], change nothing and do not
    stop the loop. *)
Theorem other_blocks_change_nothing {P : Platform} (assistantId : JsString)
  (block : JsString) (l : Loop.t) :
  (filter (startsWith (lit "data:")) (split [LF] block) = [] ->
   handleBlock assistantId block l = Next l)
  /\ (forall parsed,
        parseSseBlock block = Some parsed ->
        isEvent "start" parsed = false -> isEvent "delta" parsed = false ->
        isEvent "error" parsed = false -> isEvent "final" parsed = false ->
        handleBlock assistantId block l = Next l).
Proof.
  split.
  - intros H. unfold handleBlock, parseSseBlock.
    rewrite SseFacts.sseLine_fold, H. reflexivity.
  - intros parsed Hp H1 H2 H3 H4. unfold handleBlock. rewrite Hp.
    now apply handleEvent_other.
Qed.

(** A comment, and an event of another name that carries a final
    payload. *)
Lemma other_blocks_change_nothing_witness :
  let l := {| Loop.hasDelta := false; Loop.gotFinal := false;
              Loop.ui := Examples.waiting "a1" |} in
  handleBlock (P := refPlatform) (lit "a1") (lit ": keep-alive") l = Next l
  /\ handleBlock (P := refPlatform) (lit "a1")
       (lit "event: done" ++ [LF] ++ Examples.text "data: {'assistant_message':'x'}") l
     = Next l.
Proof.
  intros l. split.
  - exact (proj1 (other_blocks_change_nothing (P := refPlatform) (lit "a1")
                    (lit ": keep-alive") l) eq_refl).
  - exact (proj2 (other_blocks_change_nothing (P := refPlatform) (lit "a1")
                    (lit "event: done" ++ [LF]
                       ++ Examples.text "data: {'assistant_message':'x'}") l)
                 {| Parsed.event := lit "done";
                    Parsed.data := Examples.text "{'assistant_message':'x'}" |}
                 eq_refl eq_refl eq_refl eq_refl eq_refl).
Defined.

(** ** Error messages that are not strings *)

(** The message of the Error that [new Error(v)] builds or, where the
    conversion of [v] throws, of the TypeError thrown in its place. *)
Definition errorMessage {P : Platform} (v : JsValue) : JsString :=
  match ToString v with
  | Some message => message
  | None => toPrimitiveMessage
  end.

(** X16.  The [message] of an [error] event is not checked to be a
    string: when it is neither missing nor null, the message thrown for
    the first [error] event of a stream is its string conversion, and the
    message of the TypeError of that conversion when it has none. *)
Theorem stream_error_any_message {P : Platform} (fetch : Request.t -> FetchOutcome)
  (formData : FormData) (assistantId : JsString) (st : State)
  (reads : list (list Byte.byte)) (failure : option Thrown)
  (before : list Parsed.t) (parsed : Parsed.t) (after : list Parsed.t) :
  answersWith fetch formData {| Stream.chunks := reads; Stream.failure := failure |} ->
  eventsOf reads = before ++ parsed :: after ->
  isEvent "error" parsed = true ->
  forallb (fun p => negb (isEvent "error" p) && negb (isEvent "final" p)) before = true ->
  let field := member (parseJson (Parsed.data parsed)) (lit "message") in
  let message :=
    match field with
    | JUndefined | JNull => lit "Error en streaming"
    | _ => errorMessage field
    end in
  exists st1,
    fst (sendMessageStreaming fetch formData assistantId st)
    = Raise (ErrorObj message) st1.
Proof.
  intros Ha Hev He Hb field message.
  destruct (first_error_raises assistantId st reads failure before parsed after
              Hev He Hb) as (l & Hc).
  fold field in Hc. exists (Loop.ui l).
  rewrite (sendMessageStreaming_stream _ _ assistantId _ _ Ha).
  cbn [fst Stream.chunks Stream.failure]. rewrite Hc. f_equal.
  subst message. unfold newError, errorMessage.
  destruct field as [| |[|]| | | |]; cbn [nullish ToString]; try reflexivity;
    match goal with
    | |- context [match ?x with Some _ => _ | None => _ end] => now destruct x
    end.
Qed.

(** A message that is a boolean, and one that is an object with a
    [toString] key. *)
Lemma stream_error_any_message_witness :
  let shown (payload : string) :=
    fst (sendMessageStreaming (P := refPlatform)
           (Examples.serve (Examples.eventStream [Examples.sse "error" payload])) []
           (lit "a1") (Examples.waiting "a1")) in
  (exists st1, shown "{'message':true}"%string = Raise (ErrorObj (lit "true")) st1)
  /\ (exists st1,
        shown "{'message':{'toString':1}}"%string
        = Raise (ErrorObj (lit "Cannot convert object to primitive value")) st1).
Proof.
  intros shown. split.
  - exact (stream_error_any_message (P := refPlatform)
             (Examples.serve (Examples.eventStream [Examples.sse "error" "{'message':true}"]))
             [] (lit "a1") (Examples.waiting "a1")
             [Examples.sse "error" "{'message':true}"] None []
             {| Parsed.event := lit "error";
                Parsed.data := Examples.text "{'message':true}" |} []
             (Examples.serve_answers _ []) eq_refl eq_refl eq_refl).
  - exact (stream_error_any_message (P := refPlatform)
             (Examples.serve
                (Examples.eventStream [Examples.sse "error" "{'message':{'toString':1}}"]))
             [] (lit "a1") (Examples.waiting "a1")
             [Examples.sse "error" "{'message':{'toString':1}}"] None []
             {| Parsed.event := lit "error";
                Parsed.data := Examples.text "{'message':{'toString':1}}" |} []
             (Examples.serve_answers _ []) eq_refl eq_refl eq_refl).
Defined.

(** X17.  Nor is the [error.message] of a refused request: when the body
    of a response that is not ok holds a truthy value there, the message
    thrown is its string conversion, and the message of the TypeError of
    that conversion when it has none. *)
Theorem refused_request_any_message {P : Platform} (fetch : Request.t -> FetchOutcome)
  (formData : FormData) (assistantId : JsString) (st : State)
  (response : Response.t) (raw : JsString) :
  fetch (streamRequest formData) = Resolved response ->
  Response.ok response = false ->
  Response.text response = inr raw ->
  let field := member (member (parseJson raw) (lit "error")) (lit "message") in
  truthy field = true ->
  fst (sendMessageStreaming fetch formData assistantId st)
  = Raise (ErrorObj (errorMessage field)) st.
Proof.
  intros Hf Hok Hraw field Ht.
  unfold sendMessageStreaming. rewrite Hf, Hok, Hraw. cbn [negb fst]. f_equal.
  unfold parseApiError. fold field. unfold orElse. rewrite Ht, Ht.
  unfold newError, errorMessage.
  destruct field as [| |[|]| | | |]; try discriminate Ht; try reflexivity;
    match goal with
    | |- context [match ?x with Some _ => _ | None => _ end] => now destruct x
    end.
Qed.

(** A message that is a number, and one that is an array holding an
    object with a [toString] key. *)
Lemma refused_request_any_message_witness :
  let shown (body : string) :=
    fst (sendMessageStreaming (P := refPlatform) (Examples.serve (Examples.refusal body))
           [] (lit "a1") (Examples.waiting "a1")) in
  shown "{'error':{'message':413}}"%string = Raise (ErrorObj (lit "413")) (Examples.waiting "a1")
  /\ shown "{'error':{'message':[{'toString':null}]}}"%string
     = Raise (ErrorObj (lit "Cannot convert object to primitive value"))
         (Examples.waiting "a1").
Proof.
  intros shown. split.
  - exact (refused_request_any_message (P := refPlatform)
             (Examples.serve (Examples.refusal "{'error':{'message':413}}")) []
             (lit "a1") (Examples.waiting "a1")
             (Examples.refusal "{'error':{'message':413}}")
             (Examples.text "{'error':{'message':413}}")
             eq_refl eq_refl eq_refl eq_refl).
  - exact (refused_request_any_message (P := refPlatform)
             (Examples.serve (Examples.refusal "{'error':{'message':[{'toString':null}]}}")) []
             (lit "a1") (Examples.waiting "a1")
             (Examples.refusal "{'error':{'message':[{'toString':null}]}}")
             (Examples.text "{'error':{'message':[{'toString':null}]}}")
             eq_refl eq_refl eq_refl eq_refl).
Defined.
